(** * create-dxp-playwright: the change-identification-and-application engine

    A shallow embedding of [src/generator.ts] (class [Generator]) and of the
    JavaScript built-ins it relies on, followed by the properties of the
    design document that concern the command plan, the [.gitignore] patch
    and the [package.json] patch. *)

From Stdlib Require Import NArith List Bool Lia String Ascii.
From stdpp Require Import base option list numbers countable gmap.

Local Open Scope N_scope.

(** ** JavaScript strings

    A JavaScript string is a sequence of UTF-16 code units.  File contents
    are the strings [fs.readFileSync(_, 'utf-8')] returns and
    [fs.writeFileSync] receives. *)

Abbreviation jsstring := (list N).

Definition js (s : string) : jsstring :=
  List.map N_of_ascii (list_ascii_of_string s).

Definition ch (a : ascii) : N := N_of_ascii a.

(** [WhiteSpace] and [LineTerminator] of ECMA-262, the characters
    [String.prototype.trimEnd] strips. *)
Definition isLineTerminator (c : N) : bool :=
  (c =? 10) || (c =? 13) || (c =? 8232) || (c =? 8233).

Definition isWhiteSpace (c : N) : bool :=
  (c =? 9) || (c =? 11) || (c =? 12) || (c =? 32) || (c =? 160)
  || (c =? 5760) || ((8192 <=? c) && (c <=? 8202))
  || (c =? 8239) || (c =? 8287) || (c =? 12288) || (c =? 65279).

Definition isTrimmed (c : N) : bool := isWhiteSpace c || isLineTerminator c.

(** [s.trimEnd()] *)
Fixpoint trimEnd (s : jsstring) : jsstring :=
  match s with
  | [] => []
  | c :: r =>
      match trimEnd r with
      | [] => if isTrimmed c then [] else [c]
      | r' => c :: r'
      end
  end.

Definition jsstring_eqb (a b : jsstring) : bool := bool_decide (a = b).

Fixpoint startsWith (s p : jsstring) : bool :=
  match p, s with
  | [], _ => true
  | _ :: _, [] => false
  | x :: p', c :: s' => (c =? x) && startsWith s' p'
  end.

(** [s.includes(sub)] on strings *)
Fixpoint String_includes (s sub : jsstring) : bool :=
  startsWith s sub ||
  match s with
  | [] => false
  | _ :: r => String_includes r sub
  end.

(** [parts.join(sep)] *)
Fixpoint join {A} (sep : list A) (parts : list (list A)) : list A :=
  match parts with
  | [] => []
  | [p] => p
  | p :: rest => p ++ sep ++ join sep rest
  end.

(** ** The regular expressions of [_patchGitIgnore]

    Every pattern of [valuesToAdd] has the shape [/^...$?/m]: anchored at
    a line start, made of literal characters, optional characters ([c?])
    and the end-of-line assertion.  With the [m] flag [^] holds at the
    start of the input and after a line terminator, [$] at the end of the
    input and before a line terminator. *)
Inductive atom :=
| Chr (c : N)
| Opt (c : N)
| Eol.

Abbreviation regex := (list atom).

Fixpoint matchHere (p : regex) (s : jsstring) : bool :=
  match p with
  | [] => true
  | Chr c :: p' =>
      match s with
      | x :: s' => (x =? c) && matchHere p' s'
      | [] => false
      end
  | Opt c :: p' =>
      match s with
      | x :: s' => ((x =? c) && matchHere p' s') || matchHere p' s
      | [] => matchHere p' s
      end
  | Eol :: p' =>
      match s with
      | x :: _ => isLineTerminator x && matchHere p' s
      | [] => matchHere p' s
      end
  end.

(** Search for a match from every line start; [bol] tells whether the
    current position is one. *)
Fixpoint searchLines (p : regex) (bol : bool) (s : jsstring) : bool :=
  (bol && matchHere p s) ||
  match s with
  | [] => false
  | x :: s' => searchLines p (isLineTerminator x) s'
  end.

(** Truthiness of [s.match(/^p/m)] *)
Definition String_match (s : jsstring) (p : regex) : bool :=
  searchLines p true s.

Definition lit (s : string) : regex := List.map Chr (js s).

(** The object literal [valuesToAdd], in [Object.entries] order. *)
Definition valuesToAdd : list (jsstring * regex) :=
  [ (js "node_modules/", lit "node_modules" ++ [Opt (ch "/")]);
    (js "/test-results/",
      [Opt (ch "/")] ++ lit "test-results" ++ [Opt (ch "/"); Eol]);
    (js "/playwright-report/",
      lit "/playwright-report" ++ [Opt (ch "/"); Eol]);
    (js "/blob-report/", lit "/blob-report" ++ [Opt (ch "/"); Eol]);
    (js "/playwright/.cache/",
      lit "/playwright/.cache" ++ [Opt (ch "/"); Eol]) ].

Definition LF : jsstring := [10].
Definition headingComment : jsstring := LF ++ js "# Playwright" ++ LF.

(** One iteration of the [forEach] callback of [_patchGitIgnore]; the
    state is the pair [(gitIgnore, thisIsTheFirstLineWeAreAdding)]. *)
Definition addValue (st : jsstring * bool) (entry : jsstring * regex)
  : jsstring * bool :=
  let '(gitIgnore, thisIsTheFirstLineWeAreAdding) := st in
  let '(value, re) := entry in
  if negb (String_match gitIgnore re) then
    let gitIgnore1 :=
      if thisIsTheFirstLineWeAreAdding
      then gitIgnore ++ headingComment else gitIgnore in
    (gitIgnore1 ++ value ++ LF, false)
  else st.

(** The text [_patchGitIgnore] writes, from the text it finds ([None]
    when [.gitignore] does not exist). *)
Definition patchedGitIgnore (existing : option jsstring) : jsstring :=
  let gitIgnore :=
    match existing with
    | Some content => trimEnd content ++ LF
    | None => []
    end in
  fst (fold_left addValue valuesToAdd (gitIgnore, true)).


(** ** JSON values

    The values [JSON.parse] produces.  A finite number is carried as the
    text [Number::toString] prints for it, which identifies the number
    ([0] and [-0] both print as [0], and the generator cannot tell them
    apart); [JNumber None] stands for the two infinities, which an
    overflowing literal such as [1e999] denotes.  The members of an
    object are listed in property-enumeration order. *)
#[warnings="-register-all"]
Inductive json :=
| JNull
| JBool (b : bool)
| JNumber (n : option jsstring)
| JString (s : jsstring)
| JArray (l : list json)
| JObject (m : list (jsstring * json)).

(** The floating-point reading of a number literal is the one part of
    [JSON.parse] that is left abstract: [Number_of_literal t] is the text
    [JSON.stringify] prints for the double nearest to the literal [t], or
    [None] when the literal overflows. *)
Class Numbers := { Number_of_literal : jsstring -> option jsstring }.


(** *** Property order of ordinary objects

    [OrdinaryOwnPropertyKeys] lists the array-index keys in ascending
    numeric order, then the other string keys in creation order. *)
Definition isDigit (c : N) : bool := (48 <=? c) && (c <=? 57).

Definition digitsValue (s : jsstring) : option N :=
  fold_left (fun acc c =>
    match acc with
    | Some n => if isDigit c then Some (10 * n + (c - 48)) else None
    | None => None
    end) s (Some 0).

(** The decimal digits of a number *)
Fixpoint digitsOf (u : Decimal.uint) : jsstring :=
  match u with
  | Decimal.Nil => []
  | Decimal.D0 r => 48 :: digitsOf r
  | Decimal.D1 r => 49 :: digitsOf r
  | Decimal.D2 r => 50 :: digitsOf r
  | Decimal.D3 r => 51 :: digitsOf r
  | Decimal.D4 r => 52 :: digitsOf r
  | Decimal.D5 r => 53 :: digitsOf r
  | Decimal.D6 r => 54 :: digitsOf r
  | Decimal.D7 r => 55 :: digitsOf r
  | Decimal.D8 r => 56 :: digitsOf r
  | Decimal.D9 r => 57 :: digitsOf r
  end.

(** An array index is a key that is the decimal text of a number below
    [2^32 - 1] (a canonical numeric string). *)
Definition arrayIndex (k : jsstring) : option N :=
  match digitsValue k with
  | Some n =>
      if (n <=? 4294967294) && bool_decide (k = digitsOf (N.to_uint n))
      then Some n else None
  | None => None
  end.

Fixpoint lookupKey {V} (k : jsstring) (m : list (jsstring * V)) : option V :=
  match m with
  | [] => None
  | (k', v) :: m' => if bool_decide (k = k') then Some v else lookupKey k m'
  end.

Fixpoint replaceKey {V} (k : jsstring) (v : V) (m : list (jsstring * V))
  : list (jsstring * V) :=
  match m with
  | [] => []
  | (k', v') :: m' =>
      if bool_decide (k = k') then (k, v) :: m'
      else (k', v') :: replaceKey k v m'
  end.

Fixpoint deleteKey {V} (k : jsstring) (m : list (jsstring * V))
  : list (jsstring * V) :=
  match m with
  | [] => []
  | (k', v') :: m' =>
      if bool_decide (k = k') then m' else (k', v') :: deleteKey k m'
  end.

(** A new array-index key goes before the first key that is not a smaller
    array index. *)
Fixpoint insertIndex {V} (i : N) (k : jsstring) (v : V)
  (m : list (jsstring * V)) : list (jsstring * V) :=
  match m with
  | [] => [(k, v)]
  | (k', v') :: m' =>
      match arrayIndex k' with
      | Some j =>
          if j <? i then (k', v') :: insertIndex i k v m'
          else (k, v) :: m
      | None => (k, v) :: m
      end
  end.

(** [o[k] = v] on an ordinary object (also [CreateDataProperty]). *)
Definition setKey {V} (k : jsstring) (v : V) (m : list (jsstring * V))
  : list (jsstring * V) :=
  match lookupKey k m with
  | Some _ => replaceKey k v m
  | None =>
      match arrayIndex k with
      | Some i => insertIndex i k v m
      | None => m ++ [(k, v)]
      end
  end.

(** [ToBoolean] *)
Definition truthy (v : json) : bool :=
  match v with
  | JNull => false
  | JBool b => b
  | JNumber (Some c) => negb (bool_decide (c = [48]))
  | JNumber None => true
  | JString s => negb (bool_decide (s = []))
  | JArray _ | JObject _ => true
  end.

(** [v[k]] for a value [v] that is neither [null] nor [undefined], and a
    key [k] that no built-in prototype defines and that is not an index or
    [length]; [None] is [undefined].  Every key the generator reads
    ([scripts], [test], [dependencies], ...) is of that kind. *)
Definition getProperty (v : json) (k : jsstring) : option json :=
  match v with
  | JObject m => lookupKey k m
  | _ => None
  end.

(** ** [JSON.stringify(value, null, 2)] *)

Definition hexDigit (d : N) : N := if d <? 10 then 48 + d else 87 + d.

(** [UnicodeEscape]: a backslash, [u] and four lowercase hex digits *)
Definition UnicodeEscape (c : N) : jsstring :=
  [92; 117; hexDigit (c / 4096 mod 16); hexDigit (c / 256 mod 16);
   hexDigit (c / 16 mod 16); hexDigit (c mod 16)].

Definition isLeadingSurrogate (c : N) : bool := (55296 <=? c) && (c <=? 56319).
Definition isTrailingSurrogate (c : N) : bool := (56320 <=? c) && (c <=? 57343).

(** The escape of one code unit that is not a surrogate *)
Definition escapeUnit (c : N) : jsstring :=
  if c =? 8 then [92; 98]
  else if c =? 9 then [92; 116]
  else if c =? 10 then [92; 110]
  else if c =? 12 then [92; 102]
  else if c =? 13 then [92; 114]
  else if c =? 34 then [92; 34]
  else if c =? 92 then [92; 92]
  else if c <? 32 then UnicodeEscape c
  else [c].

(** The body of [QuoteJSONString]: surrogate pairs are copied, lone
    surrogates escaped (well-formed [JSON.stringify]). *)
Fixpoint quoteUnits (s : jsstring) : jsstring :=
  match s with
  | [] => []
  | c :: r =>
      if isLeadingSurrogate c then
        match r with
        | d :: r' =>
            if isTrailingSurrogate d then c :: d :: quoteUnits r'
            else UnicodeEscape c ++ quoteUnits r
        | [] => UnicodeEscape c
        end
      else if isTrailingSurrogate c then UnicodeEscape c ++ quoteUnits r
      else escapeUnit c ++ quoteUnits r
  end.

Definition QuoteJSONString (s : jsstring) : jsstring :=
  [34] ++ quoteUnits s ++ [34].

Definition gap : jsstring := [32; 32].

(** [SerializeJSONProperty] with the current indentation *)
Fixpoint SerializeJSONProperty (indent : jsstring) (v : json) : jsstring :=
  match v with
  | JNull => js "null"
  | JBool true => js "true"
  | JBool false => js "false"
  | JNumber (Some c) => c
  | JNumber None => js "null"
  | JString s => QuoteJSONString s
  | JArray [] => js "[]"
  | JArray l =>
      let stepback := indent in
      let indent := indent ++ gap in
      js "[" ++ LF ++ indent
      ++ join (js "," ++ LF ++ indent)
           (List.map (SerializeJSONProperty indent) l)
      ++ LF ++ stepback ++ js "]"
  | JObject [] => js "{}"
  | JObject m =>
      let stepback := indent in
      let indent := indent ++ gap in
      js "{" ++ LF ++ indent
      ++ join (js "," ++ LF ++ indent)
           (List.map (fun kv => QuoteJSONString kv.1 ++ js ": "
                                ++ SerializeJSONProperty indent kv.2) m)
      ++ LF ++ stepback ++ js "}"
  end.

Definition JSON_stringify (v : json) : jsstring := SerializeJSONProperty [] v.

(** ** [JSON.parse]

    A lexer that reads one code unit at a time, followed by a pushdown
    parser that reads one token at a time. *)
Inductive token :=
| TLBrace | TRBrace | TLBracket | TRBracket | TColon | TComma
| TString (s : jsstring)
| TNumber (literal : jsstring)
| TTrue | TFalse | TNull.

(** The JSON number grammar as an automaton: an optional minus sign, then
    zero or a digit sequence without leading zero, then an optional
    fraction (a dot and digits), then an optional exponent (e or E, an
    optional sign, digits). *)
Inductive numstate := NMinus | NZero | NInt | NDot | NFrac | NE | NESign | NExp.

Definition numAccepting (ns : numstate) : bool :=
  match ns with
  | NZero | NInt | NFrac | NExp => true
  | NMinus | NDot | NE | NESign => false
  end.

Definition isExponentMark (c : N) : bool := (c =? 101) || (c =? 69).

Definition numStart (c : N) : option numstate :=
  if c =? 45 then Some NMinus
  else if c =? 48 then Some NZero
  else if isDigit c then Some NInt
  else None.

Definition numStep (ns : numstate) (c : N) : option numstate :=
  match ns with
  | NMinus =>
      if c =? 48 then Some NZero else if isDigit c then Some NInt else None
  | NZero =>
      if c =? 46 then Some NDot
      else if isExponentMark c then Some NE else None
  | NInt =>
      if isDigit c then Some NInt
      else if c =? 46 then Some NDot
      else if isExponentMark c then Some NE else None
  | NDot => if isDigit c then Some NFrac else None
  | NFrac =>
      if isDigit c then Some NFrac
      else if isExponentMark c then Some NE else None
  | NE =>
      if isDigit c then Some NExp
      else if (c =? 43) || (c =? 45) then Some NESign else None
  | NESign => if isDigit c then Some NExp else None
  | NExp => if isDigit c then Some NExp else None
  end.

Fixpoint numRun (ns : numstate) (s : jsstring) : option numstate :=
  match s with
  | [] => Some ns
  | c :: r =>
      match numStep ns c with
      | Some ns' => numRun ns' r
      | None => None
      end
  end.

Definition isNumberLiteral (t : jsstring) : bool :=
  match t with
  | [] => false
  | c :: r =>
      match numStart c with
      | Some ns =>
          match numRun ns r with
          | Some ns' => numAccepting ns'
          | None => false
          end
      | None => false
      end
  end.

(** An instance for the examples: a literal is kept as it is written, so
    no rounding to a double takes place; the examples hold no numbers. *)
Definition verbatimNumbers : Numbers :=
  {| Number_of_literal := fun t => if isNumberLiteral t then Some t else None |}.

Inductive lexstate :=
| LStart
| LString (acc : jsstring)
| LEscape (acc : jsstring)
| LUnicode (acc : jsstring) (digits : list N)
| LNumber (ns : numstate) (acc : jsstring)
| LKeyword (tok : token) (c : N) (rest : jsstring).

Definition isJSONWhiteSpace (c : N) : bool :=
  (c =? 32) || (c =? 9) || (c =? 10) || (c =? 13).

Definition hexValue (c : N) : option N :=
  if isDigit c then Some (c - 48)
  else if (97 <=? c) && (c <=? 102) then Some (c - 87)
  else if (65 <=? c) && (c <=? 70) then Some (c - 55)
  else None.

(** The character a single-letter escape stands for *)
Definition unescape (c : N) : option N :=
  if c =? 34 then Some 34
  else if c =? 92 then Some 92
  else if c =? 47 then Some 47
  else if c =? 98 then Some 8
  else if c =? 102 then Some 12
  else if c =? 110 then Some 10
  else if c =? 114 then Some 13
  else if c =? 116 then Some 9
  else None.

Definition lexStart (c : N) : option (lexstate * list token) :=
  if isJSONWhiteSpace c then Some (LStart, [])
  else if c =? 123 then Some (LStart, [TLBrace])
  else if c =? 125 then Some (LStart, [TRBrace])
  else if c =? 91 then Some (LStart, [TLBracket])
  else if c =? 93 then Some (LStart, [TRBracket])
  else if c =? 58 then Some (LStart, [TColon])
  else if c =? 44 then Some (LStart, [TComma])
  else if c =? 34 then Some (LString [], [])
  else if c =? 116 then Some (LKeyword TTrue 114 (js "ue"), [])
  else if c =? 102 then Some (LKeyword TFalse 97 (js "lse"), [])
  else if c =? 110 then Some (LKeyword TNull 117 (js "ll"), [])
  else match numStart c with
       | Some ns => Some (LNumber ns [c], [])
       | None => None
       end.

(** Accumulators hold the text read so far in reverse. *)
Definition lexStep (st : lexstate) (c : N) : option (lexstate * list token) :=
  match st with
  | LStart => lexStart c
  | LString acc =>
      if c =? 34 then Some (LStart, [TString (rev acc)])
      else if c =? 92 then Some (LEscape acc, [])
      else if c <? 32 then None
      else Some (LString (c :: acc), [])
  | LEscape acc =>
      if c =? 117 then Some (LUnicode acc [], [])
      else match unescape c with
           | Some x => Some (LString (x :: acc), [])
           | None => None
           end
  | LUnicode acc digits =>
      match hexValue c with
      | Some d =>
          match digits with
          | [d1; d2; d3] =>
              Some (LString (4096 * d1 + 256 * d2 + 16 * d3 + d :: acc), [])
          | _ => Some (LUnicode acc (digits ++ [d]), [])
          end
      | None => None
      end
  | LNumber ns acc =>
      match numStep ns c with
      | Some ns' => Some (LNumber ns' (c :: acc), [])
      | None =>
          if numAccepting ns then
            match lexStart c with
            | Some (st', toks) => Some (st', TNumber (rev acc) :: toks)
            | None => None
            end
          else None
      end
  | LKeyword tok x rest =>
      if c =? x then
        match rest with
        | [] => Some (LStart, [tok])
        | y :: rest' => Some (LKeyword tok y rest', [])
        end
      else None
  end.

Definition lexEnd (st : lexstate) : option (list token) :=
  match st with
  | LStart => Some []
  | LNumber ns acc =>
      if numAccepting ns then Some [TNumber (rev acc)] else None
  | _ => None
  end.

Fixpoint lexFrom (st : lexstate) (s : jsstring) : option (list token) :=
  match s with
  | [] => lexEnd st
  | c :: r =>
      match lexStep st c with
      | Some (st', toks) =>
          match lexFrom st' r with
          | Some rest => Some (toks ++ rest)
          | None => None
          end
      | None => None
      end
  end.

(** The parser's stack: the enclosing arrays (elements read so far, in
    reverse) and objects (members read so far, and the key whose value is
    being read). *)
Inductive frame :=
| FArray (elements : list json)
| FObject (members : list (jsstring * json)) (key : jsstring).

Inductive parsestate :=
| PValue (stack : list frame)
| PArrayStart (stack : list frame)
| PObjectStart (stack : list frame)
| PKey (members : list (jsstring * json)) (stack : list frame)
| PColon (members : list (jsstring * json)) (key : jsstring)
    (stack : list frame)
| PAfter (v : json) (stack : list frame).

Section Parse.
Context `{Numbers}.

Definition parseValue (stack : list frame) (tok : token)
  : option parsestate :=
  match tok with
  | TNull => Some (PAfter JNull stack)
  | TTrue => Some (PAfter (JBool true) stack)
  | TFalse => Some (PAfter (JBool false) stack)
  | TString s => Some (PAfter (JString s) stack)
  | TNumber t => Some (PAfter (JNumber (Number_of_literal t)) stack)
  | TLBracket => Some (PArrayStart stack)
  | TLBrace => Some (PObjectStart stack)
  | TRBrace | TRBracket | TColon | TComma => None
  end.

Definition parseStep (st : parsestate) (tok : token) : option parsestate :=
  match st with
  | PValue stack => parseValue stack tok
  | PArrayStart stack =>
      match tok with
      | TRBracket => Some (PAfter (JArray []) stack)
      | _ => parseValue (FArray [] :: stack) tok
      end
  | PObjectStart stack =>
      match tok with
      | TRBrace => Some (PAfter (JObject []) stack)
      | TString k => Some (PColon [] k stack)
      | _ => None
      end
  | PKey members stack =>
      match tok with
      | TString k => Some (PColon members k stack)
      | _ => None
      end
  | PColon members k stack =>
      match tok with
      | TColon => Some (PValue (FObject members k :: stack))
      | _ => None
      end
  | PAfter v [] => None
  | PAfter v (FArray elements :: stack) =>
      match tok with
      | TComma => Some (PValue (FArray (v :: elements) :: stack))
      | TRBracket => Some (PAfter (JArray (rev (v :: elements))) stack)
      | _ => None
      end
  | PAfter v (FObject members k :: stack) =>
      match tok with
      | TComma => Some (PKey (setKey k v members) stack)
      | TRBrace => Some (PAfter (JObject (setKey k v members)) stack)
      | _ => None
      end
  end.

Fixpoint parseFrom (st : parsestate) (toks : list token) : option json :=
  match toks with
  | [] =>
      match st with
      | PAfter v [] => Some v
      | _ => None
      end
  | tok :: rest =>
      match parseStep st tok with
      | Some st' => parseFrom st' rest
      | None => None
      end
  end.

(** [JSON.parse(text)]; [None] is a thrown [SyntaxError]. *)
Definition JSON_parse (text : jsstring) : option json :=
  match lexFrom LStart text with
  | Some toks => parseFrom (PValue []) toks
  | None => None
  end.
End Parse.

(** ** The generator's data *)

Inductive Phase := pre | post.

(** [Command & { phase: 'pre' | 'post' }] *)
Record Command := {
  name : jsstring;
  command : jsstring;
  phase : Phase;
}.

Inductive Language := JavaScript | TypeScript.

Inductive Framework := react | react17 | vue | vue2 | svelte | solid.

Definition frameworkName (f : Framework) : jsstring :=
  match f with
  | react => js "react"
  | react17 => js "react17"
  | vue => js "vue"
  | vue2 => js "vue2"
  | svelte => js "svelte"
  | solid => js "solid"
  end.

(** [PromptOptions], the answers of the prompt collaborator *)
Record PromptOptions := {
  testDir : jsstring;
  installGitHubActions : bool;
  language : Language;
  framework : option Framework;
  installPlaywrightDependencies : bool;
  installPlaywrightBrowsers : bool;
}.

(** [Partial<Record<CliArgumentKey, string[]>>]: a key is absent ([None])
    or holds an array, which is truthy even when empty. *)
Record CliOptions := {
  browser : option (list jsstring);
  no_browsers : option (list jsstring);
  no_examples : option (list jsstring);
  next : option (list jsstring);
  beta : option (list jsstring);
  ct : option (list jsstring);
  quiet : option (list jsstring);
  gha : option (list jsstring);
  install_deps : option (list jsstring);
  lang : option (list jsstring);
}.

Inductive SectionState := show | hide | comment.

(** Truthiness of an option key: [!!this.options.key] *)
Definition given {A} (o : option A) : bool :=
  match o with
  | Some _ => true
  | None => false
  end.

(** [map.set(k, v)] on a JavaScript [Map]: a present key keeps its place. *)
Definition Map_set {V} (k : jsstring) (v : V) (m : list (jsstring * V))
  : list (jsstring * V) :=
  match lookupKey k m with
  | Some _ => replaceKey k v m
  | None => m ++ [(k, v)]
  end.

(** [array.includes(s)] for a string [s] *)
Definition Array_includes (l : list jsstring) (s : jsstring) : bool :=
  existsb (fun x => bool_decide (x = s)) l.

(** ** Collaborators

    [packageManager.ts], [utils.ts] and the template assets are outside
    the engine; the generator sees them through these interfaces. *)
Module PackageManager.
Class t := {
  name : jsstring;
  cli : jsstring;
  init : jsstring;
  npx : jsstring -> jsstring -> jsstring;
  ci : jsstring;
  i : jsstring;
  installDevDependency : jsstring -> jsstring;
  runPlaywrightTest : option jsstring -> jsstring;
  run : jsstring -> jsstring;
}.
End PackageManager.

(** The pure helpers imported from [./utils] *)
Class Utils := {
  executeTemplate :
    jsstring -> list (jsstring * jsstring) -> list (jsstring * SectionState)
    -> jsstring;
  languageToFileExtension : Language -> jsstring;
  getFileExtensionCT : Language -> option Framework -> jsstring;
}.

(** The host: [path.join], the asset directory, the [ini] reading of
    [.npmrc] (whether [ini.parse(text)['package-lock'] === false]), the outcome
    of a shell command on the project directory ([None] when it fails),
    and the answer to the overwrite prompt. *)
Class Host := {
  path_join : jsstring -> jsstring -> jsstring;
  readAsset : jsstring -> jsstring;
  npmrcDisablesPackageLock : jsstring -> bool;
  execSync : jsstring -> gmap jsstring jsstring -> option (gmap jsstring jsstring);
  confirmOverride : jsstring -> bool;
}.

(** ** The world: the project directory and what happened to it *)

Inductive Event :=
| Executed (c : Command)
| Written (path content : jsstring).

Record World := {
  disk : gmap jsstring jsstring;
  events : list Event;
}.

Inductive Error := ENOENT | SyntaxError | TypeError | CommandFailed.

Inductive result (A : Type) :=
| Ok (a : A)
| Throw (e : Error).
Arguments Ok {A} a.
Arguments Throw {A} e.

#[global] Instance result_ret : MRet result := fun A a => Ok a.
#[global] Instance result_bind : MBind result := fun A B f m =>
  match m with
  | Ok a => f a
  | Throw e => Throw e
  end.

(** [try { body } catch (e) { return handler }] *)
Definition tryCatch {A} (body : result A) (handler : A) : A :=
  match body with
  | Ok a => a
  | Throw _ => handler
  end.

Definition orThrow {A} (e : Error) (o : option A) : result A :=
  match o with
  | Some a => Ok a
  | None => Throw e
  end.

(** Computations that read and change the world and may throw *)
Definition M (A : Type) : Type := World -> result A * World.

#[global] Instance M_ret : MRet M := fun A a w => (Ok a, w).
#[global] Instance M_bind : MBind M := fun A B f m w =>
  match m w with
  | (Ok a, w') => f a w'
  | (Throw e, w') => (Throw e, w')
  end.

Definition lift {A} (r : result A) : M A := fun w => (r, w).

Definition log (e : Event) : M unit := fun w =>
  (Ok tt, {| disk := disk w; events := events w ++ [e] |}).

Definition existsSync (path : jsstring) : M bool := fun w =>
  (Ok (given (disk w !! path)), w).

Definition readFileSync (path : jsstring) : M jsstring := fun w =>
  (orThrow ENOENT (disk w !! path), w).

Definition writeFileSync (path content : jsstring) : M unit := fun w =>
  (Ok tt, {| disk := <[path := content]> (disk w);
             events := events w ++ [Written path content] |}).

Section Generator.
Context `{PackageManager.t} `{Utils} `{Host} `{Numbers}.

(** [this.options] *)
Variable options : CliOptions.

(** Modelled from the spec: [executeCommands] of [utils.ts] is not among
    the sources.  Shell commands are blocking and run one after the
    other; any command failure aborts the remaining plan. *)
Fixpoint executeCommands (commands : list Command) : M unit :=
  match commands with
  | [] => mret tt
  | c :: rest =>
      log (Executed c);;
      (fun w =>
         match execSync (command c) (disk w) with
         | Some d => (Ok tt, {| disk := d; events := events w |})
         | None => (Throw CommandFailed, w)
         end);;
      executeCommands rest
  end.

(** Modelled from the spec: [createFiles] of [utils.ts] is not among the
    sources.  Every path not yet present is written verbatim; a path
    that is present is overwritten when the caller forces it (the third
    argument) or the user agrees, and left alone otherwise. *)
Fixpoint createFiles (files : list (jsstring * jsstring)) (force : bool)
  : M unit :=
  match files with
  | [] => mret tt
  | (relativeFilePath, value) :: rest =>
      present ← existsSync relativeFilePath;
      (if present && negb force && negb (confirmOverride relativeFilePath)
       then mret tt
       else writeFileSync relativeFilePath value);;
      createFiles rest force
  end.

(** [v.k] for a parsed value: reading a property of [null] throws. *)
Definition member (v : json) (k : jsstring) : result (option json) :=
  match v with
  | JNull => Throw TypeError
  | _ => Ok (getProperty v k)
  end.

(** [v?.[k]] *)
Definition optionalMember (v : option json) (k : jsstring) : option json :=
  match v with
  | None | Some JNull => None
  | Some d => getProperty d k
  end.

Definition truthyValue (v : option json) : bool :=
  match v with
  | Some x => truthy x
  | None => false
  end.

(** [_hasDependency(pkg)], as the truth value its caller tests *)
Definition _hasDependency (files : gmap jsstring jsstring) (pkg : jsstring)
  : bool :=
  tryCatch
    (content ← orThrow ENOENT (files !! js "package.json");
     packageJSON ← orThrow SyntaxError (JSON_parse content);
     dependencies ← member packageJSON (js "dependencies");
     devDependencies ← member packageJSON (js "devDependencies");
     optionalDependencies ← member packageJSON (js "optionalDependencies");
     mret (truthyValue (optionalMember dependencies pkg)
           || truthyValue (optionalMember devDependencies pkg)
           || truthyValue (optionalMember optionalDependencies pkg)))
    false.

(** The section directives: one entry per browser *)
Definition browserSections : list (jsstring * SectionState) :=
  fold_left (fun sections browserName =>
    Map_set browserName
      (match browser options with
       | None => show
       | Some selected =>
           if Array_includes selected browserName then show else comment
       end) sections)
    [js "chromium"; js "firefox"; js "webkit"] [].

Definition packageTag : jsstring :=
  let packageTag := [] in
  let packageTag := if given (beta options) then js "@beta" else packageTag in
  let packageTag := if given (next options) then js "@next" else packageTag in
  packageTag.

(** String interpolation of a variable that may be [undefined] *)
Definition interpolate (s : option jsstring) : jsstring :=
  match s with
  | Some s => s
  | None => js "undefined"
  end.

(** [_identifyChanges(answers)]; it only reads the project directory.
    The result is the pair [(files, commands)]. *)
Definition _identifyChanges (project : gmap jsstring jsstring)
  (answers : PromptOptions)
  : list (jsstring * jsstring) * list Command :=
  let commands : list Command := [] in
  let files : list (jsstring * jsstring) := [] in
  let fileExtension := languageToFileExtension (language answers) in
  let sections := browserSections in
  let ctPackageName :=
    match framework answers with
    | Some f => Some (js "@playwright/experimental-ct-" ++ frameworkName f)
    | None => None
    end in
  let installExamples :=
    match framework answers with
    | Some _ => false
    | None => negb (given (no_examples options))
    end in
  let files :=
    match framework answers with
    | Some _ =>
        Map_set (js "playwright-ct.config." ++ fileExtension)
          (executeTemplate
             (readAsset (js "playwright-ct.config." ++ fileExtension))
             [(js "testDir", testDir answers);
              (js "ctPackageName", interpolate ctPackageName)]
             sections) files
    | None =>
        Map_set (js "playwright.config." ++ fileExtension)
          (executeTemplate
             (readAsset (js "playwright.config." ++ fileExtension))
             [(js "testDir", testDir answers)] sections) files
    end in
  let files :=
    if installGitHubActions answers then
      let packageLockDisabled :=
        match project !! js ".npmrc" with
        | Some npmrc => npmrcDisablesPackageLock npmrc
        | None => false
        end in
      let githubActionsScript :=
        executeTemplate (readAsset (js "github-actions.yml"))
          [(js "installDepsCommand",
             if packageLockDisabled
             then PackageManager.i else PackageManager.ci);
           (js "installPlaywrightCommand",
             PackageManager.npx (js "playwright") (js "install --with-deps"));
           (js "runTestsCommand",
             match framework answers with
             | Some _ => PackageManager.run (js "test-ct")
             | None => PackageManager.runPlaywrightTest None
             end)] [] in
      Map_set (js ".github/workflows/playwright.yml") githubActionsScript
        files
    else files in
  let files :=
    if installExamples then
      let files :=
        Map_set (path_join (testDir answers)
                   (js "example.spec." ++ fileExtension))
          (readAsset (js "example.spec." ++ fileExtension)) files in
      Map_set (path_join (js "tests-examples")
                 (js "demo-todo-app.spec." ++ fileExtension))
        (readAsset (js "demo-todo-app.spec." ++ fileExtension)) files
    else files in
  let commands :=
    if negb (given (project !! js "package.json")) then
      commands ++ [ {| name := js "Initializing " ++ PackageManager.name
                               ++ js " project";
                       command := PackageManager.init;
                       phase := pre |} ]
    else commands in
  let commands :=
    if negb (given (ct options)) then
      commands
      ++ [ {| name := js "Installing Playwright Test";
              command := PackageManager.installDevDependency
                           (js "@playwright/test" ++ packageTag);
              phase := pre |} ]
      ++ [ {| name := js "Installing dotenv";
              command := PackageManager.installDevDependency (js "dotenv");
              phase := pre |} ]
      ++ [ {| name := js "Installing dxp/playwright-tools";
              command := PackageManager.installDevDependency
                           (js "@dxp/playwright-tools" ++ packageTag);
              phase := pre |} ]
    else commands in
  let '(files, commands) :=
    if given (ct options) then
      let commands :=
        commands
        ++ [ {| name := js "Installing Playwright Component Testing";
                command := PackageManager.installDevDependency
                             (interpolate ctPackageName ++ packageTag);
                phase := pre |} ] in
      let extension :=
        getFileExtensionCT (language answers) (framework answers) in
      let htmlTemplate :=
        executeTemplate
          (readAsset (path_join (js "playwright") (js "index.html")))
          [(js "extension", extension)] [] in
      let files := Map_set (js "playwright/index.html") htmlTemplate files in
      let jsTemplate :=
        readAsset (path_join (js "playwright") (js "index.js")) in
      let files :=
        Map_set (js "playwright/index." ++ extension) jsTemplate files in
      (files, commands)
    else (files, commands) in
  let commands :=
    if negb (_hasDependency project (js "@types/node")) then
      commands ++ [ {| name := js "Installing Types";
                       command := PackageManager.installDevDependency
                                    (js "@types/node");
                       phase := pre |} ]
    else commands in
  let browsersSuffix :=
    match browser options with
    | Some selected => js " " ++ join (js " ") selected
    | None => []
    end in
  let commands :=
    if installPlaywrightBrowsers answers then
      commands
      ++ [ {| name := js "Downloading browsers";
              command := PackageManager.npx (js "playwright") (js "install")
                         ++ (if installPlaywrightDependencies answers
                             then js " --with-deps" else [])
                         ++ browsersSuffix;
              phase := post |} ]
    else commands in
  (files, commands).

(** [_patchGitIgnore()] *)
Definition _patchGitIgnore : M unit :=
  let gitIgnorePath := js ".gitignore" in
  present ← existsSync gitIgnorePath;
  existing ← (if present : bool
              then content ← readFileSync gitIgnorePath; mret (Some content)
              else mret None);
  writeFileSync gitIgnorePath (patchedGitIgnore existing).

Definition noTestSpecified : jsstring := js "no test specified".

(** The script [_patchPackageJSON] registers *)
Definition testCtScript (extension : jsstring) : jsstring :=
  js "playwright test -c playwright-ct.config." ++ extension.

(** [test?.includes('no test specified')] for the value of
    [scripts['test']]: a substring test on a string, an element test on
    an array, nothing on [undefined] and [null]; any other value has no
    callable [includes]. *)
Definition includesNoTestSpecified (test : option json) : result bool :=
  match test with
  | None | Some JNull => Ok false
  | Some (JString s) => Ok (String_includes s noTestSpecified)
  | Some (JArray l) =>
      Ok (existsb (fun v =>
            match v with
            | JString s => bool_decide (s = noTestSpecified)
            | _ => false
            end) l)
  | Some (JBool _) | Some (JNumber _) | Some (JObject _) => Throw TypeError
  end.

(** Lines 314 to 319 for the value [scripts] that [packageJSON.scripts]
    refers to; it is truthy.  Only an object has a [test] property to
    delete; a property set on an array is not an element and is never
    serialized; setting a property on a primitive throws (module code is
    strict). *)
Definition patchScriptsValue (answers : PromptOptions) (scripts : json)
  : result json :=
  match scripts with
  | JObject s =>
      remove ← includesNoTestSpecified (lookupKey (js "test") s);
      let s := if remove : bool then deleteKey (js "test") s else s in
      let extension := languageToFileExtension (language answers) in
      let s :=
        match framework answers with
        | Some _ => setKey (js "test-ct") (JString (testCtScript extension)) s
        | None => s
        end in
      Ok (JObject s)
  | JArray _ => Ok scripts
  | _ =>
      match framework answers with
      | Some _ => Throw TypeError
      | None => Ok scripts
      end
  end.

(** Lines 312 to 319 on the parsed manifest.  Reading [scripts] off
    [null] throws, and so does creating it on a primitive; on an array
    the scripts live in a property that is never serialized. *)
Definition patchManifest (answers : PromptOptions) (packageJSON : json)
  : result json :=
  match packageJSON with
  | JObject members =>
      let scripts :=
        match lookupKey (js "scripts") members with
        | Some scripts => if truthy scripts then scripts else JObject []
        | None => JObject []
        end in
      scripts ← patchScriptsValue answers scripts;
      Ok (JObject (setKey (js "scripts") scripts members))
  | JArray _ => Ok packageJSON
  | JNull | JBool _ | JNumber _ | JString _ => Throw TypeError
  end.

(** The text [_patchPackageJSON] writes for the text it reads *)
Definition patchedPackageJSON (answers : PromptOptions) (content : jsstring)
  : result jsstring :=
  packageJSON ← orThrow SyntaxError (JSON_parse content);
  packageJSON ← patchManifest answers packageJSON;
  mret (JSON_stringify packageJSON ++ LF).

(** [_patchPackageJSON(answers)] *)
Definition _patchPackageJSON (answers : PromptOptions) : M unit :=
  content ← readFileSync (js "package.json");
  text ← lift (patchedPackageJSON answers content);
  createFiles [(js "package.json", text)] true.

(** The [reduce] of [run] that splits the plan by phase *)
Definition splitByPhase (allCommands : list Command)
  : list Command * list Command :=
  fold_left (fun acc command =>
    match phase command with
    | pre => (acc.1 ++ [command], acc.2)
    | post => (acc.1, acc.2 ++ [command])
    end) allCommands ([], []).

(** [run()] from line 61 on, for the [files] and [commands] that
    [_identifyChanges] returned *)
Definition applyChanges (answers : PromptOptions)
  (files : list (jsstring * jsstring)) (allCommands : list Command)
  : M unit :=
  let '(preCommands, postCommands) := splitByPhase allCommands in
  executeCommands preCommands;;
  createFiles files false;;
  _patchGitIgnore;;
  _patchPackageJSON answers;;
  executeCommands postCommands.

(** [run()], for the answers [_askQuestions] returned; console output is
    left out. *)
Definition run (answers : PromptOptions) : M unit := fun w =>
  let '(files, allCommands) := _identifyChanges (disk w) answers in
  applyChanges answers files allCommands w.
End Generator.

(** ** Collaborators for the examples

    The commands are spelled the way npm spells them, templates are
    copied without rendering, every shell command succeeds and leaves the
    project directory as it is, and the user declines to overwrite. *)
Definition npm : PackageManager.t := {|
  PackageManager.name := js "NPM";
  PackageManager.cli := js "npm";
  PackageManager.init := js "npm init -y";
  PackageManager.npx := fun command args =>
    js "npx " ++ command ++ js " " ++ args;
  PackageManager.ci := js "npm ci";
  PackageManager.i := js "npm i";
  PackageManager.installDevDependency := fun pkg =>
    js "npm install --save-dev " ++ pkg;
  PackageManager.runPlaywrightTest := fun args =>
    js "npx playwright test"
    ++ match args with
       | Some a => js " " ++ a
       | None => []
       end;
  PackageManager.run := fun script => js "npm run " ++ script;
|}.

Definition plainUtils : Utils := {|
  executeTemplate := fun template _ _ => template;
  languageToFileExtension := fun l =>
    match l with
    | JavaScript => js "js"
    | TypeScript => js "ts"
    end;
  getFileExtensionCT := fun l _ =>
    match l with
    | JavaScript => js "jsx"
    | TypeScript => js "tsx"
    end;
|}.

Definition quietHost : Host := {|
  path_join := fun a b => a ++ js "/" ++ b;
  readAsset := fun _ => [];
  npmrcDisablesPackageLock := fun _ => false;
  execSync := fun _ d => Some d;
  confirmOverride := fun _ => false;
|}.

Definition noOptions : CliOptions := {|
  browser := None; no_browsers := None; no_examples := None; next := None;
  beta := None; ct := None; quiet := None; gha := None;
  install_deps := None; lang := None;
|}.

Definition emptyWorld : World := {| disk := ∅; events := [] |}.

Definition exampleAnswers (f : option Framework) : PromptOptions := {|
  testDir := js "tests";
  installGitHubActions := false;
  language := TypeScript;
  framework := f;
  installPlaywrightDependencies := false;
  installPlaywrightBrowsers := true;
|}.

(** The double quote and the backslash *)
Definition quot : jsstring := [34].
Definition backslash : jsstring := [92].

(** The script [npm init] registers, and the text of a manifest that holds
    nothing but it *)
Definition placeholderTest : jsstring :=
  js "echo " ++ quot ++ js "Error: no test specified" ++ quot
  ++ js " && exit 1".

Definition placeholderManifest : jsstring :=
  js "{" ++ quot ++ js "scripts" ++ quot ++ js ":{"
  ++ quot ++ js "test" ++ quot ++ js ":"
  ++ quot ++ js "echo " ++ backslash ++ quot ++ js "Error: no test specified"
  ++ backslash ++ quot ++ js " && exit 1" ++ quot ++ js "}}".

(** ** Vocabulary of the JSON round trip *)

(** Running the lexer over a piece of text *)
Fixpoint lexRun (st : lexstate) (s : jsstring)
  : option (lexstate * list token) :=
  match s with
  | [] => Some (st, [])
  | c :: r =>
      match lexStep st c with
      | Some (st', toks) =>
          match lexRun st' r with
          | Some (st'', toks') => Some (st'', toks ++ toks')
          | None => None
          end
      | None => None
      end
  end.

(** A character that may continue a number literal *)
Definition isNumberChar (c : N) : bool :=
  isDigit c || (c =? 46) || (c =? 101) || (c =? 69) || (c =? 43) || (c =? 45).

(** The text is over, or goes on with a character that ends a number. *)
Definition delimited (rest : jsstring) : Prop :=
  match rest with
  | [] => True
  | c :: _ => isNumberChar c = false
  end.

(** The piece [s] is read as the tokens [toks], whatever follows. *)
Definition lexesTo (s : jsstring) (toks : list token) : Prop :=
  forall rest toks',
    delimited rest -> lexFrom LStart rest = Some toks' ->
    lexFrom LStart (s ++ rest) = Some (toks ++ toks').

(** The piece [s] is read as [toks] from and to the state between tokens. *)
Definition lexClosed (s : jsstring) (toks : list token) : Prop :=
  lexRun LStart s = Some (LStart, toks).

(** The tokens of the text [JSON.stringify] prints for a value: an
    infinity is printed as [null]. *)
Fixpoint tokens (v : json) : list token :=
  match v with
  | JNull => [TNull]
  | JBool true => [TTrue]
  | JBool false => [TFalse]
  | JNumber (Some c) => [TNumber c]
  | JNumber None => [TNull]
  | JString s => [TString s]
  | JArray [] => [TLBracket; TRBracket]
  | JArray l => [TLBracket] ++ join [TComma] (List.map tokens l) ++ [TRBracket]
  | JObject [] => [TLBrace; TRBrace]
  | JObject m =>
      [TLBrace]
      ++ join [TComma]
           (List.map (fun kv => [TString kv.1; TColon] ++ tokens kv.2) m)
      ++ [TRBrace]
  end.

(** What a value reads back as after being printed *)
Fixpoint norm (v : json) : json :=
  match v with
  | JNumber None => JNull
  | JArray l => JArray (List.map norm l)
  | JObject m => JObject (List.map (fun kv => (kv.1, norm kv.2)) m)
  | _ => v
  end.

(** [k] comes before [k'] in property order. *)
Definition keyBefore (k k' : jsstring) : bool :=
  negb (bool_decide (k = k'))
  && match arrayIndex k, arrayIndex k' with
     | Some i, Some j => i <? j
     | Some _, None => true
     | None, Some _ => false
     | None, None => true
     end.

(** Distinct keys, array indices first and ascending *)
Fixpoint keysOrdered (ks : list jsstring) : bool :=
  match ks with
  | [] => true
  | k :: r => forallb (keyBefore k) r && keysOrdered r
  end.

Section WellFormed.
Context `{Numbers}.

(** A value as [JSON.parse] builds it: finite numbers carry the text that
    reads back as themselves, object keys are in property order. *)
Fixpoint wellFormed (v : json) : bool :=
  match v with
  | JNumber (Some c) =>
      isNumberLiteral c && bool_decide (Number_of_literal c = Some c)
  | JArray l => forallb wellFormed l
  | JObject m =>
      keysOrdered (List.map fst m)
      && forallb (fun kv => wellFormed kv.2) m
  | _ => true
  end.

(** What is assumed of the reading of number literals: the text printed
    for a finite number is a number literal and reads back as that
    number ([Number::toString] round-trips). *)
Class CanonicalNumbers : Prop :=
  canonical_number : forall t c,
    Number_of_literal t = Some c ->
    isNumberLiteral c = true /\ Number_of_literal c = Some c.
End WellFormed.

(** Running the parser over some tokens *)
Fixpoint parseRun `{Numbers} (st : parsestate) (toks : list token)
  : option parsestate :=
  match toks with
  | [] => Some st
  | tok :: rest =>
      match parseStep st tok with
      | Some st' => parseRun st' rest
      | None => None
      end
  end.

Definition blank (s : jsstring) : Prop :=
  Forall (fun c => isJSONWhiteSpace c = true) s.

Definition wfMembers `{Numbers} (m : list (jsstring * json)) : bool :=
  keysOrdered (List.map fst m) && forallb (fun kv => wellFormed kv.2) m.

Definition wfFrame `{Numbers} (f : frame) : bool :=
  match f with
  | FArray elements => forallb wellFormed elements
  | FObject members _ => wfMembers members
  end.

Definition wfState `{Numbers} (st : parsestate) : bool :=
  match st with
  | PValue stack | PArrayStart stack | PObjectStart stack =>
      forallb wfFrame stack
  | PKey members stack | PColon members _ stack =>
      wfMembers members && forallb wfFrame stack
  | PAfter v stack => wellFormed v && forallb wfFrame stack
  end.

Definition normMember (kv : jsstring * json) : jsstring * json :=
  (kv.1, norm kv.2).

Definition memberTokens (kv : jsstring * json) : list token :=
  [TString kv.1; TColon] ++ tokens kv.2.

(** What the induction gives for the parts of a value *)
Definition readsBack `{Numbers} (v : json) : Prop :=
  forall stack,
    parseRun (PValue stack) (tokens v) = Some (PAfter (norm v) stack).

(** ** Vocabulary of the manifest patch *)

(** The manifest's [scripts] entry is not a number that overflowed. *)
Definition finiteScripts (doc : json) : Prop :=
  getProperty doc (js "scripts") <> Some (JNumber None).

(** The value [packageJSON.scripts] refers to after line 313 *)
Definition scriptsOf (members : list (jsstring * json)) : json :=
  match lookupKey (js "scripts") members with
  | Some scripts => if truthy scripts then scripts else JObject []
  | None => JObject []
  end.

Definition isString (v : json) : bool :=
  match v with
  | JString _ => true
  | _ => false
  end.

(** A manifest is a key-value document whose [scripts] entry, when
    present, is a map from script names to command strings. *)
Definition isManifest (doc : json) : bool :=
  match doc with
  | JObject members =>
      match lookupKey (js "scripts") members with
      | None => true
      | Some (JObject scripts) => forallb (fun kv => isString kv.2) scripts
      | Some _ => false
      end
  | _ => false
  end.

(** ** Vocabulary of the [.gitignore] patch *)

Definition atom_ok (a : atom) : bool :=
  match a with
  | Chr c | Opt c => negb (isLineTerminator c)
  | Eol => true
  end.

Definition lineEnded (g : jsstring) : Prop := exists h, g = h ++ LF.

(** What the loop needs from an entry: its pattern has no line terminator
    and no empty match, it recognises its own literal on a line, and the
    literal ends in a character [trimEnd] keeps. *)
Definition entry_ok (e : jsstring * regex) : bool :=
  forallb atom_ok e.2 && negb (matchHere e.2 []) && matchHere e.2 (e.1 ++ LF)
  && match rev e.1 with
     | c :: _ => negb (isTrimmed c)
     | [] => false
     end.

Definition allMatch (g : jsstring) (es : list (jsstring * regex)) : Prop :=
  Forall (fun e => String_match g e.2 = true) es.

(** Text was appended whose last line ends in a kept character. *)
Definition appended (g g' : jsstring) : Prop :=
  exists h c, g' = g ++ h ++ [c] ++ LF /\ isTrimmed c = false.

(** [content] has a line that begins with the text [l]. *)
Definition startsLine (l content : jsstring) : Prop :=
  exists before after,
    content = before ++ l ++ after
    /\ (before = []
        \/ exists b t, before = b ++ [t] /\ isLineTerminator t = true).

(** ** Vocabulary of the plan and the run *)

Definition isPre (c : Command) : bool :=
  match phase c with
  | pre => true
  | post => false
  end.

Definition isPost (c : Command) : bool := negb (isPre c).

(** The condition under which a browser section is shown *)
Definition browserSelected (options : CliOptions) (browserName : jsstring)
  : bool :=
  match browser options with
  | None => true
  | Some selected => Array_includes selected browserName
  end.

Section PlanVocabulary.
Context `{PackageManager.t}.
Variable options : CliOptions.

(** The plan holds a pre-phase installation of [pkg] at the selected tag. *)
Definition installsTagged (pkg : jsstring) (commands : list Command) : Prop :=
  exists c, In c commands /\ phase c = pre
    /\ command c
       = PackageManager.installDevDependency (pkg ++ packageTag options).

Definition downloadBrowsers (answers : PromptOptions) : Command :=
  {| name := js "Downloading browsers";
     command :=
       PackageManager.npx (js "playwright") (js "install")
       ++ (if installPlaywrightDependencies answers
           then js " --with-deps" else [])
       ++ match browser options with
          | Some selected => js " " ++ join (js " ") selected
          | None => []
          end;
     phase := post |}.
End PlanVocabulary.

Definition isOk {A} (r : result A) : Prop :=
  match r with
  | Ok _ => True
  | Throw _ => False
  end.

(** [m], started in [w], appends to the record of events a prefix of
    [planned], and all of it if it returns normally. *)
Definition traces {A} (m : M A) (w : World) (planned : list Event) : Prop :=
  (exists done, events (m w).2 = events w ++ done /\ done `prefix_of` planned)
  /\ (isOk (m w).1 -> events (m w).2 = events w ++ planned).

(** A write of one of the planned files *)
Definition writesOneOf (files : list (jsstring * jsstring)) (e : Event)
  : Prop :=
  exists path content, e = Written path content /\ In (path, content) files.

Definition plannedEvents (allCommands : list Command) (writes : list Event)
  (gitIgnore manifest : jsstring) : list Event :=
  List.map Executed (filter (fun c => isPre c = true) allCommands)
  ++ writes
  ++ [Written (js ".gitignore") gitIgnore]
  ++ [Written (js "package.json") manifest]
  ++ List.map Executed (filter (fun c => isPost c = true) allCommands).

(** A project whose manifest is the text of one opening brace *)
Definition corruptProject : World :=
  {| disk := {[ js "package.json" := js "{" ]}; events := [] |}.

(** ** Vocabulary of a run that completes *)

(** Object keys are in property order at every level, as in any value
    that [JSON.parse] builds. *)
Fixpoint keyed (v : json) : bool :=
  match v with
  | JArray l => forallb keyed l
  | JObject m =>
      keysOrdered (List.map fst m) && forallb (fun kv => keyed kv.2) m
  | _ => true
  end.

Definition keyedMembers (m : list (jsstring * json)) : bool :=
  keysOrdered (List.map fst m) && forallb (fun kv => keyed kv.2) m.

Definition keyedFrame (f : frame) : bool :=
  match f with
  | FArray elements => forallb keyed elements
  | FObject members _ => keyedMembers members
  end.

Definition keyedState (st : parsestate) : bool :=
  match st with
  | PValue stack | PArrayStart stack | PObjectStart stack =>
      forallb keyedFrame stack
  | PKey members stack | PColon members _ stack =>
      keyedMembers members && forallb keyedFrame stack
  | PAfter v stack => keyed v && forallb keyedFrame stack
  end.

(** The scripts of a manifest: those of its [scripts] object, none when
    it has none *)
Definition scriptsIn (members : list (jsstring * json))
  : list (jsstring * json) :=
  match lookupKey (js "scripts") members with
  | Some (JObject scripts) => scripts
  | _ => []
  end.

(** The [test] script is one that [npm init] left: its command contains
    the text [no test specified]. *)
Definition isPlaceholder (test : option json) : bool :=
  match test with
  | Some (JString cmd) => String_includes cmd noTestSpecified
  | _ => false
  end.

Section Completion.
Context `{Host} `{Numbers}.

(** The project directory holds a manifest. *)
Definition holdsManifest (d : gmap jsstring jsstring) : Prop :=
  exists content doc,
    d !! js "package.json" = Some content
    /\ JSON_parse content = Some doc
    /\ isManifest doc = true.

(** The shell command succeeds whatever the state of the project. *)
Definition succeeds (c : Command) : Prop :=
  forall d, exists d', execSync (command c) d = Some d'.

(** It does not take the manifest away. *)
Definition keepsManifest (c : Command) : Prop :=
  forall d d',
    execSync (command c) d = Some d' -> holdsManifest d -> holdsManifest d'.

(** It leaves a manifest behind, as the initialisation of a project does. *)
Definition createsManifest (c : Command) : Prop :=
  forall d d', execSync (command c) d = Some d' -> holdsManifest d'.
End Completion.

(** A host on which the initialisation of a project creates the manifest
    [{}] and every other command succeeds without touching a file *)
Definition freshHost : Host := {|
  path_join := fun a b => a ++ js "/" ++ b;
  readAsset := fun _ => [];
  npmrcDisablesPackageLock := fun _ => false;
  execSync := fun cmd d =>
    if bool_decide (cmd = js "npm init -y")
    then Some (<[js "package.json" := js "{}"]> d)
    else Some d;
  confirmOverride := fun _ => false;
|}.

(** The text of a manifest with a name, the placeholder test and a build
    script, and a development dependency *)
Definition sampleManifest : jsstring :=
  js "{" ++ quot ++ js "name" ++ quot ++ js ":" ++ quot ++ js "app" ++ quot
  ++ js "," ++ quot ++ js "scripts" ++ quot ++ js ":{"
  ++ quot ++ js "test" ++ quot ++ js ":"
  ++ quot ++ js "echo " ++ backslash ++ quot ++ js "Error: no test specified"
  ++ backslash ++ quot ++ js " && exit 1" ++ quot
  ++ js "," ++ quot ++ js "build" ++ quot ++ js ":" ++ quot ++ js "tsc" ++ quot
  ++ js "}," ++ quot ++ js "devDependencies" ++ quot ++ js ":{"
  ++ quot ++ js "typescript" ++ quot ++ js ":" ++ quot ++ js "5" ++ quot
  ++ js "}}".

(** ** Vocabulary of the further properties *)

(** The entries of a table that the text [g] does not show *)
Definition missingFrom (g : jsstring) (es : list (jsstring * regex))
  : list (jsstring * regex) :=
  List.filter (fun e => negb (String_match g e.2)) es.

(** The lines written for some entries *)
Definition linesOf (es : list (jsstring * regex)) : jsstring :=
  concat (List.map (fun e => e.1 ++ LF) es).

(** What is appended for the missing entries: nothing, or the heading
    comment and their lines *)
Definition appendedLines (missing : list (jsstring * regex)) : jsstring :=
  match missing with
  | [] => []
  | _ :: _ => headingComment ++ linesOf missing
  end.

(** The line of an earlier entry is not recognised by a later pattern, and
    neither is the heading comment. *)
Fixpoint independent (es : list (jsstring * regex)) : bool :=
  match es with
  | [] => true
  | e :: r =>
      negb (String_match headingComment e.2)
      && forallb (fun e' => negb (String_match (e.1 ++ LF) e'.2)) r
      && independent r
  end.

Definition lineStart (before : jsstring) : Prop :=
  before = [] \/ exists b t, before = b ++ [t] /\ isLineTerminator t = true.

Definition lineEnd (after : jsstring) : Prop :=
  after = [] \/ exists t a, after = t :: a /\ isLineTerminator t = true.

(** [l] is a whole line of [s]. *)
Definition hasLine (l s : jsstring) : Prop :=
  exists before after,
    s = before ++ l ++ after /\ lineStart before /\ lineEnd after.

(** The sections of a manifest that [_hasDependency] looks into *)
Definition dependencySections : list jsstring :=
  [js "dependencies"; js "devDependencies"; js "optionalDependencies"].

(** The parsed manifest [doc] declares [pkg] in one of them. *)
Definition declares (doc : json) (pkg : jsstring) : Prop :=
  exists members section deps v,
    doc = JObject members
    /\ In section dependencySections
    /\ lookupKey section members = Some (JObject deps)
    /\ lookupKey pkg deps = Some v
    /\ truthy v = true.

(** [_askQuestions()].  [TEST_OPTIONS] is the parsed environment variable
    of that name when it is set and not empty, taken as the answers as it
    is;
    [testsExists] and [tsconfigExists] tell whether the project holds
    [tests] and [tsconfig.json]; [prompted] is what the prompt
    collaborator resolves to for the questions it is asked. *)
Definition _askQuestions (options : CliOptions)
  (TEST_OPTIONS : option PromptOptions) (testsExists tsconfigExists : bool)
  (prompted : PromptOptions) : PromptOptions :=
  match TEST_OPTIONS with
  | Some answers => answers
  | None =>
      if given (quiet options) then
        {| installGitHubActions := given (gha options);
           language :=
             match lang options with
             | Some (first :: _) =>
                 if bool_decide (first = js "js")
                 then JavaScript else TypeScript
             | _ => TypeScript
             end;
           installPlaywrightDependencies := given (install_deps options);
           testDir := if testsExists then js "e2e" else js "tests";
           framework := None;
           installPlaywrightBrowsers := negb (given (no_browsers options)) |}
      else
        let isDefinitelyTS := tsconfigExists in
        let result := prompted in
        if isDefinitelyTS then
          {| installGitHubActions := installGitHubActions result;
             language := TypeScript;
             installPlaywrightDependencies :=
               installPlaywrightDependencies result;
             testDir := testDir result;
             framework := framework result;
             installPlaywrightBrowsers := installPlaywrightBrowsers result |}
        else result
  end.

Section PlanCommands.
Context `{PackageManager.t}.

(** The commands the plan holds under a condition *)
Definition initProject : Command :=
  {| name := js "Initializing " ++ PackageManager.name ++ js " project";
     command := PackageManager.init;
     phase := pre |}.

Definition installTypes : Command :=
  {| name := js "Installing Types";
     command := PackageManager.installDevDependency (js "@types/node");
     phase := pre |}.

Definition installComponentTesting (options : CliOptions)
  (selected : option Framework) : Command :=
  {| name := js "Installing Playwright Component Testing";
     command :=
       PackageManager.installDevDependency
         (match selected with
          | Some f => js "@playwright/experimental-ct-" ++ frameworkName f
          | None => js "undefined"
          end ++ packageTag options);
     phase := pre |}.

Definition installEndToEnd (options : CliOptions) : list Command :=
  [ {| name := js "Installing Playwright Test";
       command := PackageManager.installDevDependency
                    (js "@playwright/test" ++ packageTag options);
       phase := pre |};
    {| name := js "Installing dotenv";
       command := PackageManager.installDevDependency (js "dotenv");
       phase := pre |};
    {| name := js "Installing dxp/playwright-tools";
       command := PackageManager.installDevDependency
                    (js "@dxp/playwright-tools" ++ packageTag options);
       phase := pre |} ].
End PlanCommands.

(** The name of the configuration file the plan creates *)
Definition configFile `{Utils} (answers : PromptOptions) : jsstring :=
  match framework answers with
  | Some _ => js "playwright-ct.config."
  | None => js "playwright.config."
  end ++ languageToFileExtension (language answers).

(** The options of a component-testing run, asked for quietly or not *)
Definition componentTesting : CliOptions := {|
  browser := None; no_browsers := None; no_examples := None; next := None;
  beta := None; ct := Some []; quiet := None; gha := None;
  install_deps := None; lang := None;
|}.

Definition quietComponentTesting : CliOptions := {|
  browser := None; no_browsers := None; no_examples := None; next := None;
  beta := None; ct := Some []; quiet := Some []; gha := None;
  install_deps := None; lang := None;
|}.

(** The text written for a manifest that was the empty object *)
Definition emptyManifestPatched : jsstring :=
  JSON_stringify (JObject [(js "scripts", JObject [])]) ++ LF.

(** * Properties *)

#[local] Arguments js : simpl never.
#[local] Arguments N.eqb : simpl never.
#[local] Arguments N.leb : simpl never.
#[local] Arguments isLineTerminator : simpl never.
#[local] Arguments isTrimmed : simpl never.

(** ** [trimEnd] *)

Lemma trimEnd_snoc_trimmed (s : jsstring) (w : N) :
  isTrimmed w = true -> trimEnd (s ++ [w]) = trimEnd s.
Proof.
  intros Hw. induction s as [|c s IH]; simpl.
  - by rewrite Hw.
  - by rewrite IH.
Qed.

Lemma trimEnd_idem (s : jsstring) : trimEnd (trimEnd s) = trimEnd s.
Proof.
  induction s as [|c s IH]; simpl; [done|].
  destruct (trimEnd s) as [|x r] eqn:E.
  - destruct (isTrimmed c) eqn:Hc; simpl; [done|by rewrite Hc].
  - simpl in *. by rewrite IH.
Qed.

Lemma trimEnd_app_kept (s t : jsstring) (c : N) :
  isTrimmed c = false -> trimEnd (s ++ c :: t) = s ++ c :: trimEnd t.
Proof.
  intros Hc. induction s as [|x s IH]; simpl.
  - destruct (trimEnd t); [by rewrite Hc|done].
  - rewrite IH. by destruct s.
Qed.

(** ** Matching survives appended text *)

Lemma matchHere_extend (p : regex) (u t : jsstring) :
  forallb atom_ok p = true ->
  matchHere p (u ++ LF) = true -> matchHere p (u ++ LF ++ t) = true.
Proof.
  revert u. induction p as [|a p IH]; intros u Hp H; [done|].
  simpl in Hp. apply andb_true_iff in Hp as [Ha Hp].
  destruct a as [c|c|]; simpl in *.
  - destruct u as [|x u]; simpl in *.
    + apply andb_true_iff in H as [H _]. apply N.eqb_eq in H. subst c.
      by vm_compute in Ha.
    + apply andb_true_iff in H as [-> H]. by apply IH.
  - destruct u as [|x u]; simpl in *.
    + apply orb_true_iff in H as [H|H].
      * apply andb_true_iff in H as [H _]. apply N.eqb_eq in H. subst c.
        by vm_compute in Ha.
      * apply orb_true_iff. right. by apply (IH []).
    + apply orb_true_iff in H as [H|H]; apply orb_true_iff.
      * left. apply andb_true_iff in H as [-> H]. by apply IH.
      * right. by apply (IH (x :: u)).
  - destruct u as [|x u]; simpl in *.
    + by apply (IH []).
    + apply andb_true_iff in H as [-> H]. by apply (IH (x :: u)).
Qed.

Lemma searchLines_extend (p : regex) (b : bool) (u t : jsstring) :
  forallb atom_ok p = true -> matchHere p [] = false ->
  searchLines p b (u ++ LF) = true -> searchLines p b (u ++ LF ++ t) = true.
Proof.
  intros Hp Hnil. revert b. induction u as [|x u IH]; intros b H.
  - simpl in *. rewrite Hnil in H. rewrite !orb_false_r in H.
    apply andb_true_iff in H as [-> H]. simpl.
    apply orb_true_iff. left. by apply (matchHere_extend p [] t).
  - simpl in *. apply orb_true_iff in H as [H|H]; apply orb_true_iff.
    + left. apply andb_true_iff in H as [-> H].
      by apply (matchHere_extend p (x :: u) t).
    + right. by apply IH.
Qed.

Lemma searchLines_after_LF (p : regex) (b : bool) (h s : jsstring) :
  matchHere p s = true -> searchLines p b (h ++ LF ++ s) = true.
Proof.
  intros H. revert b. induction h as [|x h IH]; intros b.
  - simpl. apply orb_true_iff. right.
    destruct s; simpl; by rewrite H.
  - simpl. apply orb_true_iff. right. apply IH.
Qed.

Lemma String_match_extend (g t : jsstring) (p : regex) :
  forallb atom_ok p = true -> matchHere p [] = false -> lineEnded g ->
  String_match g p = true -> String_match (g ++ t) p = true.
Proof.
  intros Hp Hnil [h ->] H. rewrite <- app_assoc.
  by apply searchLines_extend.
Qed.

Lemma String_match_empty (p : regex) :
  matchHere p [] = false -> String_match [] p = false.
Proof. intros H. unfold String_match. simpl. by rewrite H. Qed.

(** ** The [forEach] loop over an arbitrary table of entries *)

Lemma addValue_fixed (es : list (jsstring * regex)) (g : jsstring) (b : bool) :
  allMatch g es -> fold_left addValue es (g, b) = (g, b).
Proof.
  induction 1 as [|[v re] es Hm _ IH]; simpl; [done|].
  simpl in Hm. by rewrite Hm.
Qed.

Lemma entry_ok_inv (e : jsstring * regex) :
  entry_ok e = true ->
  forallb atom_ok e.2 = true /\ matchHere e.2 [] = false
  /\ matchHere e.2 (e.1 ++ LF) = true
  /\ exists v c, e.1 = v ++ [c] /\ isTrimmed c = false.
Proof.
  unfold entry_ok. intros H.
  apply andb_true_iff in H as [H H4]. apply andb_true_iff in H as [H H3].
  apply andb_true_iff in H as [H1 H2]. apply negb_true_iff in H2.
  repeat split; try done.
  destruct (rev e.1) as [|c r] eqn:E; [done|].
  exists (rev r), c. split.
  - by rewrite <- (rev_involutive e.1), E.
  - by apply negb_true_iff.
Qed.

Lemma appended_trans (a b c : jsstring) :
  appended a b -> appended b c -> appended a c.
Proof.
  intros (h1 & c1 & -> & _) (h2 & c2 & -> & Hc).
  exists (h1 ++ [c1] ++ LF ++ h2), c2. split; [|done].
  by rewrite <- !app_assoc.
Qed.

Lemma appended_lineEnded (g g' : jsstring) : appended g g' -> lineEnded g'.
Proof.
  intros (h & c & -> & _). exists (g ++ h ++ [c]). by rewrite <- !app_assoc.
Qed.

Lemma addValue_loop (es : list (jsstring * regex)) :
  Forall (fun e => entry_ok e = true) es ->
  forall (g : jsstring) (b : bool),
    lineEnded g \/ g = [] ->
    let r := fold_left addValue es (g, b) in
    allMatch r.1 es
    /\ (r = (g, b) \/ (r.2 = false /\ appended g r.1))
    /\ (forall p, forallb atom_ok p = true -> matchHere p [] = false ->
          lineEnded g -> String_match g p = true -> String_match r.1 p = true).
Proof.
  induction 1 as [|[v re] es Hok _ IH]; intros g b Hpre.
  { simpl. split; [constructor|]. split; [by left|done]. }
  apply entry_ok_inv in Hok as (Hp & Hnil & Hv & (v' & c & Ev & Hc)).
  cbn [fst snd] in *.
  cbn [fold_left].
  destruct (String_match g re) eqn:Hm.
  - assert (Est : addValue (g, b) (v, re) = (g, b)).
    { unfold addValue. by rewrite Hm. }
    rewrite Est. clear Est.
    assert (Hg : lineEnded g).
    { destruct Hpre as [Hg| ->]; [done|].
      by rewrite String_match_empty in Hm. }
    destruct (IH g b (or_introl Hg)) as (IH1 & IH2 & IH3).
    split; [|split; done].
    constructor; [|done]. by apply IH3.
  - set (g1 := if b then g ++ headingComment else g).
    set (g2 := g1 ++ v ++ LF).
    assert (Est : addValue (g, b) (v, re) = (g2, false)).
    { unfold addValue. by rewrite Hm. }
    rewrite Est. clear Est.
    assert (Happ : appended g g2).
    { subst g2 g1. rewrite Ev. destruct b.
      - exists (headingComment ++ v'), c. split; [|done].
        by rewrite <- !app_assoc.
      - exists v', c. split; [|done]. by rewrite <- !app_assoc. }
    assert (Hg2 : lineEnded g2) by by eapply appended_lineEnded.
    assert (Hm2 : String_match g2 re = true).
    { assert (Hg1 : lineEnded g1 \/ g1 = []).
      { subst g1. destruct b; [left|done].
        apply (ex_intro _ (g ++ LF ++ js "# Playwright")).
        unfold headingComment. by rewrite <- !app_assoc. }
      subst g2. destruct Hg1 as [[h ->]| ->].
      - rewrite <- app_assoc. by apply searchLines_after_LF.
      - unfold String_match. simpl.
        destruct (v ++ LF) eqn:E; simpl; by rewrite Hv. }
    destruct (IH g2 false (or_introl Hg2)) as (IH1 & IH2 & IH3).
    split; [|split].
    + constructor; [|done]. by apply IH3.
    + right. destruct IH2 as [->|[-> IH2]]; [done|].
      split; [done|]. by eapply appended_trans.
    + intros p Hp' Hnil' Hg Hmp. apply IH3; try done.
      destruct Happ as (h & c' & -> & _). by apply String_match_extend.
Qed.

Lemma valuesToAdd_ok : Forall (fun e => entry_ok e = true) valuesToAdd.
Proof. repeat constructor. Qed.

Lemma patchedGitIgnore_spec (existing : option jsstring) :
  let g0 := match existing with
            | Some content => trimEnd content ++ LF
            | None => []
            end in
  allMatch (patchedGitIgnore existing) valuesToAdd
  /\ (patchedGitIgnore existing = g0 /\ is_Some existing
      \/ appended g0 (patchedGitIgnore existing)).
Proof.
  intros g0. unfold patchedGitIgnore. fold g0.
  assert (Hpre : lineEnded g0 \/ g0 = []).
  { subst g0. destruct existing; [left; by eexists|by right]. }
  destruct (addValue_loop _ valuesToAdd_ok g0 true Hpre) as (H1 & H2 & _).
  split; [done|].
  destruct H2 as [E|[_ H2]]; [|by right].
  left. rewrite E. split; [done|].
  destruct existing; [done|]. subst g0.
  rewrite E in H1. inversion H1 as [|? ? Hm _]; subst.
  by vm_compute in Hm.
Qed.

Lemma trimEnd_appended (g g' : jsstring) :
  appended g g' -> trimEnd g' ++ LF = g'.
Proof.
  intros (h & c & -> & Hc).
  replace (g ++ h ++ [c] ++ LF) with ((g ++ h) ++ c :: LF)
    by by rewrite <- !app_assoc.
  rewrite trimEnd_app_kept by done. simpl. by rewrite <- !app_assoc.
Qed.

Lemma _patchGitIgnore_eq (w : World) :
  _patchGitIgnore w
  = (Ok tt,
     {| disk := <[js ".gitignore" :=
                    patchedGitIgnore (disk w !! js ".gitignore")]> (disk w);
        events := events w
                  ++ [Written (js ".gitignore")
                        (patchedGitIgnore (disk w !! js ".gitignore"))] |}).
Proof.
  unfold _patchGitIgnore, mbind, M_bind, existsSync, readFileSync,
    writeFileSync, mret, M_ret.
  cbn [fst snd].
  destruct (disk w !! js ".gitignore") eqn:E; cbn [given]; by rewrite ?E.
Qed.

Lemma patchedGitIgnore_fixed (existing : option jsstring) :
  patchedGitIgnore (Some (patchedGitIgnore existing))
  = patchedGitIgnore existing.
Proof.
  destruct (patchedGitIgnore_spec existing) as (Hall & Hcase).
  assert (E : trimEnd (patchedGitIgnore existing) ++ LF
              = patchedGitIgnore existing).
  { destruct Hcase as [[E [content ->]]|Happ].
    - rewrite E. unfold LF. rewrite trimEnd_snoc_trimmed by done.
      by rewrite trimEnd_idem.
    - by eapply trimEnd_appended. }
  unfold patchedGitIgnore at 1. rewrite E.
  by rewrite addValue_fixed.
Qed.

(** C2.  Ignore-file patch idempotence: whatever [.gitignore] holds (or if
    it does not exist), patching the patched text changes nothing: no
    entry and no heading comment is appended a second time.  So a second
    [_patchGitIgnore] leaves the project directory as the first one left
    it. *)
Theorem patchGitIgnore_idempotent (w : World) :
  (forall existing,
     patchedGitIgnore (Some (patchedGitIgnore existing))
     = patchedGitIgnore existing)
  /\ (_patchGitIgnore w).1 = Ok tt
  /\ (_patchGitIgnore (_patchGitIgnore w).2).1 = Ok tt
  /\ disk (_patchGitIgnore (_patchGitIgnore w).2).2
     = disk (_patchGitIgnore w).2.
Proof.
  split; [apply patchedGitIgnore_fixed|].
  rewrite !_patchGitIgnore_eq. cbn [fst snd disk].
  split; [done|]. split; [done|].
  rewrite lookup_insert_eq, patchedGitIgnore_fixed.
  by rewrite insert_insert_eq.
Qed.

(** ** The command plan *)


(** C9.  The directive map has exactly the three browser sections; each is
    [show] when no subset was given or the browser belongs to it, and
    [comment] otherwise, so [hide] never occurs. *)
Theorem browserSections_show_or_comment (options : CliOptions) :
  List.map fst (browserSections options)
  = [js "chromium"; js "firefox"; js "webkit"]
  /\ forall browserName state,
       lookupKey browserName (browserSections options) = Some state ->
       state = (if browserSelected options browserName
                then show else comment)
       /\ state <> hide.
Proof.
  assert (E : browserSections options
              = List.map (fun b => (b, if browserSelected options b
                                       then show else comment))
                  [js "chromium"; js "firefox"; js "webkit"]).
  { unfold browserSections, browserSelected.
    destruct (browser options); reflexivity. }
  rewrite E. split; [reflexivity|].
  intros browserName state. cbn [List.map lookupKey].
  repeat case_bool_decide; subst; intros [= <-];
    (split; [done|by destruct (browserSelected options _)]).
Qed.

Lemma packageTag_cases (options : CliOptions) :
  packageTag options
  = match next options, beta options with
    | Some _, _ => js "@next"
    | None, Some _ => js "@beta"
    | None, None => []
    end.
Proof. unfold packageTag. by destruct (next options), (beta options). Qed.

Section Plan.
Context `{PackageManager.t} `{Utils} `{Host} `{Numbers}.
Variable options : CliOptions.

(** C6, as the code has it.  Without the [ct] option the plan installs,
    in the pre phase and in this order, the test runner at the selected
    tag, [dotenv] without any tag, and the playwright-tools add-on at the
    selected tag; the tag is [@next] if that option is given, else
    [@beta] if that one is, else empty. *)
Theorem plan_installs_runner_dotenv_tools
  (project : gmap jsstring jsstring) (answers : PromptOptions) :
  ct options = None ->
  let commands := (_identifyChanges options project answers).2 in
  (exists before after,
     commands
     = before
       ++ [ {| name := js "Installing Playwright Test";
               command := PackageManager.installDevDependency
                            (js "@playwright/test" ++ packageTag options);
               phase := pre |};
            {| name := js "Installing dotenv";
               command := PackageManager.installDevDependency (js "dotenv");
               phase := pre |};
            {| name := js "Installing dxp/playwright-tools";
               command := PackageManager.installDevDependency
                            (js "@dxp/playwright-tools" ++ packageTag options);
               phase := pre |} ]
       ++ after)
  /\ installsTagged options (js "@playwright/test") commands
  /\ installsTagged options (js "@dxp/playwright-tools") commands
  /\ (packageTag options = [] \/ packageTag options = js "@beta"
      \/ packageTag options = js "@next").
Proof.
  intros Hct commands.
  assert (Hshape : exists before after,
    commands
    = before
      ++ [ {| name := js "Installing Playwright Test";
              command := PackageManager.installDevDependency
                           (js "@playwright/test" ++ packageTag options);
              phase := pre |};
           {| name := js "Installing dotenv";
              command := PackageManager.installDevDependency (js "dotenv");
              phase := pre |};
           {| name := js "Installing dxp/playwright-tools";
              command := PackageManager.installDevDependency
                           (js "@dxp/playwright-tools" ++ packageTag options);
              phase := pre |} ]
      ++ after).
  { subst commands. unfold _identifyChanges. rewrite Hct. cbn [given negb].
    set (first := if negb (given (project !! js "package.json")) then _ else _).
    cbn [snd].
    exists first.
    destruct (negb (_hasDependency project (js "@types/node")));
      destruct (installPlaywrightBrowsers answers);
      eexists; cbn [snd]; rewrite <- ?app_assoc; cbn [app]; reflexivity. }
  split; [done|].
  destruct Hshape as (before & after & E).
  split; [|split].
  - eexists. split; [|split]; [rewrite E; apply in_or_app; right; left;
      reflexivity|reflexivity..].
  - eexists. split; [|split]; [rewrite E; apply in_or_app; right; right;
      right; left; reflexivity|reflexivity..].
  - rewrite packageTag_cases.
    destruct (next options), (beta options); auto.
Qed.

(** C8.  The plan ends with the browser download, and that is its only
    post-phase command, exactly when the answers ask for browsers: the
    command is the package manager's [playwright install], followed by
    [--with-deps] exactly when operating-system dependencies are asked
    for, followed by the selected browsers when a subset was given. *)
Theorem plan_downloads_browsers
  (project : gmap jsstring jsstring) (answers : PromptOptions) :
  let commands := (_identifyChanges options project answers).2 in
  exists before,
    Forall (fun c => phase c = pre) before
    /\ commands
       = before ++ (if installPlaywrightBrowsers answers
                    then [downloadBrowsers options answers] else [])
    /\ filter (fun c => isPost c = true) commands
       = if installPlaywrightBrowsers answers
         then [downloadBrowsers options answers] else [].
Proof.
  intros commands.
  assert (Hshape : exists before,
    Forall (fun c => phase c = pre) before
    /\ commands
       = before ++ (if installPlaywrightBrowsers answers
                    then [downloadBrowsers options answers] else [])).
  { subst commands. unfold _identifyChanges, downloadBrowsers.
    destruct (given (ct options));
      destruct (negb (given (project !! js "package.json")));
      destruct (negb (_hasDependency project (js "@types/node")));
      destruct (installPlaywrightBrowsers answers);
      cbn [negb snd]; eexists;
      (split; [|rewrite ?app_nil_r; reflexivity]);
      cbn [app]; repeat constructor. }
  destruct Hshape as (before & Hpre & E).
  exists before. split; [done|]. split; [done|].
  rewrite E, filter_app.
  assert (Hnone : filter (fun c => isPost c = true) before = []).
  { clear E. induction Hpre as [|c l Hc _ IH]; [done|].
    rewrite filter_cons, IH. unfold isPost, isPre. by rewrite Hc. }
  rewrite Hnone.
  by destruct (installPlaywrightBrowsers answers).
Qed.
End Plan.

(** ** The order of a run *)

Lemma splitByPhase_filter (allCommands : list Command) :
  splitByPhase allCommands
  = (filter (fun c => isPre c = true) allCommands,
     filter (fun c => isPost c = true) allCommands).
Proof.
  unfold splitByPhase.
  enough (G : forall acc,
    fold_left (fun acc command =>
      match phase command with
      | pre => (acc.1 ++ [command], acc.2)
      | post => (acc.1, acc.2 ++ [command])
      end) allCommands acc
    = (acc.1 ++ filter (fun c => isPre c = true) allCommands,
       acc.2 ++ filter (fun c => isPost c = true) allCommands))
    by by rewrite G.
  induction allCommands as [|c l IH]; intros [a b]; cbn [fold_left fst snd].
  - by rewrite !app_nil_r.
  - rewrite IH, !filter_cons. unfold isPost, isPre.
    destruct (phase c); cbn [fst snd negb].
    + rewrite decide_True, decide_False by done. by rewrite <- app_assoc.
    + rewrite decide_False, decide_True by done. by rewrite <- app_assoc.
Qed.

Lemma traces_seq {A B} (m1 : M A) (m2 : M B) (w : World)
  (planned1 : list Event) (P : list Event -> Prop) :
  traces m1 w planned1 ->
  (forall w', exists planned2, P planned2 /\ traces m2 w' planned2) ->
  exists planned2, P planned2 /\ traces (m1 ;; m2) w (planned1 ++ planned2).
Proof.
  intros [(done1 & E1 & Hpre1) Hok1] H2.
  unfold traces, mbind, M_bind.
  destruct (m1 w) as [[a|e] w1] eqn:Em1; cbn [fst snd] in *.
  - destruct (H2 w1) as (planned2 & HP & (done2 & E2 & Hpre2) & Hok2).
    exists planned2. split; [done|]. split.
    + exists (planned1 ++ done2). rewrite E2, Hok1 by done.
      split; [by rewrite app_assoc|]. by apply prefix_app.
    + intros Hok. rewrite Hok2, Hok1 by done. by rewrite app_assoc.
  - destruct (H2 w1) as (planned2 & HP & _).
    exists planned2. split; [done|]. split; [|done].
    exists done1. split; [done|]. by apply prefix_app_r.
Qed.

Section Run.
Context `{PackageManager.t} `{Utils} `{Host} `{Numbers}.
Variable options : CliOptions.

Lemma executeCommands_cons (c : Command) (rest : list Command) (w : World) :
  executeCommands (c :: rest) w
  = match execSync (command c) (disk w) with
    | Some d =>
        executeCommands rest
          {| disk := d; events := events w ++ [Executed c] |}
    | None =>
        (Throw CommandFailed,
         {| disk := disk w; events := events w ++ [Executed c] |})
    end.
Proof.
  cbn [executeCommands]. unfold mbind, M_bind, log. cbn.
  by destruct (execSync (command c) (disk w)).
Qed.

Lemma executeCommands_traces (commands : list Command) (w : World) :
  traces (executeCommands commands) w (List.map Executed commands).
Proof.
  revert w. induction commands as [|c rest IH]; intros w.
  - split; [|by rewrite app_nil_r]. exists []. by rewrite app_nil_r.
  - unfold traces. rewrite executeCommands_cons. cbn [List.map].
    destruct (execSync (command c) (disk w)) as [d|] eqn:Ex.
    + set (w1 := {| disk := d; events := events w ++ [Executed c] |}).
      destruct (IH w1) as [(done & E & Hpre) Hok]. split.
      * exists (Executed c :: done). rewrite E. subst w1. cbn [events].
        split; [by rewrite <- app_assoc|]. by apply prefix_cons.
      * intros Hr. rewrite Hok by done. subst w1. cbn [events].
        by rewrite <- app_assoc.
    + cbn [fst snd events]. split; [|done]. exists [Executed c].
      split; [done|]. by apply prefix_cons, prefix_nil.
Qed.

Lemma createFiles_cons (path content : jsstring)
  (rest : list (jsstring * jsstring)) (force : bool) (w : World) :
  createFiles ((path, content) :: rest) force w
  = if given (disk w !! path) && negb force && negb (confirmOverride path)
    then createFiles rest force w
    else createFiles rest force
           {| disk := <[path:=content]> (disk w);
              events := events w ++ [Written path content] |}.
Proof.
  cbn [createFiles]. unfold mbind, M_bind, existsSync. cbn [fst snd].
  by destruct (given (disk w !! path) && negb force
               && negb (confirmOverride path)).
Qed.

Lemma createFiles_traces (files : list (jsstring * jsstring)) (force : bool)
  (w : World) :
  exists writes,
    Forall (writesOneOf files) writes
    /\ (createFiles files force w).1 = Ok tt
    /\ events (createFiles files force w).2 = events w ++ writes.
Proof.
  revert w. induction files as [|[path content] rest IH]; intros w.
  - exists []. split; [constructor|]. split; [done|]. by rewrite app_nil_r.
  - rewrite createFiles_cons.
    assert (Hmono : forall e, writesOneOf rest e
                              -> writesOneOf ((path, content) :: rest) e).
    { intros e (p & c & -> & Hin). exists p, c. split; [done|by right]. }
    destruct (given (disk w !! path) && negb force
              && negb (confirmOverride path)).
    + destruct (IH w) as (writes & Hall & Hr & E).
      exists writes. split; [|done].
      eapply Forall_impl; [exact Hall|done].
    + set (w1 := {| disk := <[path:=content]> (disk w);
                    events := events w ++ [Written path content] |}).
      destruct (IH w1) as (writes & Hall & Hr & E).
      exists (Written path content :: writes). split; [|split; [done|]].
      * constructor; [exists path, content; split; [done|by left]|].
        eapply Forall_impl; [exact Hall|done].
      * rewrite E. subst w1. cbn [events]. by rewrite <- app_assoc.
Qed.

Lemma traces_total {A} (m : M A) (w : World) (planned : list Event) :
  isOk (m w).1 -> events (m w).2 = events w ++ planned ->
  traces m w planned.
Proof. intros Hok E. split; [|done]. exists planned. by split. Qed.

Lemma _patchGitIgnore_traces (w : World) :
  exists content, traces _patchGitIgnore w [Written (js ".gitignore") content].
Proof.
  exists (patchedGitIgnore (disk w !! js ".gitignore")).
  apply traces_total; by rewrite _patchGitIgnore_eq.
Qed.

Lemma _patchPackageJSON_eq (answers : PromptOptions) (w : World) :
  _patchPackageJSON answers w
  = match disk w !! js "package.json" with
    | Some content =>
        match patchedPackageJSON answers content with
        | Ok text =>
            (Ok tt,
             {| disk := <[js "package.json" := text]> (disk w);
                events := events w ++ [Written (js "package.json") text] |})
        | Throw e => (Throw e, w)
        end
    | None => (Throw ENOENT, w)
    end.
Proof.
  unfold _patchPackageJSON, mbind, M_bind, readFileSync, lift.
  cbn [fst snd].
  destruct (disk w !! js "package.json") as [content|]; [|done].
  cbn [orThrow].
  destruct (patchedPackageJSON answers content) as [text|e]; [|done].
  rewrite createFiles_cons. cbn [negb]. by rewrite andb_false_r.
Qed.

Lemma _patchPackageJSON_traces (answers : PromptOptions) (w : World) :
  exists content,
    traces (_patchPackageJSON answers) w [Written (js "package.json") content].
Proof.
  unfold traces. rewrite _patchPackageJSON_eq.
  destruct (disk w !! js "package.json") as [content|].
  - destruct (patchedPackageJSON answers content) as [text|e].
    + exists text. cbn [fst snd events]. split; [|done].
      exists [Written (js "package.json") text]. by split.
    + exists []. cbn [fst snd]. split; [|done]. exists [].
      split; [by rewrite app_nil_r|]. apply prefix_nil.
  - exists []. cbn [fst snd]. split; [|done]. exists [].
    split; [by rewrite app_nil_r|]. apply prefix_nil.
Qed.

Lemma applyChanges_traces (answers : PromptOptions)
  (files : list (jsstring * jsstring)) (allCommands : list Command)
  (w : World) :
  exists writes gitIgnore manifest,
    Forall (writesOneOf files) writes
    /\ traces (applyChanges answers files allCommands) w
         (List.map Executed (filter (fun c => isPre c = true) allCommands)
          ++ writes
          ++ [Written (js ".gitignore") gitIgnore]
          ++ [Written (js "package.json") manifest]
          ++ List.map Executed
               (filter (fun c => isPost c = true) allCommands)).
Proof.
  unfold applyChanges. rewrite splitByPhase_filter.
  set (preCommands := filter (fun c => isPre c = true) allCommands).
  set (postCommands := filter (fun c => isPost c = true) allCommands).
  pose proof (executeCommands_traces preCommands w) as Hpre.
  eapply (traces_seq _
            (createFiles files false;; _patchGitIgnore;;
             _patchPackageJSON answers;; executeCommands postCommands)
            w _
            (fun planned => exists writes gitIgnore manifest,
               Forall (writesOneOf files) writes
               /\ planned = writes ++ [Written (js ".gitignore") gitIgnore]
                    ++ [Written (js "package.json") manifest]
                    ++ List.map Executed postCommands)) in Hpre.
  - destruct Hpre as (planned & (writes & g & m & Hall & ->) & Htr).
    by exists writes, g, m.
  - clear Hpre. intros w1.
    destruct (createFiles_traces files false w1) as (writes & Hall & Hr & E).
    assert (Hcreate : traces (createFiles files false) w1 writes).
    { apply traces_total; [by rewrite Hr|done]. }
    eapply (traces_seq _
              (_patchGitIgnore;; _patchPackageJSON answers;;
               executeCommands postCommands) w1 _
              (fun planned => exists gitIgnore manifest,
                 planned = [Written (js ".gitignore") gitIgnore]
                   ++ [Written (js "package.json") manifest]
                   ++ List.map Executed postCommands)) in Hcreate.
    + destruct Hcreate as (planned & (g & m & ->) & Htr).
      eexists. split; [|exact Htr]. by exists writes, g, m.
    + clear. intros w2.
      destruct (_patchGitIgnore_traces w2) as (g & Hg).
      eapply (traces_seq _
                (_patchPackageJSON answers;; executeCommands postCommands)
                w2 _
                (fun planned => exists manifest,
                   planned = [Written (js "package.json") manifest]
                     ++ List.map Executed postCommands)) in Hg.
      * destruct Hg as (planned & (m & ->) & Htr).
        eexists. split; [|exact Htr]. by exists g, m.
      * clear. intros w3.
        destruct (_patchPackageJSON_traces answers w3) as (m & Hm).
        eapply (traces_seq _ (executeCommands postCommands) w3 _
                  (fun planned => planned = List.map Executed postCommands))
          in Hm.
        -- destruct Hm as (planned & -> & Htr).
           eexists. split; [|exact Htr]. by exists m.
        -- intros w4. eexists. split; [done|].
           apply executeCommands_traces.
Qed.

End Run.

(** The plan [A(pre), B(post), C(pre)] on a project whose manifest is the
    empty object: the run executes [A], [C], writes the file and the two
    patches, then executes [B]. *)
Example run_A_B_C :
  let A := {| name := js "A"; command := js "a"; phase := pre |} in
  let B := {| name := js "B"; command := js "b"; phase := post |} in
  let C := {| name := js "C"; command := js "c"; phase := pre |} in
  let answers := {| testDir := js "tests"; installGitHubActions := false;
                    language := TypeScript; framework := None;
                    installPlaywrightDependencies := false;
                    installPlaywrightBrowsers := false |} in
  let w := {| disk := {[ js "package.json" := js "{}" ]}; events := [] |} in
  exists gitIgnore manifest,
    (@applyChanges plainUtils quietHost verbatimNumbers answers
       [(js "playwright.config.ts", js "config")] [A; B; C] w).1 = Ok tt
    /\ events (@applyChanges plainUtils quietHost verbatimNumbers answers
                 [(js "playwright.config.ts", js "config")] [A; B; C] w).2
       = [Executed A; Executed C;
          Written (js "playwright.config.ts") (js "config");
          Written (js ".gitignore") gitIgnore;
          Written (js "package.json") manifest;
          Executed B].
Proof. do 2 eexists. vm_compute. split; reflexivity. Qed.

(** ** A [.gitignore] that already lists [node_modules] *)

Lemma matchHere_literal (l : jsstring) (p : regex) (s : jsstring) :
  matchHere (List.map Chr l ++ p) (l ++ s) = matchHere p s.
Proof.
  induction l as [|c l IH]; [done|].
  cbn [List.map app matchHere]. by rewrite N.eqb_refl, IH.
Qed.

Lemma searchLines_at_line (p : regex) (before s : jsstring) (bol : bool) :
  (before = [] /\ bol = true
   \/ exists b t, before = b ++ [t] /\ isLineTerminator t = true) ->
  matchHere p s = true -> searchLines p bol (before ++ s) = true.
Proof.
  intros Hb Hm. revert bol Hb. induction before as [|x r IH]; intros bol Hb.
  - destruct Hb as [[_ ->]|(b & t & E & _)]; [|by destruct b].
    cbn [app]. destruct s; cbn [searchLines]; by rewrite Hm.
  - cbn [app searchLines]. apply orb_true_iff. right. apply IH.
    destruct Hb as [[E _]|(b & t & E & Ht)]; [done|].
    destruct b as [|y b].
    + injection E as -> ->. by left.
    + injection E as -> ->. right. by exists b, t.
Qed.

Lemma node_modules_recognised (content : jsstring) :
  startsLine (js "node_modules") content ->
  String_match (trimEnd content ++ LF)
    (lit "node_modules" ++ [Opt (ch "/")]) = true.
Proof.
  intros (before & after & -> & Hb).
  change (js "node_modules") with (js "node_module" ++ [115]).
  replace (before ++ (js "node_module" ++ [115]) ++ after)
    with ((before ++ js "node_module") ++ 115 :: after)
    by by rewrite <- !app_assoc.
  rewrite trimEnd_app_kept by done.
  replace (((before ++ js "node_module") ++ 115 :: trimEnd after) ++ LF)
    with (before ++ js "node_modules" ++ (trimEnd after ++ LF))
    by (change (js "node_modules") with (js "node_module" ++ [115]);
        by rewrite <- !app_assoc).
  apply searchLines_at_line.
  - destruct Hb as [->|Hb]; [by left|by right].
  - unfold lit. rewrite matchHere_literal.
    cbn [matchHere]. destruct (trimEnd after ++ LF); [done|].
    apply orb_true_r.
Qed.

(** C5, as the code has it.  When [.gitignore] has a line that begins with
    [node_modules], the patch never appends [node_modules/]: what it
    writes is what the loop over the other four entries makes of the text
    with its trailing white space replaced by one newline.  If those four
    are recognised as well, that text is written as it is, without heading
    comment. *)
Theorem patchGitIgnore_keeps_node_modules (content : jsstring) :
  startsLine (js "node_modules") content ->
  patchedGitIgnore (Some content)
  = (fold_left addValue (tail valuesToAdd) (trimEnd content ++ LF, true)).1
  /\ (allMatch (trimEnd content ++ LF) (tail valuesToAdd) ->
      patchedGitIgnore (Some content) = trimEnd content ++ LF).
Proof.
  intros Hline. apply node_modules_recognised in Hline.
  assert (E : patchedGitIgnore (Some content)
    = (fold_left addValue (tail valuesToAdd) (trimEnd content ++ LF, true)).1).
  { unfold patchedGitIgnore.
    change valuesToAdd
      with ((js "node_modules/", lit "node_modules" ++ [Opt (ch "/")])
            :: tail valuesToAdd).
    cbn [fold_left]. unfold addValue at 2. by rewrite Hline. }
  split; [done|].
  intros Hall. rewrite E. by rewrite addValue_fixed.
Qed.

Lemma patchGitIgnore_keeps_node_modules_witness :
  startsLine (js "node_modules") (js "node_modules")
  /\ patchedGitIgnore (Some (js "node_modules"))
     = (fold_left addValue (tail valuesToAdd)
          (trimEnd (js "node_modules") ++ LF, true)).1.
Proof.
  assert (H : startsLine (js "node_modules") (js "node_modules")).
  { exists [], []. split; [reflexivity|by left]. }
  split; [exact H|].
  exact (proj1 (patchGitIgnore_keeps_node_modules (js "node_modules") H)).
Defined.

(** C5 as stated fails: a [.gitignore] whose only line is [node_modules]
    is not left unchanged; the heading comment and the four other entries
    are appended. *)
Lemma patchGitIgnore_node_modules_changed :
  startsLine (js "node_modules") (js "node_modules" ++ LF)
  /\ patchedGitIgnore (Some (js "node_modules" ++ LF))
     <> js "node_modules" ++ LF
  /\ patchedGitIgnore (Some (js "node_modules" ++ LF))
     = js "node_modules" ++ LF ++ headingComment
       ++ js "/test-results/" ++ LF ++ js "/playwright-report/" ++ LF
       ++ js "/blob-report/" ++ LF ++ js "/playwright/.cache/" ++ LF.
Proof.
  split; [|split].
  - exists [], LF. split; [reflexivity|by left].
  - by vm_compute.
  - reflexivity.
Qed.

(** ** The lexer reads back what [JSON.stringify] prints *)

Lemma lexRun_app (st : lexstate) (a b : jsstring) :
  lexRun st (a ++ b)
  = match lexRun st a with
    | Some (st', t) =>
        match lexRun st' b with
        | Some (st'', t') => Some (st'', t ++ t')
        | None => None
        end
    | None => None
    end.
Proof.
  revert st. induction a as [|c a IH]; intros st; cbn [app lexRun].
  - by destruct (lexRun st b) as [[? ?]|].
  - destruct (lexStep st c) as [[st1 t1]|]; [|done].
    rewrite IH. destruct (lexRun st1 a) as [[st2 t2]|]; [|done].
    destruct (lexRun st2 b) as [[st3 t3]|]; [|done].
    by rewrite app_assoc.
Qed.

Lemma lexFrom_app (st : lexstate) (a b : jsstring) :
  lexFrom st (a ++ b)
  = match lexRun st a with
    | Some (st', t) =>
        match lexFrom st' b with
        | Some t' => Some (t ++ t')
        | None => None
        end
    | None => None
    end.
Proof.
  revert st. induction a as [|c a IH]; intros st; cbn [app lexRun lexFrom].
  - by destruct (lexFrom st b).
  - destruct (lexStep st c) as [[st1 t1]|]; [|done].
    rewrite IH. destruct (lexRun st1 a) as [[st2 t2]|]; [|done].
    destruct (lexFrom st2 b); [|done]. by rewrite app_assoc.
Qed.

Lemma lexClosed_app (a b : jsstring) (ta tb : list token) :
  lexClosed a ta -> lexClosed b tb -> lexClosed (a ++ b) (ta ++ tb).
Proof.
  unfold lexClosed. intros Ha Hb. by rewrite lexRun_app, Ha, Hb.
Qed.

Lemma lexClosed_lexesTo (a : jsstring) (ta : list token) :
  lexClosed a ta -> lexesTo a ta.
Proof.
  intros Ha rest toks' _ Hrest. by rewrite lexFrom_app, Ha, Hrest.
Qed.

Lemma lexesTo_closed_l (a b : jsstring) (ta tb : list token) :
  lexClosed a ta -> lexesTo b tb -> lexesTo (a ++ b) (ta ++ tb).
Proof.
  intros Ha Hb rest toks' Hd Hrest.
  rewrite <- !app_assoc, lexFrom_app, Ha.
  by rewrite (Hb rest toks').
Qed.

Lemma lexesTo_closed_r (a b : jsstring) (c : N) (ta tb : list token) :
  lexesTo a ta -> isNumberChar c = false -> lexClosed (c :: b) tb ->
  lexesTo (a ++ c :: b) (ta ++ tb).
Proof.
  intros Ha Hc Hb rest toks' Hd Hrest.
  rewrite <- !app_assoc. apply Ha; [done|].
  change ((c :: b) ++ rest) with ((c :: b) ++ rest).
  by rewrite lexFrom_app, Hb, Hrest.
Qed.

(** *** Strings *)

Lemma hexValue_hexDigit (d : N) : d < 16 -> hexValue (hexDigit d) = Some d.
Proof.
  intros Hd.
  assert (Hcases : d = 0 \/ d = 1 \/ d = 2 \/ d = 3 \/ d = 4 \/ d = 5 \/ d = 6
    \/ d = 7 \/ d = 8 \/ d = 9 \/ d = 10 \/ d = 11 \/ d = 12 \/ d = 13
    \/ d = 14 \/ d = 15) by lia.
  repeat (destruct Hcases as [->|Hcases]; [reflexivity|]). by subst.
Qed.

Lemma hex_digits_value (c : N) :
  c < 65536 ->
  4096 * (c / 4096 mod 16) + 256 * (c / 256 mod 16) + 16 * (c / 16 mod 16)
  + c mod 16 = c.
Proof.
  intros Hc. apply N2Z.inj.
  rewrite !N2Z.inj_add, !N2Z.inj_mul, !N2Z.inj_mod, !N2Z.inj_div.
  apply N2Z.inj_lt in Hc. pose proof (N2Z.is_nonneg c).
  simpl Z.of_N in *. Z.div_mod_to_equations. lia.
Qed.

Lemma lexRun_silent (st st' : lexstate) (c : N) (r : jsstring) :
  lexStep st c = Some (st', []) -> lexRun st (c :: r) = lexRun st' r.
Proof.
  intros E. cbn [lexRun]. rewrite E.
  by destruct (lexRun st' r) as [[? ?]|].
Qed.

Lemma lexStep_hexDigit (acc : jsstring) (digits : list N) (d : N) :
  d < 16 ->
  lexStep (LUnicode acc digits) (hexDigit d)
  = match digits with
    | [d1; d2; d3] =>
        Some (LString (4096 * d1 + 256 * d2 + 16 * d3 + d :: acc), [])
    | _ => Some (LUnicode acc (digits ++ [d]), [])
    end.
Proof. intros Hd. cbn [lexStep]. by rewrite hexValue_hexDigit. Qed.

Lemma lexRun_UnicodeEscape (acc : jsstring) (c : N) :
  c < 65536 ->
  lexRun (LString acc) (UnicodeEscape c) = Some (LString (c :: acc), []).
Proof.
  intros Hc. unfold UnicodeEscape.
  rewrite (lexRun_silent _ (LEscape acc)) by reflexivity.
  rewrite (lexRun_silent _ (LUnicode acc [])) by reflexivity.
  erewrite lexRun_silent
    by (rewrite lexStep_hexDigit by (by apply N.mod_lt); reflexivity).
  erewrite lexRun_silent
    by (rewrite lexStep_hexDigit by (by apply N.mod_lt); reflexivity).
  erewrite lexRun_silent
    by (rewrite lexStep_hexDigit by (by apply N.mod_lt); reflexivity).
  erewrite lexRun_silent
    by (rewrite lexStep_hexDigit by (by apply N.mod_lt); reflexivity).
  cbn [lexRun]. by rewrite hex_digits_value.
Qed.

Lemma lexRun_escapeUnit (acc : jsstring) (c : N) :
  lexRun (LString acc) (escapeUnit c) = Some (LString (c :: acc), []).
Proof.
  unfold escapeUnit.
  repeat match goal with
  | |- context [if c =? ?k then _ else _] =>
      destruct (c =? k) eqn:?;
      [match goal with E : (c =? k) = true |- _ =>
         apply N.eqb_eq in E; subst c; reflexivity end|]
  end.
  destruct (c <? 32) eqn:E32.
  - apply lexRun_UnicodeEscape. apply N.ltb_lt in E32. lia.
  - cbn [lexRun lexStep].
    by repeat match goal with E : _ = false |- _ => rewrite E; clear E end.
Qed.

Lemma lexStep_verbatim (acc : jsstring) (c : N) :
  c <> 34 -> c <> 92 -> 32 <= c ->
  lexStep (LString acc) c = Some (LString (c :: acc), []).
Proof.
  intros H1 H2 H3. cbn [lexStep].
  replace (c =? 34) with false by (symmetry; by apply N.eqb_neq).
  replace (c =? 92) with false by (symmetry; by apply N.eqb_neq).
  replace (c <? 32) with false by (symmetry; by apply N.ltb_ge).
  done.
Qed.

Lemma lexRun_quoteUnits (s acc : jsstring) :
  lexRun (LString acc) (quoteUnits s) = Some (LString (rev s ++ acc), []).
Proof.
  remember (length s) as n eqn:Hn.
  revert s acc Hn.
  induction n as [n IH] using lt_wf_ind. intros s acc Hn.
  destruct s as [|c r]; [done|].
  assert (Hstep : forall piece rest acc',
    lexRun (LString acc) piece = Some (LString acc', []) ->
    (length rest < n)%nat ->
    lexRun (LString acc) (piece ++ quoteUnits rest)
    = Some (LString (rev rest ++ acc'), [])).
  { intros piece rest acc' Hp Hlen.
    by rewrite lexRun_app, Hp, (IH (length rest) Hlen rest acc'). }
  cbn [quoteUnits]. cbn [length] in Hn.
  destruct (isLeadingSurrogate c) eqn:Hlead.
  - assert (Hc : 55296 <= c <= 56319).
    { unfold isLeadingSurrogate in Hlead.
      apply andb_true_iff in Hlead as [H1 H2].
      apply N.leb_le in H1, H2. lia. }
    destruct r as [|d r'].
    + rewrite lexRun_UnicodeEscape by lia. done.
    + destruct (isTrailingSurrogate d) eqn:Htrail.
      * assert (Hd : 56320 <= d <= 57343).
        { unfold isTrailingSurrogate in Htrail.
          apply andb_true_iff in Htrail as [H1 H2].
          apply N.leb_le in H1, H2. lia. }
        change (c :: d :: quoteUnits r') with ([c; d] ++ quoteUnits r').
        rewrite (Hstep [c; d] r' (d :: c :: acc)).
        -- cbn [rev]. by rewrite <- !app_assoc.
        -- rewrite (lexRun_silent _ (LString (c :: acc)))
             by (apply lexStep_verbatim; lia).
           rewrite (lexRun_silent _ (LString (d :: c :: acc)))
             by (apply lexStep_verbatim; lia).
           done.
        -- cbn [length] in Hn. lia.
      * rewrite (Hstep _ (d :: r') (c :: acc)).
        -- cbn [rev]. by rewrite <- !app_assoc.
        -- apply lexRun_UnicodeEscape. lia.
        -- lia.
  - destruct (isTrailingSurrogate c) eqn:Htrail.
    + assert (Hc : 56320 <= c <= 57343).
      { unfold isTrailingSurrogate in Htrail.
        apply andb_true_iff in Htrail as [H1 H2].
        apply N.leb_le in H1, H2. lia. }
      rewrite (Hstep _ r (c :: acc)).
      * cbn [rev]. by rewrite <- !app_assoc.
      * apply lexRun_UnicodeEscape. lia.
      * lia.
    + rewrite (Hstep _ r (c :: acc)).
      * cbn [rev]. by rewrite <- !app_assoc.
      * apply lexRun_escapeUnit.
      * lia.
Qed.

Lemma lexClosed_QuoteJSONString (s : jsstring) :
  lexClosed (QuoteJSONString s) [TString s].
Proof.
  unfold lexClosed, QuoteJSONString.
  change ([34] ++ quoteUnits s ++ [34]) with (34 :: (quoteUnits s ++ [34])).
  rewrite (lexRun_silent _ (LString [])) by reflexivity.
  rewrite lexRun_app, lexRun_quoteUnits.
  cbn [lexRun lexStep]. change (34 =? 34) with true. cbv iota.
  by rewrite !app_nil_r, rev_involutive.
Qed.

(** *** Numbers *)

Lemma numStep_delimiter (ns : numstate) (c : N) :
  isNumberChar c = false -> numStep ns c = None.
Proof.
  unfold isNumberChar, numStep, isExponentMark.
  intros H. repeat (apply orb_false_iff in H as [H ?]).
  assert (H48 : (c =? 48) = false).
  { apply N.eqb_neq. intros ->. done. }
  destruct ns;
    repeat match goal with E : _ = false |- _ => rewrite E; clear E end;
    done.
Qed.

Lemma lexStart_numStart (c : N) (ns : numstate) :
  numStart c = Some ns -> lexStart c = Some (LNumber ns [c], []).
Proof.
  unfold numStart, lexStart, isJSONWhiteSpace. intros Hns.
  assert (Hc : c = 45 \/ 48 <= c <= 57).
  { destruct (c =? 45) eqn:E1; [apply N.eqb_eq in E1; by left|].
    destruct (c =? 48) eqn:E2; [apply N.eqb_eq in E2; right; lia|].
    unfold isDigit in Hns.
    destruct ((48 <=? c) && (c <=? 57)) eqn:E3; [|done].
    apply andb_true_iff in E3 as [H1 H2]. apply N.leb_le in H1, H2.
    right. lia. }
  repeat match goal with
  | |- context [c =? ?k] =>
      lazymatch k with
      | 45 => fail
      | 48 => fail
      | _ => replace (c =? k) with false by (symmetry; apply N.eqb_neq; lia)
      end
  end.
  cbn [orb]. unfold numStart. by rewrite Hns.
Qed.

Lemma lexFrom_number (ns ns' : numstate) (r acc rest : jsstring)
  (toks' : list token) :
  numRun ns r = Some ns' -> numAccepting ns' = true ->
  delimited rest -> lexFrom LStart rest = Some toks' ->
  lexFrom (LNumber ns acc) (r ++ rest)
  = Some (TNumber (rev (rev r ++ acc)) :: toks').
Proof.
  revert ns acc. induction r as [|c r IH]; intros ns acc Hrun Hacc Hd Hrest.
  - injection Hrun as ->. cbn [app rev].
    destruct rest as [|d rest'].
    + cbn [lexFrom lexEnd] in *. rewrite Hacc. by injection Hrest as <-.
    + cbn [lexFrom lexStep] in *. rewrite numStep_delimiter, Hacc by done.
      destruct (lexStart d) as [[st' toks]|]; [|done].
      destruct (lexFrom st' rest'); [|done]. by injection Hrest as <-.
  - cbn [numRun] in Hrun. cbn [app lexFrom lexStep].
    destruct (numStep ns c) as [ns1|]; [|done].
    rewrite (IH ns1 (c :: acc)) by done.
    cbn [rev app]. by rewrite <- !app_assoc.
Qed.

Lemma lexesTo_number (c : jsstring) :
  isNumberLiteral c = true -> lexesTo c [TNumber c].
Proof.
  unfold isNumberLiteral. intros Hc rest toks' Hd Hrest.
  destruct c as [|x r]; [done|].
  destruct (numStart x) as [ns|] eqn:Hns; [|done].
  destruct (numRun ns r) as [ns'|] eqn:Hrun; [|done].
  cbn [app lexFrom lexStep]. rewrite (lexStart_numStart x ns) by done.
  rewrite (lexFrom_number ns ns' r [x] rest toks') by done.
  cbn [app]. rewrite rev_app_distr, rev_involutive. done.
Qed.

(** *** Values *)

Lemma json_nested_ind (P : json -> Prop) :
  P JNull -> (forall b, P (JBool b)) -> (forall n, P (JNumber n)) ->
  (forall s, P (JString s)) ->
  (forall l, Forall P l -> P (JArray l)) ->
  (forall m, Forall (fun kv => P kv.2) m -> P (JObject m)) ->
  forall v, P v.
Proof.
  intros Hnull Hbool Hnum Hstr Harr Hobj.
  fix IH 1. intros [ |b|n|s|l|m].
  - exact Hnull.
  - apply Hbool.
  - apply Hnum.
  - apply Hstr.
  - apply Harr. induction l as [|x l IHl]; constructor; [apply IH|exact IHl].
  - apply Hobj. induction m as [|[k x] m IHm]; constructor;
      [apply IH|exact IHm].
Qed.

Lemma lexClosed_blank (s : jsstring) : blank s -> lexClosed s [].
Proof.
  unfold lexClosed. induction 1 as [|c s Hc _ IH]; [done|].
  rewrite (lexRun_silent _ LStart); [done|].
  cbn [lexStep]. unfold lexStart. by rewrite Hc.
Qed.

Lemma blank_indent (indent : jsstring) : blank indent -> blank (indent ++ gap).
Proof.
  intros H. apply Forall_app. split; [done|]. by repeat constructor.
Qed.

Lemma blank_LF (indent : jsstring) : blank indent -> blank (LF ++ indent).
Proof. intros H. by constructor. Qed.

Lemma lexesTo_app (a b : jsstring) (c : N) (ta tb : list token) :
  lexesTo a ta -> isNumberChar c = false -> lexesTo (c :: b) tb ->
  lexesTo (a ++ c :: b) (ta ++ tb).
Proof.
  intros Ha Hc Hb rest toks' Hd Hrest.
  rewrite <- !app_assoc. apply Ha; [done|]. by apply Hb.
Qed.

Lemma lexesTo_join {A} (f : A -> jsstring) (g : A -> list token)
  (c : N) (sep : jsstring) (tsep : list token) (l : list A) :
  isNumberChar c = false -> lexClosed (c :: sep) tsep ->
  Forall (fun x => lexesTo (f x) (g x)) l -> l <> [] ->
  lexesTo (join (c :: sep) (List.map f l)) (join tsep (List.map g l)).
Proof.
  intros Hc Hsep Hall. induction Hall as [|x l Hx Hl IH]; intros Hne; [done|].
  destruct l as [|y l]; [done|].
  change (join (c :: sep) (List.map f (x :: y :: l)))
    with (f x ++ c :: (sep ++ join (c :: sep) (List.map f (y :: l)))).
  change (join tsep (List.map g (x :: y :: l)))
    with (g x ++ tsep ++ join tsep (List.map g (y :: l))).
  apply lexesTo_app; [done..|].
  apply (lexesTo_closed_l (c :: sep)); [done|]. by apply IH.
Qed.

Section LexSerialized.
Context `{Numbers}.

Lemma lexesTo_Serialize (v : json) :
  forall indent, wellFormed v = true -> blank indent ->
  lexesTo (SerializeJSONProperty indent v) (tokens v).
Proof.
  induction v as [ |b|n|s|l IH|m IH] using json_nested_ind;
    intros indent Hwf Hblank.
  - by apply lexClosed_lexesTo.
  - destruct b; by apply lexClosed_lexesTo.
  - destruct n as [c|]; [|by apply lexClosed_lexesTo].
    apply lexesTo_number. cbn [wellFormed] in Hwf.
    by apply andb_true_iff in Hwf as [? _].
  - apply lexClosed_lexesTo, lexClosed_QuoteJSONString.
  - destruct l as [|e l]; [by apply lexClosed_lexesTo|].
    cbn [SerializeJSONProperty tokens].
    set (indent' := indent ++ gap).
    assert (Hblank' : blank indent') by by apply blank_indent.
    apply (lexesTo_closed_l (js "[" ++ LF ++ indent') _ [TLBracket]).
    { apply (lexClosed_app (js "[") _ [TLBracket] []); [done|].
      by apply lexClosed_blank, blank_LF. }
    change (LF ++ indent ++ js "]") with (10 :: (indent ++ js "]")).
    apply lexesTo_app; [|done|].
    + apply (lexesTo_join _ _ 44 (LF ++ indent') [TComma]); [done| |  |done].
      * apply (lexClosed_app (js ",") _ [TComma] []); [done|].
        by apply lexClosed_blank, blank_LF.
      * cbn [wellFormed] in Hwf.
        pose proof (proj1 (forallb_forall _ _) Hwf) as Hwf'.
        apply Forall_forall. intros x Hx. rewrite Forall_forall in IH.
        apply IH; [done|by apply Hwf', list_elem_of_In|done].
    + apply lexClosed_lexesTo.
      apply (lexClosed_app (LF ++ indent) (js "]") [] [TRBracket]); [|done].
      by apply lexClosed_blank, blank_LF.
  - destruct m as [|e m]; [by apply lexClosed_lexesTo|].
    cbn [SerializeJSONProperty tokens].
    set (indent' := indent ++ gap).
    assert (Hblank' : blank indent') by by apply blank_indent.
    apply (lexesTo_closed_l (js "{" ++ LF ++ indent') _ [TLBrace]).
    { apply (lexClosed_app (js "{") _ [TLBrace] []); [done|].
      by apply lexClosed_blank, blank_LF. }
    change (LF ++ indent ++ js "}") with (10 :: (indent ++ js "}")).
    apply lexesTo_app; [|done|].
    + apply (lexesTo_join
               (fun kv => QuoteJSONString kv.1 ++ js ": "
                          ++ SerializeJSONProperty indent' kv.2)
               (fun kv => [TString kv.1; TColon] ++ tokens kv.2)
               44 (LF ++ indent') [TComma]); [done| |  |done].
      * apply (lexClosed_app (js ",") _ [TComma] []); [done|].
        by apply lexClosed_blank, blank_LF.
      * cbn [wellFormed] in Hwf. apply andb_true_iff in Hwf as [_ Hwf].
        pose proof (proj1 (forallb_forall _ _) Hwf) as Hwf'.
        apply Forall_forall. intros x Hx. rewrite Forall_forall in IH.
        rewrite app_assoc.
        apply (lexesTo_closed_l _ _ [TString x.1; TColon]).
        -- apply (lexClosed_app _ (js ": ") [TString x.1] [TColon]);
             [apply lexClosed_QuoteJSONString|done].
        -- apply IH; [done|by apply Hwf', list_elem_of_In|done].
    + apply lexClosed_lexesTo.
      apply (lexClosed_app (LF ++ indent) (js "}") [] [TRBrace]); [|done].
      by apply lexClosed_blank, blank_LF.
Qed.

(** The text [_patchPackageJSON] writes lexes to the tokens of the
    value. *)
Lemma lexFrom_stringified (v : json) :
  wellFormed v = true ->
  lexFrom LStart (JSON_stringify v ++ LF) = Some (tokens v).
Proof.
  intros Hwf.
  assert (Hblank : blank []) by constructor.
  unfold JSON_stringify.
  rewrite (lexesTo_Serialize v [] Hwf Hblank LF []); [|done..].
  by rewrite app_nil_r.
Qed.
End LexSerialized.

(** ** Objects: keys in property order *)

Section Keys.
Context {V : Type}.
Implicit Types (m : list (jsstring * V)) (k : jsstring) (v : V).

Lemma lookupKey_None k m : lookupKey k m = None <-> ~ In k (List.map fst m).
Proof.
  induction m as [|[k' v'] m IH]; cbn [lookupKey List.map fst In].
  - tauto.
  - case_bool_decide; subst.
    + split; [done|]. intros Hn. destruct Hn. by left.
    + rewrite IH. split; [intros Hn [E|Hin]; [done|tauto]|tauto].
Qed.

Lemma lookupKey_In k v m : lookupKey k m = Some v -> In (k, v) m.
Proof.
  induction m as [|[k' v'] m IH]; cbn [lookupKey]; [done|].
  case_bool_decide; subst.
  - intros [= ->]. by left.
  - intros Hl. right. by apply IH.
Qed.

Lemma keys_replaceKey k v m :
  List.map fst (replaceKey k v m) = List.map fst m.
Proof.
  induction m as [|[k' v'] m IH]; cbn [replaceKey List.map fst]; [done|].
  case_bool_decide; subst; cbn [List.map fst]; [done|by rewrite IH].
Qed.

Lemma lookupKey_replaceKey k k' v m :
  lookupKey k' (replaceKey k v m)
  = if bool_decide (k' = k)
    then match lookupKey k m with Some _ => Some v | None => None end
    else lookupKey k' m.
Proof.
  induction m as [|[k0 v0] m IH]; cbn [replaceKey lookupKey].
  - by case_bool_decide.
  - destruct (bool_decide (k = k0)) eqn:E0.
    + apply bool_decide_eq_true in E0 as <-. cbn [lookupKey].
      by destruct (bool_decide (k' = k)).
    + apply bool_decide_eq_false in E0. cbn [lookupKey]. rewrite IH.
      destruct (bool_decide (k' = k0)) eqn:E1; [|done].
      apply bool_decide_eq_true in E1 as ->.
      by rewrite bool_decide_eq_false_2 by done.
Qed.

Lemma replaceKey_same k v m : lookupKey k m = Some v -> replaceKey k v m = m.
Proof.
  induction m as [|[k0 v0] m IH]; cbn [replaceKey lookupKey]; [done|].
  case_bool_decide; subst.
  - by intros [= ->].
  - intros Hl. by rewrite IH.
Qed.

Lemma setKey_same k v m : lookupKey k m = Some v -> setKey k v m = m.
Proof. intros Hl. unfold setKey. rewrite Hl. by apply replaceKey_same. Qed.

Lemma In_insertIndex i k v m x :
  In x (insertIndex i k v m) <-> x = (k, v) \/ In x m.
Proof.
  induction m as [|[k' v'] m IH]; cbn [insertIndex In]; [intuition congruence|].
  destruct (arrayIndex k') as [j|]; [|cbn [In]; intuition congruence].
  destruct (j <? i); cbn [In]; [rewrite IH|]; intuition congruence.
Qed.

Lemma In_setKey k v m x : In x (setKey k v m) -> x = (k, v) \/ In x m.
Proof.
  unfold setKey. destruct (lookupKey k m) as [v0|].
  - induction m as [|[k' v'] m IH]; cbn [replaceKey In]; [intuition congruence|].
    case_bool_decide; cbn [In]; intuition congruence.
  - destruct (arrayIndex k) as [i|].
    + by rewrite In_insertIndex.
    + rewrite in_app_iff. cbn [In]. intuition congruence.
Qed.

Lemma lookupKey_insertIndex i k k' v m :
  lookupKey k m = None ->
  lookupKey k' (insertIndex i k v m)
  = if bool_decide (k' = k) then Some v else lookupKey k' m.
Proof.
  induction m as [|[k0 v0] m IH]; cbn [insertIndex lookupKey]; [done|].
  destruct (bool_decide (k = k0)) eqn:E0; [done|].
  apply bool_decide_eq_false in E0. intros Hl.
  destruct (arrayIndex k0) as [j|]; [destruct (j <? i)|]; cbn [lookupKey];
    rewrite ?IH by done;
    destruct (bool_decide (k' = k0)) eqn:E1; try done;
    apply bool_decide_eq_true in E1 as ->;
    by rewrite bool_decide_eq_false_2 by done.
Qed.

Lemma lookupKey_app k m m' :
  lookupKey k (m ++ m')
  = match lookupKey k m with Some v => Some v | None => lookupKey k m' end.
Proof.
  induction m as [|[k0 v0] m IH]; cbn [app lookupKey]; [done|].
  by case_bool_decide.
Qed.

Lemma lookupKey_setKey k k' v m :
  lookupKey k' (setKey k v m)
  = if bool_decide (k' = k) then Some v else lookupKey k' m.
Proof.
  unfold setKey. destruct (lookupKey k m) as [v0|] eqn:Hl.
  - by rewrite lookupKey_replaceKey, Hl.
  - destruct (arrayIndex k) as [i|].
    + by apply lookupKey_insertIndex.
    + rewrite lookupKey_app. cbn [lookupKey].
      destruct (bool_decide (k' = k)) eqn:E.
      * apply bool_decide_eq_true in E as ->. by rewrite Hl.
      * by destruct (lookupKey k' m).
Qed.

Lemma In_deleteKey k m x : In x (deleteKey k m) -> In x m.
Proof.
  induction m as [|[k' v'] m IH]; cbn [deleteKey In]; [done|].
  case_bool_decide; cbn [In]; intuition congruence.
Qed.
End Keys.

Lemma arrayIndex_inj (k k' : jsstring) (i : N) :
  arrayIndex k = Some i -> arrayIndex k' = Some i -> k = k'.
Proof.
  unfold arrayIndex. intros H1 H2.
  destruct (digitsValue k) as [n|]; [|done].
  destruct (digitsValue k') as [n'|]; [|done].
  destruct (_ && _) eqn:E1 in H1; [|done].
  destruct (_ && _) eqn:E2 in H2; [|done].
  injection H1 as ->. injection H2 as ->.
  apply andb_true_iff in E1 as [_ E1]. apply andb_true_iff in E2 as [_ E2].
  apply bool_decide_eq_true in E1, E2. congruence.
Qed.

Lemma keyBefore_ne (k k' : jsstring) : keyBefore k k' = true -> k <> k'.
Proof.
  unfold keyBefore. intros H. apply andb_true_iff in H as [H _].
  apply negb_true_iff in H. by apply bool_decide_eq_false in H.
Qed.

Lemma keysOrdered_snoc_inv (ks : list jsstring) (k : jsstring) :
  keysOrdered (ks ++ [k]) = true ->
  Forall (fun k' => keyBefore k' k = true) ks /\ keysOrdered ks = true.
Proof.
  induction ks as [|x ks IH]; cbn [app keysOrdered]; [by split|].
  intros H. apply andb_true_iff in H as [Hx Hks].
  rewrite forallb_app in Hx. apply andb_true_iff in Hx as [Hx1 Hx2].
  cbn [forallb] in Hx2. rewrite andb_true_r in Hx2.
  destruct (IH Hks) as [IH1 IH2]. split; [by constructor|].
  by rewrite Hx1, IH2.
Qed.

Lemma keysOrdered_snoc (ks : list jsstring) (k : jsstring) :
  keysOrdered ks = true -> Forall (fun k' => keyBefore k' k = true) ks ->
  keysOrdered (ks ++ [k]) = true.
Proof.
  induction ks as [|x ks IH]; cbn [app keysOrdered]; [done|].
  intros H Hall. apply andb_true_iff in H as [Hx Hks].
  inversion Hall as [|? ? Hxk Hall']; subst.
  rewrite forallb_app, Hx. cbn [forallb]. rewrite Hxk. cbn [andb].
  by apply IH.
Qed.

Lemma keysOrdered_app_l (ks ks' : list jsstring) :
  keysOrdered (ks ++ ks') = true -> keysOrdered ks = true.
Proof.
  induction ks as [|x ks IH]; cbn [app keysOrdered]; [done|].
  intros H. apply andb_true_iff in H as [Hx Hks].
  rewrite forallb_app in Hx. apply andb_true_iff in Hx as [Hx1 _].
  by rewrite Hx1, IH.
Qed.

Lemma keysOrdered_NoDup (ks : list jsstring) (k : jsstring) :
  keysOrdered (k :: ks) = true -> ~ In k ks.
Proof.
  cbn [keysOrdered]. intros H Hin. apply andb_true_iff in H as [H _].
  pose proof (proj1 (forallb_forall _ _) H k Hin) as Hk.
  by apply keyBefore_ne in Hk.
Qed.

Section OrderedKeys.
Context {V : Type}.
Implicit Types (m : list (jsstring * V)) (k : jsstring) (v : V).

Lemma setKey_snoc k v m :
  keysOrdered (List.map fst (m ++ [(k, v)])) = true ->
  setKey k v m = m ++ [(k, v)].
Proof.
  rewrite map_app. cbn [List.map fst]. intros H.
  apply keysOrdered_snoc_inv in H as [Hall _].
  assert (Hl : lookupKey k m = None).
  { apply lookupKey_None. intros Hin.
    rewrite Forall_forall in Hall.
    apply list_elem_of_In in Hin. by apply Hall, keyBefore_ne in Hin. }
  unfold setKey. rewrite Hl.
  destruct (arrayIndex k) as [i|] eqn:Hi; [|done].
  clear Hl. induction m as [|[k' v'] m IH]; [done|].
  cbn [List.map fst] in Hall. inversion Hall as [|? ? Hk' Hall']; subst.
  cbn [insertIndex app]. unfold keyBefore in Hk'. rewrite Hi in Hk'.
  apply andb_true_iff in Hk' as [_ Hk'].
  destruct (arrayIndex k') as [j|]; [|done].
  rewrite Hk'. by rewrite IH.
Qed.

Lemma keys_insertIndex_ordered i k v m :
  arrayIndex k = Some i -> ~ In k (List.map fst m) ->
  keysOrdered (List.map fst m) = true ->
  keysOrdered (List.map fst (insertIndex i k v m)) = true.
Proof.
  intros Hi. induction m as [|[k' v'] m IH]; intros Hnin Hord; [done|].
  cbn [List.map fst In] in Hnin.
  assert (Hne : k <> k') by (intros ->; apply Hnin; by left).
  assert (Hnin' : ~ In k (List.map fst m)) by tauto.
  cbn [insertIndex].
  cbn [List.map fst keysOrdered] in Hord.
  apply andb_true_iff in Hord as [Hk' Hm].
  assert (Hfirst : match arrayIndex k' with
                   | Some j => (j <? i) = false
                   | None => True
                   end ->
                   keysOrdered (List.map fst ((k, v) :: (k', v') :: m)) = true).
  { intros Hj. cbn [List.map fst keysOrdered forallb].
    rewrite Hk', Hm. rewrite !andb_true_r.
    assert (Hkk' : keyBefore k k' = true).
    { unfold keyBefore. rewrite bool_decide_eq_false_2 by done.
      rewrite Hi. cbn [negb andb].
      destruct (arrayIndex k') as [j|] eqn:Hj'; [|done].
      apply N.ltb_lt. apply N.ltb_ge in Hj.
      assert (j <> i); [|lia].
      intros ->. apply Hne. by eapply arrayIndex_inj. }
    rewrite Hkk'. cbn [andb].
    apply forallb_forall. intros x Hx.
    pose proof (proj1 (forallb_forall _ _) Hk' x Hx) as Hk'x.
    unfold keyBefore in *. rewrite Hi in *.
    rewrite bool_decide_eq_false_2 by (by intros ->). cbn [negb andb].
    apply andb_true_iff in Hk'x as [_ Hk'x].
    apply andb_true_iff in Hkk' as [_ Hkk'].
    destruct (arrayIndex x) as [l|]; [|done].
    destruct (arrayIndex k') as [j|]; [|done].
    apply N.ltb_lt in Hk'x, Hkk'. apply N.ltb_lt. lia. }
  destruct (arrayIndex k') as [j|] eqn:Hj; [|by apply Hfirst].
  destruct (j <? i) eqn:Hji; [|by apply Hfirst].
  cbn [List.map fst keysOrdered]. rewrite IH by done.
  rewrite andb_true_r. apply forallb_forall. intros x Hx.
  apply in_map_iff in Hx as ([x1 x2] & <- & Hx).
  apply In_insertIndex in Hx as [[= -> ->]|Hx].
  - cbn [fst]. unfold keyBefore. rewrite Hj, Hi, Hji.
    by rewrite bool_decide_eq_false_2 by done.
  - apply (proj1 (forallb_forall _ _) Hk'). apply in_map_iff.
    by exists (x1, x2).
Qed.

Lemma keys_setKey_ordered k v m :
  keysOrdered (List.map fst m) = true ->
  keysOrdered (List.map fst (setKey k v m)) = true.
Proof.
  intros Hord. unfold setKey.
  destruct (lookupKey k m) as [v0|] eqn:Hl.
  - by rewrite keys_replaceKey.
  - apply lookupKey_None in Hl.
    destruct (arrayIndex k) as [i|] eqn:Hi.
    + by apply keys_insertIndex_ordered.
    + rewrite map_app. cbn [List.map fst].
      apply keysOrdered_snoc; [done|].
      apply Forall_forall. intros x Hx. apply list_elem_of_In in Hx.
      unfold keyBefore. rewrite Hi.
      rewrite bool_decide_eq_false_2 by (by intros ->).
      by destruct (arrayIndex x).
Qed.

Lemma keys_deleteKey_ordered k m :
  keysOrdered (List.map fst m) = true ->
  keysOrdered (List.map fst (deleteKey k m)) = true.
Proof.
  induction m as [|[k' v'] m IH]; cbn [deleteKey List.map fst keysOrdered];
    [done|].
  intros H. apply andb_true_iff in H as [Hk' Hm].
  case_bool_decide; [done|].
  cbn [List.map fst keysOrdered]. rewrite IH by done.
  rewrite andb_true_r. apply forallb_forall. intros x Hx.
  apply (proj1 (forallb_forall _ _) Hk').
  apply in_map_iff in Hx as (y & <- & Hy). apply in_map_iff.
  exists y. split; [done|]. by eapply In_deleteKey.
Qed.

Lemma lookupKey_deleteKey k k' m :
  keysOrdered (List.map fst m) = true ->
  lookupKey k' (deleteKey k m)
  = if bool_decide (k' = k) then None else lookupKey k' m.
Proof.
  induction m as [|[k0 v0] m IH]; cbn [deleteKey lookupKey].
  - by case_bool_decide.
  - intros Hord.
    pose proof (keysOrdered_NoDup _ _ Hord) as Hnin.
    cbn [List.map fst keysOrdered] in Hord.
    apply andb_true_iff in Hord as [_ Hord].
    destruct (bool_decide (k = k0)) eqn:E0.
    + apply bool_decide_eq_true in E0 as <-.
      destruct (bool_decide (k' = k)) eqn:E1; [|done].
      apply bool_decide_eq_true in E1 as ->. by apply lookupKey_None.
    + apply bool_decide_eq_false in E0. cbn [lookupKey]. rewrite IH by done.
      destruct (bool_decide (k' = k0)) eqn:E1; [|done].
      apply bool_decide_eq_true in E1 as ->.
      by rewrite bool_decide_eq_false_2 by done.
Qed.
End OrderedKeys.

(** ** The parser rebuilds what the tokens were printed from *)

Section ParseTokens.
Context `{Numbers}.

Lemma parseRun_app (st : parsestate) (a b : list token) :
  parseRun st (a ++ b)
  = match parseRun st a with
    | Some st' => parseRun st' b
    | None => None
    end.
Proof.
  revert st. induction a as [|t a IH]; intros st; cbn [app parseRun]; [done|].
  by destruct (parseStep st t).
Qed.

Lemma parseFrom_parseRun (st : parsestate) (toks : list token) :
  parseFrom st toks
  = match parseRun st toks with
    | Some (PAfter v []) => Some v
    | _ => None
    end.
Proof.
  revert st. induction toks as [|t toks IH]; intros st;
    cbn [parseFrom parseRun].
  - by destruct st as [ | | | | |v [|]].
  - by destruct (parseStep st t).
Qed.

Lemma parseRun_ArrayStart (v : json) (stack : list frame)
  (rest : list token) :
  parseRun (PArrayStart stack) (tokens v ++ rest)
  = parseRun (PValue (FArray [] :: stack)) (tokens v ++ rest).
Proof. by destruct v as [ |[|]|[c|]|s|[|e l]|[|e m]]. Qed.

Lemma parseRun_ArrayStart_join (e : json) (l : list json)
  (stack : list frame) (rest : list token) :
  parseRun (PArrayStart stack)
    (join [TComma] (List.map tokens (e :: l)) ++ rest)
  = parseRun (PValue (FArray [] :: stack))
      (join [TComma] (List.map tokens (e :: l)) ++ rest).
Proof.
  destruct l as [|e' l].
  - cbn [List.map join]. apply parseRun_ArrayStart.
  - change (join [TComma] (List.map tokens (e :: e' :: l)))
      with (tokens e ++ [TComma] ++ join [TComma] (List.map tokens (e' :: l))).
    rewrite <- !app_assoc. apply parseRun_ArrayStart.
Qed.

Lemma parseRun_elements (l : list json) :
  forall (e : json) (acc : list json) (stack : list frame),
    Forall readsBack (e :: l) ->
    parseRun (PValue (FArray acc :: stack))
      (join [TComma] (List.map tokens (e :: l)) ++ [TRBracket])
    = Some (PAfter (JArray (rev acc ++ List.map norm (e :: l))) stack).
Proof.
  induction l as [|e' l IH]; intros e acc stack Hall;
    inversion Hall as [|? ? He Hl]; subst.
  - cbn [List.map join]. rewrite parseRun_app, He. done.
  - change (join [TComma] (List.map tokens (e :: e' :: l)))
      with (tokens e ++ [TComma] ++ join [TComma] (List.map tokens (e' :: l))).
    rewrite <- !app_assoc, parseRun_app, He.
    cbn [app parseRun parseStep]. rewrite IH by done.
    cbn [rev List.map]. by rewrite <- !app_assoc.
Qed.

Lemma parseRun_members (m : list (jsstring * json)) :
  forall (e : jsstring * json) (acc : list (jsstring * json))
    (stack : list frame),
    Forall (fun kv => readsBack kv.2) (e :: m) ->
    parseRun (PKey acc stack)
      (join [TComma] (List.map memberTokens (e :: m)) ++ [TRBrace])
    = Some (PAfter
              (JObject (fold_left (fun a kv => setKey kv.1 (norm kv.2) a)
                          (e :: m) acc)) stack).
Proof.
  induction m as [|e' m IH]; intros [k v] acc stack Hall;
    inversion Hall as [|? ? He Hl]; subst; cbn [fst snd] in He.
  - cbn [List.map join]. unfold memberTokens. cbn [fst snd].
    cbn [app parseRun parseStep]. rewrite parseRun_app, He. done.
  - change (join [TComma] (List.map memberTokens ((k, v) :: e' :: m)))
      with ([TString k; TColon] ++ tokens v ++ [TComma]
            ++ join [TComma] (List.map memberTokens (e' :: m))).
    rewrite <- !app_assoc.
    cbn [app parseRun parseStep]. rewrite parseRun_app, He.
    cbn [app parseRun parseStep]. by rewrite IH.
Qed.

Lemma fold_setKey_ordered (m acc : list (jsstring * json)) :
  keysOrdered (List.map fst (acc ++ m)) = true ->
  fold_left (fun a kv => setKey kv.1 (norm kv.2) a) m acc
  = acc ++ List.map normMember m.
Proof.
  revert acc. induction m as [|[k v] m IH]; intros acc Hord.
  - by rewrite app_nil_r.
  - cbn [fold_left fst snd List.map].
    assert (Hk : setKey k (norm v) acc = acc ++ [(k, norm v)]).
    { apply setKey_snoc. rewrite map_app. cbn [List.map fst].
      apply (keysOrdered_app_l _ (List.map fst m)).
      rewrite <- app_assoc. by rewrite map_app in Hord. }
    rewrite Hk, IH.
    + rewrite <- app_assoc. done.
    + rewrite <- app_assoc, !map_app. cbn [List.map fst app].
      by rewrite map_app in Hord.
Qed.

Lemma parseRun_tokens (v : json) :
  wellFormed v = true -> readsBack v.
Proof.
  induction v as [ |b|n|s|l IH|m IH] using json_nested_ind;
    intros Hwf stack.
  - done.
  - by destruct b.
  - destruct n as [c|]; [|done].
    cbn [wellFormed] in Hwf. apply andb_true_iff in Hwf as [_ Hc].
    apply bool_decide_eq_true in Hc.
    cbn [tokens parseRun parseStep parseValue norm]. by rewrite Hc.
  - done.
  - destruct l as [|e l]; [done|].
    cbn [wellFormed] in Hwf.
    pose proof (proj1 (forallb_forall _ _) Hwf) as Hwf'.
    assert (Hall : Forall readsBack (e :: l)).
    { apply Forall_forall. intros x Hx. rewrite Forall_forall in IH.
      apply IH; [done|]. by apply Hwf', list_elem_of_In. }
    cbn [tokens]. cbn [app parseRun parseStep parseValue].
    by rewrite parseRun_ArrayStart_join, parseRun_elements.
  - destruct m as [|[k v] m]; [done|].
    cbn [wellFormed] in Hwf. apply andb_true_iff in Hwf as [Hord Hwf].
    pose proof (proj1 (forallb_forall _ _) Hwf) as Hwf'.
    assert (Hall : Forall (fun kv => readsBack kv.2) ((k, v) :: m)).
    { apply Forall_forall. intros x Hx. rewrite Forall_forall in IH.
      apply IH; [done|]. by apply Hwf', list_elem_of_In. }
    cbn [tokens norm].
    change (fun kv : jsstring * json => [TString kv.1; TColon] ++ tokens kv.2)
      with memberTokens.
    change (fun kv : jsstring * json => (kv.1, norm kv.2)) with normMember.
    pose proof (parseRun_members m (k, v) [] stack Hall) as Hm.
    rewrite fold_setKey_ordered in Hm by done.
    cbn [app] in Hm. rewrite <- Hm.
    assert (Hstart : forall rest,
      parseRun (PValue stack) (TLBrace :: memberTokens (k, v) ++ rest)
      = parseRun (PKey [] stack) (memberTokens (k, v) ++ rest)) by done.
    destruct m as [|e m].
    + cbn [List.map join app]. apply Hstart.
    + change (join [TComma] (List.map memberTokens ((k, v) :: e :: m)))
        with (memberTokens (k, v) ++ [TComma]
              ++ join [TComma] (List.map memberTokens (e :: m))).
      rewrite <- !app_assoc. apply Hstart.
Qed.

(** What [JSON.parse] reads from the text that was printed for [v] *)
Lemma JSON_parse_stringified (v : json) :
  wellFormed v = true ->
  JSON_parse (JSON_stringify v ++ LF) = Some (norm v).
Proof.
  intros Hwf. unfold JSON_parse.
  rewrite lexFrom_stringified by done.
  by rewrite parseFrom_parseRun, parseRun_tokens.
Qed.

(** *** [JSON.parse] builds well-formed values *)

Lemma wfMembers_setKey (k : jsstring) (v : json)
  (m : list (jsstring * json)) :
  wfMembers m = true -> wellFormed v = true ->
  wfMembers (setKey k v m) = true.
Proof.
  unfold wfMembers. intros Hm Hv. apply andb_true_iff in Hm as [Hord Hm].
  rewrite keys_setKey_ordered by done. cbn [andb].
  apply forallb_forall. intros x Hx.
  apply In_setKey in Hx as [->|Hx]; [done|].
  by apply (proj1 (forallb_forall _ _) Hm).
Qed.

Lemma wfMembers_deleteKey (k : jsstring) (m : list (jsstring * json)) :
  wfMembers m = true -> wfMembers (deleteKey k m) = true.
Proof.
  unfold wfMembers. intros Hm. apply andb_true_iff in Hm as [Hord Hm].
  rewrite keys_deleteKey_ordered by done. cbn [andb].
  apply forallb_forall. intros x Hx. apply In_deleteKey in Hx.
  by apply (proj1 (forallb_forall _ _) Hm).
Qed.

Context `{!CanonicalNumbers}.

Lemma wellFormed_number (t : jsstring) :
  wellFormed (JNumber (Number_of_literal t)) = true.
Proof.
  cbn [wellFormed]. destruct (Number_of_literal t) as [c|] eqn:E; [|done].
  destruct (canonical_number t c E) as [H1 H2].
  rewrite H1. by apply bool_decide_eq_true.
Qed.

Lemma parseStep_wf (st st' : parsestate) (tok : token) :
  wfState st = true -> parseStep st tok = Some st' -> wfState st' = true.
Proof.
  assert (Hvalue : forall stack,
    forallb wfFrame stack = true ->
    parseValue stack tok = Some st' -> wfState st' = true).
  { intros stack Hstack Hp.
    destruct tok; cbn [parseValue] in Hp; try done;
      injection Hp as <-; cbn [wfState];
      by rewrite ?wellFormed_number, ?Hstack. }
  destruct st as [stack|stack|stack|m stack|m k stack|v stack];
    cbn [wfState parseStep]; intros Hwf Hstep.
  - by eapply Hvalue.
  - destruct tok; try (by eapply (Hvalue (FArray [] :: stack))).
    by injection Hstep as <-.
  - destruct tok; try done; by injection Hstep as <-.
  - destruct tok; try done. by injection Hstep as <-.
  - destruct tok; try done. injection Hstep as <-.
    apply andb_true_iff in Hwf as [Hm Hs]. cbn [wfState forallb wfFrame].
    by rewrite Hm, Hs.
  - apply andb_true_iff in Hwf as [Hv Hs].
    destruct stack as [|[elements|m k] stack]; [done|..];
      cbn [forallb wfFrame] in Hs; apply andb_true_iff in Hs as [Hf Hs];
      destruct tok; try done; injection Hstep as <-;
      cbn [wfState forallb wfFrame].
    + rewrite Hs, andb_true_r. cbn [wellFormed rev]. rewrite forallb_app.
      cbn [forallb]. rewrite Hv, andb_true_r.
      rewrite forallb_forall. intros x Hx. apply in_rev in Hx.
      by apply (proj1 (forallb_forall _ _) Hf).
    + by rewrite Hv, Hf, Hs.
    + rewrite Hs, andb_true_r. by apply wfMembers_setKey.
    + by rewrite wfMembers_setKey, Hs.
Qed.

Lemma parseFrom_wf (toks : list token) :
  forall (st : parsestate) (v : json),
    wfState st = true -> parseFrom st toks = Some v ->
    wellFormed v = true.
Proof.
  induction toks as [|t toks IH]; intros st v Hwf Hp; cbn [parseFrom] in Hp.
  - destruct st as [ | | | | |v' [|]]; try done. injection Hp as ->.
    cbn [wfState] in Hwf. by apply andb_true_iff in Hwf as [? _].
  - destruct (parseStep st t) as [st'|] eqn:E; [|done].
    eapply IH; [|exact Hp]. by eapply parseStep_wf.
Qed.

Lemma JSON_parse_wf (text : jsstring) (v : json) :
  JSON_parse text = Some v -> wellFormed v = true.
Proof.
  unfold JSON_parse. destruct (lexFrom LStart text) as [toks|]; [|done].
  by apply parseFrom_wf.
Qed.
End ParseTokens.

(** *** [JSON.parse] builds objects whose keys are in property order *)

Lemma keys_setKey_plain {V} (k : jsstring) (v : V) (m : list (jsstring * V)) :
  arrayIndex k = None ->
  List.map fst (setKey k v m)
  = if given (lookupKey k m) then List.map fst m else List.map fst m ++ [k].
Proof.
  intros Hk. unfold setKey. destruct (lookupKey k m); cbn [given].
  - apply keys_replaceKey.
  - rewrite Hk. by rewrite map_app.
Qed.

Lemma scripts_not_index : arrayIndex (js "scripts") = None.
Proof. by vm_compute. Qed.

Lemma test_ne_test_ct : js "test" <> js "test-ct".
Proof. by vm_compute. Qed.

Lemma test_ct_not_index : arrayIndex (js "test-ct") = None.
Proof. by vm_compute. Qed.

Lemma filter_keeps_all {A} (f : A -> bool) (l : list A) :
  (forall x, In x l -> f x = true) -> List.filter f l = l.
Proof.
  induction l as [|x l IH]; intros Hall; [done|].
  cbn [List.filter]. rewrite (Hall x) by by left.
  rewrite IH; [done|]. intros y Hy. apply Hall. by right.
Qed.

Lemma keys_deleteKey {V} (k : jsstring) (m : list (jsstring * V)) :
  keysOrdered (List.map fst m) = true ->
  List.map fst (deleteKey k m)
  = List.filter (fun k' => negb (bool_decide (k' = k))) (List.map fst m).
Proof.
  induction m as [|[k0 v0] m IH]; [done|].
  cbn [deleteKey List.map fst List.filter]. intros Hord.
  pose proof (keysOrdered_NoDup _ _ Hord) as Hnin.
  cbn [keysOrdered] in Hord. apply andb_true_iff in Hord as [_ Hord].
  destruct (bool_decide (k = k0)) eqn:E.
  - apply bool_decide_eq_true in E as <-.
    rewrite bool_decide_eq_true_2 by done. cbn [negb].
    symmetry. apply filter_keeps_all. intros x Hx.
    apply negb_true_iff, bool_decide_eq_false. by intros ->.
  - apply bool_decide_eq_false in E.
    rewrite (bool_decide_eq_false_2 (k0 = k)) by by intros ->.
    cbn [negb List.map fst]. by rewrite IH.
Qed.

Section ParseKeys.
Context `{Numbers}.

Lemma keyedMembers_setKey (k : jsstring) (v : json)
  (m : list (jsstring * json)) :
  keyedMembers m = true -> keyed v = true ->
  keyedMembers (setKey k v m) = true.
Proof.
  unfold keyedMembers. intros Hm Hv. apply andb_true_iff in Hm as [Hord Hm].
  rewrite keys_setKey_ordered by done. cbn [andb].
  apply forallb_forall. intros x Hx.
  apply In_setKey in Hx as [->|Hx]; [done|].
  by apply (proj1 (forallb_forall _ _) Hm).
Qed.

Lemma parseStep_keyed (st st' : parsestate) (tok : token) :
  keyedState st = true -> parseStep st tok = Some st' ->
  keyedState st' = true.
Proof.
  assert (Hvalue : forall stack,
    forallb keyedFrame stack = true ->
    parseValue stack tok = Some st' -> keyedState st' = true).
  { intros stack Hstack Hp.
    destruct tok; cbn [parseValue] in Hp; try done;
      injection Hp as <-; cbn [keyedState keyed]; by rewrite ?Hstack. }
  destruct st as [stack|stack|stack|m stack|m k stack|v stack];
    cbn [keyedState parseStep]; intros Hwf Hstep.
  - by eapply Hvalue.
  - destruct tok; try (by eapply (Hvalue (FArray [] :: stack))).
    by injection Hstep as <-.
  - destruct tok; try done; by injection Hstep as <-.
  - destruct tok; try done. by injection Hstep as <-.
  - destruct tok; try done. injection Hstep as <-.
    apply andb_true_iff in Hwf as [Hm Hs].
    cbn [keyedState forallb keyedFrame]. by rewrite Hm, Hs.
  - apply andb_true_iff in Hwf as [Hv Hs].
    destruct stack as [|[elements|m k] stack]; [done|..];
      cbn [forallb keyedFrame] in Hs; apply andb_true_iff in Hs as [Hf Hs];
      destruct tok; try done; injection Hstep as <-;
      cbn [keyedState forallb keyedFrame].
    + rewrite Hs, andb_true_r. cbn [keyed rev]. rewrite forallb_app.
      cbn [forallb]. rewrite Hv, andb_true_r.
      rewrite forallb_forall. intros x Hx. apply in_rev in Hx.
      by apply (proj1 (forallb_forall _ _) Hf).
    + by rewrite Hv, Hf, Hs.
    + rewrite Hs, andb_true_r. by apply keyedMembers_setKey.
    + by rewrite keyedMembers_setKey, Hs.
Qed.

Lemma parseFrom_keyed (toks : list token) :
  forall (st : parsestate) (v : json),
    keyedState st = true -> parseFrom st toks = Some v -> keyed v = true.
Proof.
  induction toks as [|t toks IH]; intros st v Hwf Hp; cbn [parseFrom] in Hp.
  - destruct st as [ | | | | |v' [|]]; try done. injection Hp as ->.
    cbn [keyedState] in Hwf. by apply andb_true_iff in Hwf as [? _].
  - destruct (parseStep st t) as [st'|] eqn:E; [|done].
    eapply IH; [|exact Hp]. by eapply parseStep_keyed.
Qed.

Lemma JSON_parse_keyed (text : jsstring) (v : json) :
  JSON_parse text = Some v -> keyed v = true.
Proof.
  unfold JSON_parse. destruct (lexFrom LStart text) as [toks|]; [|done].
  by apply parseFrom_keyed.
Qed.

Lemma keyed_scriptsIn (members : list (jsstring * json)) :
  keyed (JObject members) = true ->
  keysOrdered (List.map fst (scriptsIn members)) = true.
Proof.
  cbn [keyed]. intros Hk. apply andb_true_iff in Hk as [_ Hm].
  unfold scriptsIn.
  destruct (lookupKey (js "scripts") members) as [[ | | | | |s]|] eqn:Hl;
    try done.
  apply lookupKey_In in Hl.
  pose proof (proj1 (forallb_forall _ _) Hm _ Hl) as Hs.
  cbn [snd keyed] in Hs. by apply andb_true_iff in Hs as [? _].
Qed.
End ParseKeys.

(** ** The manifest patch *)

Lemma Serialize_norm (v : json) :
  forall indent,
    SerializeJSONProperty indent (norm v) = SerializeJSONProperty indent v.
Proof.
  induction v as [ |b|n|s|l IH|m IH] using json_nested_ind; intros indent;
    try done.
  - by destruct n.
  - destruct l as [|e l]; [done|].
    assert (E : List.map (SerializeJSONProperty (indent ++ gap))
                  (List.map norm (e :: l))
                = List.map (SerializeJSONProperty (indent ++ gap)) (e :: l)).
    { rewrite List.map_map. apply map_ext_in. intros x Hx.
      rewrite Forall_forall in IH. by apply IH, list_elem_of_In. }
    cbn [norm List.map SerializeJSONProperty] in *. by rewrite E.
  - destruct m as [|e m]; [done|].
    assert (E : List.map (fun kv : jsstring * json =>
                  QuoteJSONString kv.1 ++ js ": "
                  ++ SerializeJSONProperty (indent ++ gap) kv.2)
                  (List.map (fun kv => (kv.1, norm kv.2)) (e :: m))
                = List.map (fun kv : jsstring * json =>
                    QuoteJSONString kv.1 ++ js ": "
                    ++ SerializeJSONProperty (indent ++ gap) kv.2) (e :: m)).
    { rewrite List.map_map. apply map_ext_in. intros x Hx.
      rewrite Forall_forall in IH. cbn [fst snd].
      by rewrite IH by by apply list_elem_of_In. }
    cbn [norm List.map SerializeJSONProperty] in *. by rewrite E.
Qed.

Lemma JSON_stringify_norm (v : json) :
  JSON_stringify (norm v) = JSON_stringify v.
Proof. apply Serialize_norm. Qed.

Lemma lookupKey_normMember (k : jsstring) (m : list (jsstring * json)) :
  lookupKey k (List.map normMember m) = norm <$> lookupKey k m.
Proof.
  induction m as [|[k' v'] m IH]; cbn [List.map lookupKey normMember fst snd];
    [done|].
  by case_bool_decide.
Qed.

Lemma normMember_setKey (k : jsstring) (v : json)
  (m : list (jsstring * json)) :
  List.map normMember (setKey k v m)
  = setKey k (norm v) (List.map normMember m).
Proof.
  unfold setKey. rewrite lookupKey_normMember.
  destruct (lookupKey k m) as [v0|]; cbn [fmap option_fmap option_map].
  - induction m as [|[k' v'] m IH];
      cbn [List.map replaceKey normMember fst snd]; [done|].
    case_bool_decide; cbn [List.map normMember fst snd]; [done|].
    by rewrite IH.
  - destruct (arrayIndex k) as [i|].
    + induction m as [|[k' v'] m IH];
        cbn [List.map insertIndex normMember fst snd]; [done|].
      destruct (arrayIndex k') as [j|]; [destruct (j <? i)|];
        cbn [List.map normMember fst snd]; try done.
      by rewrite IH.
    + by rewrite map_app.
Qed.

Lemma norm_idem_member (kv : jsstring * json) (m : list (jsstring * json)) :
  List.map fst (List.map normMember m) = List.map fst m.
Proof. rewrite List.map_map. by apply map_ext. Qed.

Section ManifestPatch.
Context `{Utils} `{Numbers}.

Lemma includesNoTestSpecified_norm (test : option json) :
  includesNoTestSpecified test = Ok false ->
  includesNoTestSpecified (norm <$> test) = Ok false.
Proof.
  destruct test as [[ |b|[c|]|s|l|m]|]; try done.
  cbn [includesNoTestSpecified fmap option_fmap option_map norm].
  assert (E : forall f : json -> bool,
    (forall x, f (norm x) = f x) ->
    existsb f (List.map norm l) = existsb f l).
  { intros f Hf. induction l as [|x l IH]; [done|].
    cbn [List.map existsb]. by rewrite IH, Hf. }
  rewrite E; [done|]. by intros [ |?|[?|]|?|?|?].
Qed.

Lemma patchScriptsValue_wf (answers : PromptOptions) (scripts s' : json) :
  wellFormed scripts = true ->
  patchScriptsValue answers scripts = Ok s' -> wellFormed s' = true.
Proof.
  intros Hwf.
  destruct scripts as [ |b|n|s|l|m]; cbn [patchScriptsValue];
    try (destruct (framework answers); by intros [= <-]);
    try (by intros [= <-]).
  destruct (includesNoTestSpecified (lookupKey (js "test") m))
    as [remove|]; [|done].
  cbn [mbind result_bind]. intros [= <-].
  change (wfMembers m = true) in Hwf.
  assert (H1 : wfMembers (if remove then deleteKey (js "test") m else m)
               = true).
  { destruct remove; [by apply wfMembers_deleteKey|done]. }
  destruct (framework answers); [|done].
  by apply wfMembers_setKey.
Qed.

Lemma wellFormed_lookup (k : jsstring) (v : json)
  (m : list (jsstring * json)) :
  wfMembers m = true -> lookupKey k m = Some v -> wellFormed v = true.
Proof.
  unfold wfMembers. intros Hm Hl. apply andb_true_iff in Hm as [_ Hm].
  apply lookupKey_In in Hl.
  by apply (proj1 (forallb_forall _ _) Hm (k, v)).
Qed.

Lemma patchManifest_object (answers : PromptOptions)
  (members : list (jsstring * json)) :
  patchManifest answers (JObject members)
  = match patchScriptsValue answers (scriptsOf members) with
    | Ok scripts => Ok (JObject (setKey (js "scripts") scripts members))
    | Throw e => Throw e
    end.
Proof. done. Qed.

Lemma scriptsOf_wf (members : list (jsstring * json)) :
  wfMembers members = true -> wellFormed (scriptsOf members) = true.
Proof.
  intros Hm. unfold scriptsOf.
  destruct (lookupKey (js "scripts") members) as [s|] eqn:Hl; [|done].
  destruct (truthy s); [|done]. by eapply wellFormed_lookup.
Qed.

Lemma patchManifest_wf (answers : PromptOptions) (doc doc' : json) :
  wellFormed doc = true ->
  patchManifest answers doc = Ok doc' -> wellFormed doc' = true.
Proof.
  intros Hwf. destruct doc as [ |b|n|s|l|m]; try done.
  - by intros [= <-].
  - rewrite patchManifest_object.
    destruct (patchScriptsValue answers (scriptsOf m)) as [s'|] eqn:Hs;
      [|done].
    intros [= <-]. change (wfMembers m = true) in Hwf.
    apply (wfMembers_setKey (js "scripts") s' m Hwf).
    eapply patchScriptsValue_wf; [|exact Hs]. by apply scriptsOf_wf.
Qed.

(** Patching what a patched value reads back as changes nothing. *)
Lemma patchScriptsValue_fixed (answers : PromptOptions) (scripts s' : json) :
  wellFormed scripts = true -> truthy scripts = true ->
  scripts <> JNumber None ->
  patchScriptsValue answers scripts = Ok s' ->
  truthy (norm s') = true
  /\ patchScriptsValue answers (norm s') = Ok (norm s').
Proof.
  intros Hwf Htruthy Hfinite.
  destruct scripts as [ |b|[c|]|s|l|m]; cbn [patchScriptsValue]; try done.
  - destruct (framework answers) eqn:Hf; [done|]. intros [= <-].
    split; [done|]. cbn [norm patchScriptsValue]. by rewrite Hf.
  - destruct (framework answers) eqn:Hf; [done|]. intros [= <-].
    split; [done|]. cbn [norm patchScriptsValue]. by rewrite Hf.
  - destruct (framework answers) eqn:Hf; [done|]. intros [= <-].
    split; [done|]. cbn [norm patchScriptsValue]. by rewrite Hf.
  - by intros [= <-].
  - change (wfMembers m = true) in Hwf.
    assert (Hord : keysOrdered (List.map fst m) = true).
    { unfold wfMembers in Hwf. by apply andb_true_iff in Hwf as [? _]. }
    destruct (includesNoTestSpecified (lookupKey (js "test") m))
      as [remove|] eqn:Hinc; [|done].
    cbn [mbind result_bind]. intros [= <-]. split; [done|].
    set (s1 := if remove then deleteKey (js "test") m else m).
    assert (Htest1 : includesNoTestSpecified (lookupKey (js "test") s1)
                     = Ok false).
    { subst s1. destruct remove; [|done].
      by rewrite lookupKey_deleteKey by done. }
    set (extension := languageToFileExtension (language answers)).
    set (s2 := match framework answers with
               | Some _ =>
                   setKey (js "test-ct") (JString (testCtScript extension)) s1
               | None => s1
               end).
    assert (Htest2 : includesNoTestSpecified (lookupKey (js "test") s2)
                     = Ok false).
    { subst s2. destruct (framework answers); [|done].
      by rewrite lookupKey_setKey. }
    cbn [norm patchScriptsValue].
    change (fun kv : jsstring * json => (kv.1, norm kv.2)) with normMember.
    rewrite lookupKey_normMember, includesNoTestSpecified_norm by done.
    cbn [mbind result_bind]. do 2 f_equal.
    fold extension. subst s2.
    destruct (framework answers); [|done].
    apply setKey_same. rewrite lookupKey_normMember, lookupKey_setKey.
    by rewrite bool_decide_eq_true_2.
Qed.

Lemma patchManifest_fixed (answers : PromptOptions) (doc doc' : json) :
  wellFormed doc = true -> finiteScripts doc ->
  patchManifest answers doc = Ok doc' ->
  patchManifest answers (norm doc') = Ok (norm doc').
Proof.
  intros Hwf Hfinite.
  destruct doc as [ |b|n|s|l|m]; try done.
  - by intros [= <-].
  - rewrite patchManifest_object.
    destruct (patchScriptsValue answers (scriptsOf m)) as [s'|] eqn:Hs;
      [|done].
    intros [= <-]. change (wfMembers m = true) in Hwf.
    assert (Htruthy : truthy (scriptsOf m) = true).
    { unfold scriptsOf. destruct (lookupKey (js "scripts") m) as [s|]; [|done].
      by destruct (truthy s) eqn:E. }
    assert (Hfin : scriptsOf m <> JNumber None).
    { unfold finiteScripts in Hfinite. cbn [getProperty] in Hfinite.
      unfold scriptsOf.
      destruct (lookupKey (js "scripts") m) as [s|]; [|done].
      destruct (truthy s); [congruence|done]. }
    destruct (patchScriptsValue_fixed answers (scriptsOf m) s'
                (scriptsOf_wf m Hwf) Htruthy Hfin Hs) as [Ht Hp].
    cbn [norm].
    change (fun kv : jsstring * json => (kv.1, norm kv.2)) with normMember.
    rewrite normMember_setKey, patchManifest_object.
    unfold scriptsOf at 1. rewrite lookupKey_setKey.
    rewrite bool_decide_eq_true_2 by done. rewrite Ht, Hp.
    do 2 f_equal. apply setKey_same. rewrite lookupKey_setKey.
    by rewrite bool_decide_eq_true_2.
Qed.

Context `{!CanonicalNumbers}.

(** The patch reproduces its own output, for any manifest text that it
    accepts and whose [scripts] entry is not an overflowing number. *)
Lemma patchedPackageJSON_fixed (answers : PromptOptions)
  (content out : jsstring) (doc : json) :
  JSON_parse content = Some doc -> finiteScripts doc ->
  patchedPackageJSON answers content = Ok out ->
  patchedPackageJSON answers out = Ok out.
Proof.
  intros Hparse Hfinite. unfold patchedPackageJSON at 1.
  rewrite Hparse. cbn [orThrow mbind result_bind].
  destruct (patchManifest answers doc) as [doc'|] eqn:Hpatch; [|done].
  intros [= <-].
  pose proof (JSON_parse_wf _ _ Hparse) as Hwf.
  pose proof (patchManifest_wf _ _ _ Hwf Hpatch) as Hwf'.
  unfold patchedPackageJSON.
  rewrite JSON_parse_stringified by done. cbn [orThrow mbind result_bind].
  rewrite (patchManifest_fixed answers doc doc') by done.
  cbn [mbind result_bind mret result_ret].
  by rewrite JSON_stringify_norm.
Qed.
End ManifestPatch.

(** ** Manifests *)


Lemma verbatimNumbers_canonical : @CanonicalNumbers verbatimNumbers.
Proof.
  intros t c. cbn [Number_of_literal verbatimNumbers].
  destruct (isNumberLiteral t) eqn:E; [|done]. intros [= <-].
  by rewrite E.
Qed.

Section Manifests.
Context `{Utils} `{Host} `{Numbers}.

Lemma manifest_finiteScripts (doc : json) :
  isManifest doc = true -> finiteScripts doc.
Proof.
  unfold finiteScripts. destruct doc as [ | | | | |members]; try done.
  cbn [isManifest getProperty].
  by destruct (lookupKey (js "scripts") members) as [[ | |[|]| | | ]|].
Qed.

Lemma manifest_patched (answers : PromptOptions)
  (members : list (jsstring * json)) :
  isManifest (JObject members) = true ->
  exists scripts,
    patchManifest answers (JObject members)
    = Ok (JObject (setKey (js "scripts") (JObject scripts) members))
    /\ (lookupKey (js "scripts") members = None ->
        framework answers = None -> scripts = []).
Proof.
  cbn [isManifest]. intros Hm. rewrite patchManifest_object.
  assert (Hs : exists s,
    scriptsOf members = JObject s
    /\ forallb (fun kv => isString kv.2) s = true
    /\ (lookupKey (js "scripts") members = None -> s = [])).
  { unfold scriptsOf.
    destruct (lookupKey (js "scripts") members) as [[ | | | | |s]|];
      try done; [by exists s|by exists []]. }
  destruct Hs as (s & -> & Hstr & Hnone).
  cbn [patchScriptsValue].
  assert (Hinc : exists remove,
    includesNoTestSpecified (lookupKey (js "test") s) = Ok remove
    /\ (s = [] -> remove = false)).
  { destruct (lookupKey (js "test") s) as [v|] eqn:Hl.
    - apply lookupKey_In in Hl.
      pose proof (proj1 (forallb_forall _ _) Hstr _ Hl) as Hv.
      destruct v; try done. eexists. split; [done|]. by intros ->.
    - by exists false. }
  destruct Hinc as (remove & -> & Hrem). cbn [mbind result_bind].
  eexists. split; [reflexivity|].
  intros Hl Hf. rewrite Hf, (Hnone Hl). by rewrite Hrem by by apply Hnone.
Qed.

Lemma manifest_patched_exact (answers : PromptOptions)
  (members : list (jsstring * json)) :
  isManifest (JObject members) = true ->
  patchManifest answers (JObject members)
  = Ok (JObject
          (setKey (js "scripts")
             (JObject
                (let kept :=
                   if isPlaceholder (lookupKey (js "test") (scriptsIn members))
                   then deleteKey (js "test") (scriptsIn members)
                   else scriptsIn members in
                 match framework answers with
                 | Some _ =>
                     setKey (js "test-ct")
                       (JString
                          (testCtScript
                             (languageToFileExtension (language answers))))
                       kept
                 | None => kept
                 end))
             members)).
Proof.
  cbn [isManifest]. intros Hm. rewrite patchManifest_object.
  assert (Hs : scriptsOf members = JObject (scriptsIn members)
               /\ forallb (fun kv => isString kv.2) (scriptsIn members)
                  = true).
  { unfold scriptsOf, scriptsIn.
    by destruct (lookupKey (js "scripts") members) as [[ | | | | |s]|]. }
  destruct Hs as [-> Hstr]. cbn [patchScriptsValue].
  assert (Hinc : includesNoTestSpecified
                   (lookupKey (js "test") (scriptsIn members))
                 = Ok (isPlaceholder
                         (lookupKey (js "test") (scriptsIn members)))).
  { destruct (lookupKey (js "test") (scriptsIn members)) as [v|] eqn:Hl;
      [|done].
    apply lookupKey_In in Hl.
    pose proof (proj1 (forallb_forall _ _) Hstr _ Hl) as Hv.
    by destruct v. }
  rewrite Hinc. reflexivity.
Qed.

(** C10.  For every manifest and all answers the patch succeeds and
    writes the manifest back: the text is [JSON.stringify] of the
    patched document with an indentation of two spaces, followed by one
    newline; the document has a [scripts] object, which is empty when
    the manifest had none and no [test-ct] script is registered.
    The patched document is the manifest that was read: every other
    member has the value and the place it had, [scripts] keeps its place
    or is added last; in [scripts], the placeholder [test] is gone,
    [test-ct] is set exactly when a framework is selected (in its place,
    or added last), and every other script has the value and the place
    it had.  When no script is removed and none is added, the scripts are
    the ones read, and so is a document that had a [scripts] member. *)
Theorem patchPackageJSON_writes_manifest (answers : PromptOptions)
  (content : jsstring) (doc : json) :
  JSON_parse content = Some doc -> isManifest doc = true ->
  exists members0 members scripts text,
    doc = JObject members0
    /\ patchedPackageJSON answers content = Ok text
    /\ (forall w, disk w !! js "package.json" = Some content ->
          _patchPackageJSON answers w
          = (Ok tt,
             {| disk := <[js "package.json" := text]> (disk w);
                events := events w ++ [Written (js "package.json") text] |}))
    /\ text = JSON_stringify (JObject members) ++ LF
    /\ JSON_stringify (JObject members)
       = js "{" ++ LF ++ gap
         ++ join (js "," ++ LF ++ gap)
              (List.map (fun kv => QuoteJSONString kv.1 ++ js ": "
                                   ++ SerializeJSONProperty gap kv.2)
                 members)
         ++ LF ++ js "}"
    /\ lookupKey (js "scripts") members = Some (JObject scripts)
    /\ (getProperty doc (js "scripts") = None ->
        framework answers = None -> scripts = [])
    /\ (forall k, k <> js "scripts" ->
          lookupKey k members = lookupKey k members0)
    /\ List.map fst members
       = (if given (lookupKey (js "scripts") members0)
          then List.map fst members0
          else List.map fst members0 ++ [js "scripts"])
    /\ (forall k, k <> js "test" -> k <> js "test-ct" ->
          lookupKey k scripts = lookupKey k (scriptsIn members0))
    /\ lookupKey (js "test") scripts
       = (if isPlaceholder (lookupKey (js "test") (scriptsIn members0))
          then None
          else lookupKey (js "test") (scriptsIn members0))
    /\ lookupKey (js "test-ct") scripts
       = match framework answers with
         | Some _ =>
             Some (JString
                     (js "playwright test -c playwright-ct.config."
                      ++ languageToFileExtension (language answers)))
         | None => lookupKey (js "test-ct") (scriptsIn members0)
         end
    /\ List.map fst scripts
       = List.filter
           (fun k =>
              negb (isPlaceholder (lookupKey (js "test") (scriptsIn members0))
                    && bool_decide (k = js "test")))
           (List.map fst (scriptsIn members0))
         ++ (if given (framework answers)
                && negb (given (lookupKey (js "test-ct") (scriptsIn members0)))
             then [js "test-ct"] else [])
    /\ (framework answers = None ->
        isPlaceholder (lookupKey (js "test") (scriptsIn members0)) = false ->
        scripts = scriptsIn members0
        /\ (lookupKey (js "scripts") members0 <> None -> members = members0)).
Proof.
  intros Hparse Hm.
  destruct doc as [ | | | | |members0]; try done.
  pose proof (manifest_patched_exact answers members0 Hm) as Hp.
  pose proof (keyed_scriptsIn members0 (JSON_parse_keyed _ _ Hparse)) as Hord.
  set (s0 := scriptsIn members0) in *.
  set (kept := if isPlaceholder (lookupKey (js "test") s0)
               then deleteKey (js "test") s0 else s0) in *.
  set (scripts := match framework answers with
                  | Some _ =>
                      setKey (js "test-ct")
                        (JString
                           (testCtScript
                              (languageToFileExtension (language answers))))
                        kept
                  | None => kept
                  end) in *.
  cbn zeta in Hp. fold scripts in Hp.
  set (members := setKey (js "scripts") (JObject scripts) members0) in *.
  assert (Hl : lookupKey (js "scripts") members = Some (JObject scripts)).
  { subst members. rewrite lookupKey_setKey.
    by rewrite bool_decide_eq_true_2. }
  assert (Htext : patchedPackageJSON answers content
                  = Ok (JSON_stringify (JObject members) ++ LF)).
  { unfold patchedPackageJSON. rewrite Hparse.
    cbn [orThrow mbind result_bind]. by rewrite Hp. }
  assert (Hkept : forall k,
    lookupKey k kept
    = if isPlaceholder (lookupKey (js "test") s0) && bool_decide (k = js "test")
      then None else lookupKey k s0).
  { intros k. subst kept.
    destruct (isPlaceholder (lookupKey (js "test") s0)); [|done].
    by rewrite lookupKey_deleteKey. }
  assert (Hscripts : forall k,
    lookupKey k scripts
    = match framework answers with
      | Some _ =>
          if bool_decide (k = js "test-ct")
          then Some (JString
                       (testCtScript
                          (languageToFileExtension (language answers))))
          else lookupKey k kept
      | None => lookupKey k kept
      end).
  { intros k. subst scripts. destruct (framework answers); [|done].
    apply lookupKey_setKey. }
  assert (Hkeys : List.map fst kept
    = List.filter
        (fun k => negb (isPlaceholder (lookupKey (js "test") s0)
                        && bool_decide (k = js "test")))
        (List.map fst s0)).
  { subst kept. destruct (isPlaceholder (lookupKey (js "test") s0)).
    - by rewrite keys_deleteKey.
    - symmetry. by apply filter_keeps_all. }
  pose proof test_ne_test_ct as Hne.
  exists members0, members, scripts, (JSON_stringify (JObject members) ++ LF).
  split; [done|]. split; [done|]. split.
  { intros w Hw. by rewrite _patchPackageJSON_eq, Hw, Htext. }
  split; [done|]. split.
  { destruct members as [|e m]; [done|]. reflexivity. }
  split; [done|]. split.
  { cbn [getProperty]. intros Hnone Hf. subst scripts kept s0.
    unfold scriptsIn. by rewrite Hf, Hnone. }
  split.
  { intros k Hk. subst members. rewrite lookupKey_setKey.
    by rewrite bool_decide_eq_false_2. }
  split.
  { subst members. apply keys_setKey_plain, scripts_not_index. }
  split.
  { intros k Hk Hk'. rewrite Hscripts, Hkept.
    rewrite (bool_decide_eq_false_2 (k = js "test")) by done.
    rewrite andb_false_r.
    destruct (framework answers); [|done].
    by rewrite bool_decide_eq_false_2. }
  split.
  { rewrite Hscripts, Hkept.
    rewrite (bool_decide_eq_true_2 (js "test" = js "test")) by done.
    rewrite andb_true_r.
    destruct (framework answers); [|done].
    by rewrite bool_decide_eq_false_2. }
  split.
  { rewrite Hscripts, Hkept.
    rewrite (bool_decide_eq_false_2 (js "test-ct" = js "test")) by done.
    rewrite andb_false_r.
    destruct (framework answers); [|done].
    by rewrite bool_decide_eq_true_2. }
  split.
  { subst scripts. change (scriptsIn members0) with s0.
    destruct (framework answers) as [f|]; cbn [given andb].
    - rewrite keys_setKey_plain by apply test_ct_not_index.
      rewrite Hkept, Hkeys.
      rewrite (bool_decide_eq_false_2 (js "test-ct" = js "test")) by done.
      rewrite andb_false_r.
      destruct (lookupKey (js "test-ct") s0); cbn [given negb];
        by rewrite ?app_nil_r.
    - by rewrite app_nil_r. }
  intros Hf Hplace. change (scriptsIn members0) with s0 in Hplace |- *.
  assert (Hsame : scripts = s0).
  { subst scripts kept. by rewrite Hf, Hplace. }
  split; [done|]. intros Hsome. subst members. rewrite Hsame.
  apply setKey_same.
  cbn [isManifest] in Hm. subst s0. unfold scriptsIn.
  by destruct (lookupKey (js "scripts") members0) as [[ | | | | |s]|].
Qed.

Context `{!CanonicalNumbers}.

(** C3.  Manifest patch idempotence: for every manifest and all answers
    the patch succeeds, and applied to the text it produced it produces
    that very text again.  So a second [_patchPackageJSON] leaves the
    project directory as the first one left it. *)
Theorem patchPackageJSON_idempotent (answers : PromptOptions)
  (content : jsstring) (doc : json) :
  JSON_parse content = Some doc -> isManifest doc = true ->
  exists text,
    patchedPackageJSON answers content = Ok text
    /\ patchedPackageJSON answers text = Ok text
    /\ forall w,
         disk w !! js "package.json" = Some content ->
         (_patchPackageJSON answers w).1 = Ok tt
         /\ (_patchPackageJSON answers (_patchPackageJSON answers w).2).1
            = Ok tt
         /\ disk (_patchPackageJSON answers (_patchPackageJSON answers w).2).2
            = disk (_patchPackageJSON answers w).2.
Proof.
  intros Hparse Hm.
  assert (Htext : exists text, patchedPackageJSON answers content = Ok text).
  { destruct doc as [ | | | | |members]; try done.
    destruct (manifest_patched answers members Hm) as (scripts & Hp & _).
    unfold patchedPackageJSON. rewrite Hparse.
    cbn [orThrow mbind result_bind]. rewrite Hp. by eexists. }
  destruct Htext as (text & Htext). exists text. split; [done|].
  assert (Hfixed : patchedPackageJSON answers text = Ok text).
  { eapply patchedPackageJSON_fixed; [exact Hparse| |exact Htext].
    by apply manifest_finiteScripts. }
  split; [done|]. intros w Hw.
  rewrite !_patchPackageJSON_eq, Hw, Htext. cbn [fst snd disk].
  rewrite lookup_insert_eq, Hfixed. cbn [fst snd disk].
  by rewrite insert_insert_eq.
Qed.

(** C4.  The manifest whose only script is npm's placeholder test,
    patched with a component-testing framework selected: the placeholder
    is gone and [test-ct] invokes the test runner on the
    component-testing configuration file of the chosen extension.  The
    text written reads back as that manifest. *)
Theorem patchPackageJSON_placeholder_scenario (answers : PromptOptions)
  (f : Framework) :
  framework answers = Some f ->
  let scripts :=
    [(js "test-ct",
      JString (js "playwright test -c playwright-ct.config."
               ++ languageToFileExtension (language answers)))] in
  let manifest := JObject [(js "scripts", JObject scripts)] in
  JSON_parse placeholderManifest
  = Some (JObject
            [(js "scripts", JObject [(js "test", JString placeholderTest)])])
  /\ patchedPackageJSON answers placeholderManifest
     = Ok (JSON_stringify manifest ++ LF)
  /\ JSON_parse (JSON_stringify manifest ++ LF) = Some manifest
  /\ lookupKey (js "test") scripts = None
  /\ lookupKey (js "test-ct") scripts
     = Some (JString (testCtScript
                        (languageToFileExtension (language answers)))).
Proof.
  intros Hf scripts manifest.
  assert (Hparse : JSON_parse placeholderManifest
    = Some (JObject
              [(js "scripts",
                JObject [(js "test", JString placeholderTest)])]))
    by by vm_compute.
  split; [done|]. split; [|split; [|split]].
  - unfold patchedPackageJSON. rewrite Hparse.
    cbn [orThrow mbind result_bind]. rewrite patchManifest_object.
    assert (Hs : scriptsOf
        [(js "scripts", JObject [(js "test", JString placeholderTest)])]
      = JObject [(js "test", JString placeholderTest)])
      by by vm_compute.
    rewrite Hs. cbn [patchScriptsValue]. rewrite Hf.
    assert (Hinc : includesNoTestSpecified
        (lookupKey (js "test") [(js "test", JString placeholderTest)])
      = Ok true) by by vm_compute.
    rewrite Hinc. cbn [mbind result_bind]. reflexivity.
  - by apply (JSON_parse_stringified manifest).
  - reflexivity.
  - reflexivity.
Qed.

(** C7, as the code has it.  When the manifest is missing or is not
    JSON, the dependency check answers [false]; the manifest patch does
    not recover: it throws and leaves the project as it is, whatever the
    answers. *)
Theorem unreadable_manifest (w : World) (answers : PromptOptions)
  (pkg : jsstring) :
  (disk w !! js "package.json" = None
   \/ exists content,
        disk w !! js "package.json" = Some content
        /\ JSON_parse content = None) ->
  _hasDependency (disk w) pkg = false
  /\ exists e,
       _patchPackageJSON answers w = (Throw e, w)
       /\ (e = ENOENT \/ e = SyntaxError).
Proof.
  intros [Hmissing|(content & Hcontent & Hcorrupt)].
  - split.
    + unfold _hasDependency. by rewrite Hmissing.
    + exists ENOENT. rewrite _patchPackageJSON_eq, Hmissing. by split; [|left].
  - split.
    + unfold _hasDependency. rewrite Hcontent. cbn [orThrow mbind result_bind].
      by rewrite Hcorrupt.
    + exists SyntaxError. rewrite _patchPackageJSON_eq, Hcontent.
      unfold patchedPackageJSON. rewrite Hcorrupt. by split; [|right].
Qed.
End Manifests.

(** ** A run that completes *)

Lemma gitignore_ne_manifest : js ".gitignore" <> js "package.json".
Proof. by vm_compute. Qed.

Section RunOrder.
Context `{PackageManager.t} `{Utils} `{Host} `{Numbers}.
Variable options : CliOptions.

Lemma holdsManifest_lookup (d d' : gmap jsstring jsstring) :
  d' !! js "package.json" = d !! js "package.json" ->
  holdsManifest d -> holdsManifest d'.
Proof.
  intros E (content & doc & Hc & Hp & Hm). exists content, doc.
  by rewrite E.
Qed.

Lemma executeCommands_completes (commands : list Command) (w : World) :
  (forall c, In c commands -> succeeds c) ->
  (executeCommands commands w).1 = Ok tt.
Proof.
  revert w. induction commands as [|c rest IH]; intros w Hall; [done|].
  rewrite executeCommands_cons.
  destruct (Hall c (or_introl eq_refl) (disk w)) as (d' & ->).
  apply IH. intros c' Hc'. apply Hall. by right.
Qed.

Lemma executeCommands_manifest (commands : list Command) (w : World) :
  (forall c, In c commands -> succeeds c /\ keepsManifest c) ->
  holdsManifest (disk w)
  \/ (exists c, In c commands /\ createsManifest c) ->
  holdsManifest (disk (executeCommands commands w).2).
Proof.
  revert w. induction commands as [|c rest IH]; intros w Hall Hm.
  - destruct Hm as [Hm|(c & [] & _)]. done.
  - rewrite executeCommands_cons.
    destruct (Hall c (or_introl eq_refl)) as [Hs Hk].
    destruct (Hs (disk w)) as (d' & Hd'). rewrite Hd'.
    apply IH; [intros c' Hc'; apply Hall; by right|]. cbn [disk].
    destruct Hm as [Hm|(c' & [<-|Hc'] & Hcreates)].
    + left. by eapply Hk.
    + left. by eapply Hcreates.
    + right. by exists c'.
Qed.

Lemma createFiles_keeps (files : list (jsstring * jsstring)) (force : bool)
  (w : World) (path : jsstring) :
  ~ In path (List.map fst files) ->
  disk (createFiles files force w).2 !! path = disk w !! path.
Proof.
  revert w. induction files as [|[p content] rest IH]; intros w Hnin; [done|].
  cbn [List.map fst In] in Hnin. rewrite createFiles_cons.
  destruct (given (disk w !! p) && negb force && negb (confirmOverride p)).
  - apply IH. tauto.
  - rewrite IH by tauto. cbn [disk]. apply lookup_insert_ne. tauto.
Qed.

Lemma _patchPackageJSON_completes (answers : PromptOptions) (w : World) :
  holdsManifest (disk w) -> (_patchPackageJSON answers w).1 = Ok tt.
Proof.
  intros (content & doc & Hc & Hp & Hm).
  rewrite _patchPackageJSON_eq, Hc. unfold patchedPackageJSON. rewrite Hp.
  cbn [orThrow mbind result_bind].
  destruct doc as [ | | | | |members]; try done.
  by rewrite (manifest_patched_exact answers members Hm).
Qed.

Lemma applyChanges_completes (answers : PromptOptions)
  (files : list (jsstring * jsstring)) (allCommands : list Command)
  (w : World) :
  (forall c, In c allCommands -> succeeds c /\ keepsManifest c) ->
  holdsManifest (disk w)
  \/ (exists c, In c allCommands /\ phase c = pre /\ createsManifest c) ->
  ~ In (js "package.json") (List.map fst files) ->
  (applyChanges answers files allCommands w).1 = Ok tt.
Proof.
  intros Hall Hm Hfiles. unfold applyChanges. rewrite splitByPhase_filter.
  set (preCommands := filter (fun c => isPre c = true) allCommands).
  set (postCommands := filter (fun c => isPost c = true) allCommands).
  assert (Hpre : forall c, In c preCommands ->
                           succeeds c /\ keepsManifest c).
  { intros c Hc. apply Hall.
    by apply list_elem_of_In, list_elem_of_filter in Hc
      as [_ ?%list_elem_of_In]. }
  assert (Hpost : forall c, In c postCommands -> succeeds c).
  { intros c Hc. apply Hall.
    by apply list_elem_of_In, list_elem_of_filter in Hc
      as [_ ?%list_elem_of_In]. }
  assert (Hm' : holdsManifest (disk w)
                \/ (exists c, In c preCommands /\ createsManifest c)).
  { destruct Hm as [Hm|(c & Hc & Hphase & Hcreates)]; [by left|].
    right. exists c. split; [|done].
    apply list_elem_of_In, list_elem_of_filter.
    split; [unfold isPre; by rewrite Hphase|by apply list_elem_of_In]. }
  pose proof (executeCommands_completes preCommands w
                (fun c Hc => proj1 (Hpre c Hc))) as Hr1.
  pose proof (executeCommands_manifest preCommands w Hpre Hm') as Hm1.
  unfold mbind, M_bind.
  destruct (executeCommands preCommands w) as [r1 w1]. cbn [fst snd] in *.
  subst r1.
  destruct (createFiles_traces files false w1) as (writes & _ & Hr2 & _).
  pose proof (createFiles_keeps files false w1 _ Hfiles) as Hk2.
  destruct (createFiles files false w1) as [r2 w2]. cbn [fst snd] in *.
  subst r2. rewrite _patchGitIgnore_eq.
  set (w3 := {| disk := _; events := _ |}).
  assert (Hm3 : holdsManifest (disk w3)).
  { eapply holdsManifest_lookup; [|exact Hm1]. subst w3. cbn [disk].
    rewrite lookup_insert_ne by apply gitignore_ne_manifest. exact Hk2. }
  pose proof (_patchPackageJSON_completes answers w3 Hm3) as Hr4.
  destruct (_patchPackageJSON answers w3) as [r4 w4]. cbn [fst snd] in *.
  subst r4. by apply executeCommands_completes.
Qed.

(** C1.  Whatever the plan, the files and the state of the project, a run
    appends to the record of events a prefix of the sequence: the
    pre-phase commands in the order they were appended, then writes of
    planned files, then the [.gitignore] patch, then the manifest patch,
    then the post-phase commands in the order they were appended; and a
    run that completes appends all of it.  So every pre-phase command is
    executed before anything is written, and every post-phase command
    after all the writes and both patches.
    This holds for any plan, and so for the plan of [_identifyChanges]
    that [run] applies.
    And the run does complete, with the whole sequence recorded, when
    every command of the plan succeeds and leaves a manifest in place,
    the project holds a manifest or a pre-phase command creates one, and
    [package.json] is not among the planned files. *)
Theorem run_phase_order (answers : PromptOptions) (w : World) :
  (forall files allCommands,
     exists writes gitIgnore manifest,
       Forall (writesOneOf files) writes
       /\ traces (applyChanges answers files allCommands) w
            (plannedEvents allCommands writes gitIgnore manifest))
  /\ (exists writes gitIgnore manifest,
        Forall (writesOneOf (_identifyChanges options (disk w) answers).1)
          writes
        /\ traces (run options answers) w
             (plannedEvents (_identifyChanges options (disk w) answers).2
                writes gitIgnore manifest))
  /\ (forall files allCommands,
        (forall c, In c allCommands -> succeeds c /\ keepsManifest c) ->
        holdsManifest (disk w)
        \/ (exists c, In c allCommands /\ phase c = pre
                      /\ createsManifest c) ->
        ~ In (js "package.json") (List.map fst files) ->
        (applyChanges answers files allCommands w).1 = Ok tt
        /\ exists writes gitIgnore manifest,
             Forall (writesOneOf files) writes
             /\ events (applyChanges answers files allCommands w).2
                = events w
                  ++ plannedEvents allCommands writes gitIgnore manifest)
  /\ ((forall c, In c (_identifyChanges options (disk w) answers).2 ->
         succeeds c /\ keepsManifest c) ->
      holdsManifest (disk w)
      \/ (exists c, In c (_identifyChanges options (disk w) answers).2
                    /\ phase c = pre /\ createsManifest c) ->
      ~ In (js "package.json")
          (List.map fst (_identifyChanges options (disk w) answers).1) ->
      (run options answers w).1 = Ok tt
      /\ exists writes gitIgnore manifest,
           Forall (writesOneOf (_identifyChanges options (disk w) answers).1)
             writes
           /\ events (run options answers w).2
              = events w
                ++ plannedEvents (_identifyChanges options (disk w) answers).2
                     writes gitIgnore manifest).
Proof.
  assert (Hcomplete : forall files allCommands,
    (forall c, In c allCommands -> succeeds c /\ keepsManifest c) ->
    holdsManifest (disk w)
    \/ (exists c, In c allCommands /\ phase c = pre /\ createsManifest c) ->
    ~ In (js "package.json") (List.map fst files) ->
    (applyChanges answers files allCommands w).1 = Ok tt
    /\ exists writes gitIgnore manifest,
         Forall (writesOneOf files) writes
         /\ events (applyChanges answers files allCommands w).2
            = events w
              ++ plannedEvents allCommands writes gitIgnore manifest).
  { intros files allCommands Hall Hm Hfiles.
    pose proof (applyChanges_completes answers files allCommands w
                  Hall Hm Hfiles) as Hok.
    split; [done|].
    destruct (applyChanges_traces answers files allCommands w)
      as (writes & g & m & Hwrites & _ & Hfull).
    exists writes, g, m. split; [done|]. apply Hfull. by rewrite Hok. }
  split; [intros; apply applyChanges_traces|]. split; [|split; [done|]].
  - destruct (applyChanges_traces answers
                (_identifyChanges options (disk w) answers).1
                (_identifyChanges options (disk w) answers).2 w)
      as (writes & g & m & Hall & Htr).
    exists writes, g, m. split; [done|].
    unfold traces, run in *.
    by destruct (_identifyChanges options (disk w) answers).
  - intros Hall Hm Hfiles.
    specialize (Hcomplete _ _ Hall Hm Hfiles). unfold run.
    by destruct (_identifyChanges options (disk w) answers).
Qed.
End RunOrder.

(** ** The theorems at concrete inputs *)

(** The plan for the [beta] option, npm and an empty project directory:
    [dotenv] is installed, but not at the [@beta] tag.  So C6 as stated,
    with each of the three packages at the selected tag, fails. *)
Lemma dotenv_not_tagged :
  let options := {|
    browser := None; no_browsers := None; no_examples := None; next := None;
    beta := Some []; ct := None; quiet := None; gha := None;
    install_deps := None; lang := None |} in
  let commands :=
    (@_identifyChanges npm plainUtils quietHost verbatimNumbers options ∅
       (exampleAnswers None)).2 in
  ct options = None
  /\ packageTag options = js "@beta"
  /\ In (js "npm install --save-dev dotenv") (List.map command commands)
  /\ ~ @installsTagged npm options (js "dotenv") commands.
Proof.
  split; [reflexivity|]. split; [reflexivity|]. split.
  - vm_compute. tauto.
  - intros (c & Hin & _ & Hc). vm_compute in Hin.
    repeat (destruct Hin as [<-|Hin]; [by vm_compute in Hc|]). done.
Qed.

Lemma plan_installs_runner_dotenv_tools_witness :
  ct noOptions = None
  /\ @installsTagged npm noOptions (js "@playwright/test")
       (@_identifyChanges npm plainUtils quietHost verbatimNumbers noOptions ∅
          (exampleAnswers None)).2.
Proof.
  split; [reflexivity|].
  exact (proj1 (proj2 (@plan_installs_runner_dotenv_tools
                         npm plainUtils quietHost verbatimNumbers noOptions ∅
                         (exampleAnswers None) eq_refl))).
Defined.

Lemma patchPackageJSON_idempotent_witness :
  exists text,
    @patchedPackageJSON plainUtils verbatimNumbers (exampleAnswers (Some react))
      placeholderManifest = Ok text
    /\ @patchedPackageJSON plainUtils verbatimNumbers
         (exampleAnswers (Some react)) text = Ok text.
Proof.
  destruct (@patchPackageJSON_idempotent plainUtils quietHost verbatimNumbers
              verbatimNumbers_canonical (exampleAnswers (Some react))
              placeholderManifest
              (JObject
                 [(js "scripts",
                   JObject [(js "test", JString placeholderTest)])])
              eq_refl eq_refl)
    as (text & H1 & H2 & _).
  by exists text.
Defined.

Lemma patchPackageJSON_placeholder_scenario_witness :
  @patchedPackageJSON plainUtils verbatimNumbers (exampleAnswers (Some react))
    placeholderManifest
  = Ok (JSON_stringify
          (JObject
             [(js "scripts",
               JObject
                 [(js "test-ct",
                   JString (js "playwright test -c playwright-ct.config.ts"))])])
        ++ LF).
Proof.
  exact (proj1 (proj2 (@patchPackageJSON_placeholder_scenario
                         plainUtils verbatimNumbers
                         (exampleAnswers (Some react)) react eq_refl))).
Defined.

Lemma patchPackageJSON_writes_manifest_witness :
  exists members scripts,
    @patchedPackageJSON plainUtils verbatimNumbers
      (exampleAnswers (Some react)) sampleManifest
    = Ok (JSON_stringify (JObject members) ++ LF)
    /\ List.map fst members = [js "name"; js "scripts"; js "devDependencies"]
    /\ lookupKey (js "name") members = Some (JString (js "app"))
    /\ lookupKey (js "devDependencies") members
       = Some (JObject [(js "typescript", JString (js "5"))])
    /\ lookupKey (js "scripts") members = Some (JObject scripts)
    /\ List.map fst scripts = [js "build"; js "test-ct"]
    /\ lookupKey (js "build") scripts = Some (JString (js "tsc"))
    /\ lookupKey (js "test") scripts = None
    /\ lookupKey (js "test-ct") scripts
       = Some (JString (js "playwright test -c playwright-ct.config.ts")).
Proof.
  destruct (@patchPackageJSON_writes_manifest plainUtils quietHost
              verbatimNumbers (exampleAnswers (Some react)) sampleManifest
              (JObject
                 [(js "name", JString (js "app"));
                  (js "scripts",
                   JObject [(js "test", JString placeholderTest);
                            (js "build", JString (js "tsc"))]);
                  (js "devDependencies",
                   JObject [(js "typescript", JString (js "5"))])])
              eq_refl eq_refl)
    as (members0 & members & scripts & text & Hdoc & Htext & _ & Etext & _
        & Hl & _ & Hother & Hkeys & Hsk & Htest & Hct & Hskeys & _).
  assert (E0 : members0
               = [(js "name", JString (js "app"));
                  (js "scripts",
                   JObject [(js "test", JString placeholderTest);
                            (js "build", JString (js "tsc"))]);
                  (js "devDependencies",
                   JObject [(js "typescript", JString (js "5"))])]).
  { exact (f_equal (fun d => match d with JObject m => m | _ => [] end)
             (eq_sym Hdoc)). }
  subst members0 text.
  assert (Hname : js "name" <> js "scripts")
    by (intros E; vm_compute in E; discriminate E).
  assert (Hdev : js "devDependencies" <> js "scripts")
    by (intros E; vm_compute in E; discriminate E).
  assert (Hb1 : js "build" <> js "test")
    by (intros E; vm_compute in E; discriminate E).
  assert (Hb2 : js "build" <> js "test-ct")
    by (intros E; vm_compute in E; discriminate E).
  exists members, scripts.
  split; [exact Htext|]. split; [exact Hkeys|].
  split; [exact (Hother _ Hname)|]. split; [exact (Hother _ Hdev)|].
  split; [exact Hl|]. split; [exact Hskeys|].
  split; [exact (Hsk _ Hb1 Hb2)|]. split; [exact Htest|exact Hct].
Defined.

Lemma unreadable_manifest_witness :
  @_hasDependency verbatimNumbers (disk corruptProject) (js "@types/node")
  = false
  /\ exists e,
       @_patchPackageJSON plainUtils quietHost verbatimNumbers
         (exampleAnswers None) corruptProject = (Throw e, corruptProject)
       /\ (e = ENOENT \/ e = SyntaxError).
Proof.
  apply (@unreadable_manifest plainUtils quietHost verbatimNumbers
           corruptProject (exampleAnswers None) (js "@types/node")).
  right. exists (js "{"). split; reflexivity.
Defined.

(** C7 as stated fails: with a manifest that is not JSON the run does not
    complete; after the pre-phase commands and the file writes, the
    manifest patch throws a [SyntaxError]. *)
Lemma corrupt_manifest_aborts_run :
  disk corruptProject !! js "package.json" = Some (js "{")
  /\ @JSON_parse verbatimNumbers (js "{") = None
  /\ (@run npm plainUtils quietHost verbatimNumbers noOptions
        (exampleAnswers None) corruptProject).1 = Throw SyntaxError.
Proof. split; [|split]; by vm_compute. Qed.

(** The fresh host: every command succeeds and keeps a manifest, and the
    initialisation of a project creates one. *)
Lemma freshHost_commands (c : Command) :
  @succeeds freshHost c /\ @keepsManifest freshHost verbatimNumbers c.
Proof.
  split.
  - intros d. cbn [execSync freshHost]. case_bool_decide; by eexists.
  - intros d d'. cbn [execSync freshHost].
    case_bool_decide; intros [= <-]; [|done]. intros _.
    exists (js "{}"), (JObject []). by rewrite lookup_insert_eq.
Qed.

Lemma freshHost_init :
  @createsManifest freshHost verbatimNumbers (@initProject npm).
Proof.
  intros d d'. cbn [execSync freshHost command initProject].
  rewrite bool_decide_eq_true_2 by done. intros [= <-].
  exists (js "{}"), (JObject []). by rewrite lookup_insert_eq.
Qed.

Lemma run_phase_order_witness :
  (@run npm plainUtils freshHost verbatimNumbers noOptions
     (exampleAnswers None) emptyWorld).1 = Ok tt
  /\ exists writes gitIgnore manifest,
       events (@run npm plainUtils freshHost verbatimNumbers noOptions
                 (exampleAnswers None) emptyWorld).2
       = List.map Executed
           [ @initProject npm;
             {| name := js "Installing Playwright Test";
                command := js "npm install --save-dev @playwright/test";
                phase := pre |};
             {| name := js "Installing dotenv";
                command := js "npm install --save-dev dotenv";
                phase := pre |};
             {| name := js "Installing dxp/playwright-tools";
                command := js "npm install --save-dev @dxp/playwright-tools";
                phase := pre |};
             @installTypes npm ]
         ++ writes
         ++ [Written (js ".gitignore") gitIgnore;
             Written (js "package.json") manifest]
         ++ [Executed
               {| name := js "Downloading browsers";
                  command := js "npx playwright install";
                  phase := post |}].
Proof.
  destruct (proj2 (proj2 (proj2
              (@run_phase_order npm plainUtils freshHost verbatimNumbers
                 noOptions (exampleAnswers None) emptyWorld))))
    as [Hok (writes & gitIgnore & manifest & _ & Hevents)].
  - intros c _. apply freshHost_commands.
  - right. exists (@initProject npm).
    split; [left; reflexivity|]. split; [reflexivity|apply freshHost_init].
  - intros Hin. vm_compute in Hin.
    repeat (destruct Hin as [Hin|Hin]; [discriminate Hin|]). exact Hin.
  - split; [exact Hok|]. exists writes, gitIgnore, manifest. exact Hevents.
Defined.

(** ** What the [.gitignore] patch appends *)

Lemma matchHere_cut (p : regex) (u t : jsstring) :
  forallb atom_ok p = true ->
  matchHere p (u ++ 10 :: t) = matchHere p (u ++ [10]).
Proof.
  revert u. induction p as [|a p IH]; intros u Hp; [done|].
  cbn [forallb] in Hp. apply andb_true_iff in Hp as [Ha Hp].
  assert (Hten : forall c, atom_ok (Chr c) = true -> (10 =? c) = false).
  { intros c Hc. apply N.eqb_neq. intros <-. by vm_compute in Hc. }
  pose proof (IH [] Hp) as IHnil. pose proof (IH u Hp) as IHu.
  destruct a as [c|c|]; destruct u as [|x u];
    try pose proof (IH u Hp) as IHtail;
    cbn [app matchHere] in *.
  - by rewrite (Hten c Ha).
  - by rewrite IHtail.
  - by rewrite (Hten c Ha), IHnil.
  - by rewrite IHtail, IHu.
  - by rewrite IHnil.
  - by rewrite IHu.
Qed.

Lemma searchLines_app (p : regex) (b : bool) (u t : jsstring) :
  forallb atom_ok p = true -> matchHere p [] = false ->
  searchLines p b (u ++ LF ++ t)
  = searchLines p b (u ++ LF) || searchLines p true t.
Proof.
  intros Hp Hnil. unfold LF. revert b. induction u as [|x u IH]; intros b.
  - pose proof (matchHere_cut p [] t Hp) as Hcut.
    cbn [app searchLines] in *. rewrite Hnil, Hcut.
    change (isLineTerminator 10) with true.
    cbn [andb orb]. by rewrite !orb_false_r.
  - pose proof (matchHere_cut p (x :: u) t Hp) as Hcut.
    cbn [app searchLines] in *. by rewrite IH, Hcut, orb_assoc.
Qed.

Lemma String_match_app (g t : jsstring) (p : regex) :
  forallb atom_ok p = true -> matchHere p [] = false ->
  lineEnded g \/ g = [] ->
  String_match (g ++ t) p = String_match g p || String_match t p.
Proof.
  intros Hp Hnil [[h ->]| ->].
  - rewrite <- app_assoc. by apply searchLines_app.
  - cbn [app]. by rewrite String_match_empty.
Qed.

Lemma independent_inv (e : jsstring * regex) (r : list (jsstring * regex)) :
  independent (e :: r) = true ->
  String_match headingComment e.2 = false
  /\ Forall (fun e' => String_match (e.1 ++ LF) e'.2 = false) r
  /\ independent r = true.
Proof.
  cbn [independent]. intros H.
  apply andb_true_iff in H as [H H3]. apply andb_true_iff in H as [H1 H2].
  split; [by apply negb_true_iff|]. split; [|done].
  apply Forall_forall. intros e' He'. apply list_elem_of_In in He'.
  by apply negb_true_iff, (proj1 (forallb_forall _ _) H2).
Qed.

Lemma independent_heading (es : list (jsstring * regex)) :
  independent es = true ->
  Forall (fun e => String_match headingComment e.2 = false) es.
Proof.
  induction es as [|e r IH]; [constructor|]. intros H.
  apply independent_inv in H as (H1 & _ & H3). constructor; [done|by apply IH].
Qed.

Lemma headingComment_lineEnded : lineEnded headingComment.
Proof. by exists (LF ++ js "# Playwright"). Qed.

(** The loop, for a table whose entries do not interfere: the text grows
    by the lines of the entries that the initial text does not show. *)
Lemma addValue_loop_exact (es : list (jsstring * regex)) :
  Forall (fun e => entry_ok e = true) es -> independent es = true ->
  forall (g0 added : jsstring) (first : bool),
    lineEnded g0 \/ g0 = [] ->
    (added = [] /\ first = true) \/ (lineEnded added /\ first = false) ->
    Forall (fun e => String_match added e.2 = false) es ->
    (fold_left addValue es (g0 ++ added, first)).1
    = g0 ++ added
      ++ (if first then appendedLines (missingFrom g0 es)
          else linesOf (missingFrom g0 es)).
Proof.
  induction es as [|[v re] es IH];
    intros Hoks Hind g0 added first Hg0 Hadded Hfree.
  { cbn. destruct first; by rewrite !app_nil_r. }
  inversion Hoks as [|? ? Hok Hoks']; subst.
  apply entry_ok_inv in Hok as (Hp & Hnil & _ & _). cbn [fst snd] in *.
  pose proof (independent_heading _ Hind) as Hhead.
  apply independent_inv in Hind as (_ & Hlater & Hind). cbn [fst snd] in *.
  inversion Hfree as [|? ? Hfree1 Hfree']; subst. cbn [snd] in Hfree1.
  inversion Hhead as [|? ? _ Hhead']; subst.
  assert (Hm : String_match (g0 ++ added) re = String_match g0 re).
  { rewrite String_match_app by done. by rewrite Hfree1, orb_false_r. }
  cbn [fold_left]. unfold missingFrom. cbn [List.filter snd].
  fold (missingFrom g0 es).
  destruct (String_match g0 re) eqn:Hg.
  - assert (Est : addValue (g0 ++ added, first) (v, re) = (g0 ++ added, first)).
    { unfold addValue. by rewrite Hm. }
    rewrite Est. cbn [negb]. by apply IH.
  - set (added' := (if first then headingComment else added) ++ v ++ LF).
    assert (Est : addValue (g0 ++ added, first) (v, re)
                  = (g0 ++ added', false)).
    { unfold addValue. rewrite Hm. cbn [negb]. subst added'.
      destruct Hadded as [[-> ->]|[_ ->]];
        by rewrite <- ?app_assoc, ?app_nil_r. }
    rewrite Est. cbn [negb].
    assert (Hended : lineEnded added').
    { exists ((if first then headingComment else added) ++ v).
      subst added'. by rewrite <- app_assoc. }
    assert (Hprev : lineEnded (if first then headingComment else added)).
    { destruct Hadded as [[_ ->]|[H ->]];
        [apply headingComment_lineEnded|done]. }
    rewrite IH; [|done|done|done|by right|].
    + cbn [linesOf List.map concat fst]. fold (linesOf (missingFrom g0 es)).
      subst added'. destruct Hadded as [[-> ->]|[_ ->]].
      * unfold appendedLines. cbn [linesOf List.map concat fst app].
        fold (linesOf (missingFrom g0 es)). by rewrite <- !app_assoc.
      * by rewrite <- !app_assoc.
    + apply Forall_forall. intros e' He'.
      rewrite Forall_forall in Hlater, Hhead', Hfree', Hoks'.
      destruct (entry_ok_inv e' (Hoks' e' He')) as (Hp' & Hnil' & _ & _).
      subst added'. rewrite String_match_app by (done || by left).
      rewrite (Hlater e' He'), orb_false_r.
      destruct Hadded as [[_ ->]|[_ ->]]; [by apply Hhead'|by apply Hfree'].
Qed.

Lemma valuesToAdd_independent : independent valuesToAdd = true.
Proof. by vm_compute. Qed.

(** X1.  What the ignore-file patch writes is what it found, with the
    trailing white space replaced by one newline (nothing if the file did
    not exist), followed by nothing when every required entry is
    recognised there, and otherwise by the heading comment and one line
    per entry that is not recognised, in the order of the table. *)
Theorem patchGitIgnore_appends_missing (existing : option jsstring) :
  let found := match existing with
               | Some content => trimEnd content ++ LF
               | None => []
               end in
  patchedGitIgnore existing
  = found ++ appendedLines (missingFrom found valuesToAdd).
Proof.
  intros found. unfold patchedGitIgnore. fold found.
  pose proof (addValue_loop_exact valuesToAdd valuesToAdd_ok
                valuesToAdd_independent found [] true) as H.
  rewrite !app_nil_r in H. cbn [app] in H. apply H.
  - subst found. destruct existing; [left; by eexists|by right].
  - by left.
  - repeat constructor.
Qed.

(** X2.  [_patchGitIgnore] always succeeds; afterwards [.gitignore]
    exists, every required entry is recognised in it, and no other file
    of the project has changed. *)
Theorem patchGitIgnore_result (w : World) :
  (_patchGitIgnore w).1 = Ok tt
  /\ (exists text,
        disk (_patchGitIgnore w).2 !! js ".gitignore" = Some text
        /\ allMatch text valuesToAdd)
  /\ forall path,
       path <> js ".gitignore" ->
       disk (_patchGitIgnore w).2 !! path = disk w !! path.
Proof.
  rewrite _patchGitIgnore_eq. cbn [fst snd disk]. split; [done|]. split.
  - eexists. rewrite lookup_insert_eq. split; [done|].
    apply patchedGitIgnore_spec.
  - intros path Hpath. by rewrite lookup_insert_ne.
Qed.

(** *** Which lines count as an entry *)

Lemma searchLines_inv (p : regex) (s : jsstring) (bol : bool) :
  searchLines p bol s = true ->
  exists before rest,
    s = before ++ rest
    /\ (before = [] /\ bol = true
        \/ exists b t, before = b ++ [t] /\ isLineTerminator t = true)
    /\ matchHere p rest = true.
Proof.
  revert bol. induction s as [|x s IH]; intros bol; cbn [searchLines].
  - rewrite orb_false_r. intros H. apply andb_true_iff in H as [-> H].
    exists [], []. split; [done|]. split; [by left|done].
  - intros H. apply orb_true_iff in H as [H|H].
    + apply andb_true_iff in H as [-> H].
      exists [], (x :: s). split; [done|]. split; [by left|done].
    + destruct (IH _ H) as (before & rest & -> & Hb & Hm).
      exists (x :: before), rest. split; [done|]. split; [|done].
      right. destruct Hb as [[-> Hx]|(b & t & -> & Ht)].
      * by exists [], x.
      * by exists (x :: b), t.
Qed.

Lemma String_match_iff (s : jsstring) (p : regex) :
  String_match s p = true <->
  exists before rest,
    s = before ++ rest /\ lineStart before /\ matchHere p rest = true.
Proof.
  split.
  - intros H. apply searchLines_inv in H as (before & rest & E & Hb & Hm).
    exists before, rest. split; [done|]. split; [|done].
    destruct Hb as [[-> _]|Hb]; [by left|by right].
  - intros (before & rest & -> & Hb & Hm). apply searchLines_at_line; [|done].
    destruct Hb as [->|Hb]; [by left|by right].
Qed.

Lemma matchHere_literal_iff (l : jsstring) (q : regex) (x : jsstring) :
  matchHere (List.map Chr l ++ q) x = true <->
  exists r, x = l ++ r /\ matchHere q r = true.
Proof.
  revert x. induction l as [|c l IH]; intros x; cbn [List.map app matchHere].
  - split; [intros H; by exists x|by intros (r & -> & H)].
  - destruct x as [|y x].
    + split; [done|by intros (r & ? & _)].
    + split.
      * intros H. apply andb_true_iff in H as [Hy H].
        apply N.eqb_eq in Hy as ->. apply IH in H as (r & -> & H).
        by exists r.
      * intros (r & [= -> ->] & H). rewrite N.eqb_refl. cbn [andb].
        apply IH. by exists r.
Qed.

Lemma matchHere_Eol (r : jsstring) :
  matchHere [Eol] r = true <-> lineEnd r.
Proof.
  unfold lineEnd. destruct r as [|t a]; cbn [matchHere].
  - split; [by left|done].
  - rewrite andb_true_r. split.
    + intros H. right. by exists t, a.
    + by intros [?|(t' & a' & [= <- <-] & H)].
Qed.

(** A pattern [/^l c?$/m]: the lines [l] and [l c] *)
Lemma String_match_anchored (l : jsstring) (c : N) (s : jsstring) :
  String_match s (List.map Chr l ++ [Opt c; Eol]) = true <->
  hasLine l s \/ hasLine (l ++ [c]) s.
Proof.
  rewrite String_match_iff. split.
  - intros (before & rest & -> & Hb & Hm).
    apply matchHere_literal_iff in Hm as (r & -> & Hm).
    assert (Hr : lineEnd r \/ exists r', r = c :: r' /\ lineEnd r').
    { destruct r as [|y r]; [left; by left|].
      change (matchHere [Opt c; Eol] (y :: r))
        with (((y =? c) && matchHere [Eol] r) || matchHere [Eol] (y :: r))
        in Hm.
      apply orb_true_iff in Hm as [Hm|Hm].
      - apply andb_true_iff in Hm as [Hy Hm]. apply N.eqb_eq in Hy as ->.
        right. exists r. split; [done|]. by apply matchHere_Eol.
      - left. by apply matchHere_Eol. }
    destruct Hr as [Hr|(r' & -> & Hr)].
    + left. by exists before, r.
    + right. exists before, r'. split; [by rewrite <- !app_assoc|done].
  - intros [(before & after & -> & Hb & Ha)|(before & after & -> & Hb & Ha)].
    + exists before, (l ++ after). split; [done|]. split; [done|].
      apply matchHere_literal_iff. exists after. split; [done|].
      apply matchHere_Eol in Ha.
      destruct after as [|y r]; [done|].
      change (matchHere [Opt c; Eol] (y :: r))
        with (((y =? c) && matchHere [Eol] r) || matchHere [Eol] (y :: r)).
      by rewrite Ha, orb_true_r.
    + exists before, (l ++ c :: after).
      split; [by rewrite <- !app_assoc|]. split; [done|].
      apply matchHere_literal_iff. exists (c :: after). split; [done|].
      apply matchHere_Eol in Ha.
      change (matchHere [Opt c; Eol] (c :: after))
        with (((c =? c) && matchHere [Eol] after)
              || matchHere [Eol] (c :: after)).
      by rewrite N.eqb_refl, Ha.
Qed.

(** A pattern [/^d?l c?$/m]: the four lines with and without [d] and [c] *)
Lemma String_match_anchored_opt (d : N) (l : jsstring) (c : N) (s : jsstring) :
  String_match s ([Opt d] ++ List.map Chr l ++ [Opt c; Eol]) = true <->
  hasLine l s \/ hasLine (l ++ [c]) s
  \/ hasLine (d :: l) s \/ hasLine (d :: l ++ [c]) s.
Proof.
  pose proof (String_match_anchored l c s) as H1.
  pose proof (String_match_anchored (d :: l) c s) as H2.
  rewrite String_match_iff in H1, H2. rewrite String_match_iff.
  cbn [List.map app] in *.
  assert (Hopt : forall x,
    matchHere (Opt d :: List.map Chr l ++ [Opt c; Eol]) x = true <->
    matchHere (List.map Chr l ++ [Opt c; Eol]) x = true
    \/ matchHere (Chr d :: List.map Chr l ++ [Opt c; Eol]) x = true).
  { intros [|y x]; cbn [matchHere].
    - split; [by left|by intros [?|?]].
    - rewrite orb_true_iff. tauto. }
  split.
  - intros (before & rest & E & Hb & Hm). apply Hopt in Hm as [Hm|Hm].
    + destruct (proj1 H1) as [?|?]; [by exists before, rest|tauto..].
    + destruct (proj1 H2) as [?|?]; [by exists before, rest|tauto..].
  - intros [H|[H|[H|H]]].
    + destruct (proj2 H1 (or_introl H)) as (before & rest & E & Hb & Hm).
      exists before, rest. split; [done|]. split; [done|]. apply Hopt. by left.
    + destruct (proj2 H1 (or_intror H)) as (before & rest & E & Hb & Hm).
      exists before, rest. split; [done|]. split; [done|]. apply Hopt. by left.
    + destruct (proj2 H2 (or_introl H)) as (before & rest & E & Hb & Hm).
      exists before, rest. split; [done|]. split; [done|]. apply Hopt. by right.
    + destruct (proj2 H2 (or_intror H)) as (before & rest & E & Hb & Hm).
      exists before, rest. split; [done|]. split; [done|]. apply Hopt. by right.
Qed.

Lemma String_match_prefix (l : jsstring) (c : N) (s : jsstring) :
  String_match s (List.map Chr l ++ [Opt c]) = true <-> startsLine l s.
Proof.
  rewrite String_match_iff. unfold startsLine. split.
  - intros (before & rest & -> & Hb & Hm).
    apply matchHere_literal_iff in Hm as (r & -> & _). by exists before, r.
  - intros (before & after & -> & Hb).
    exists before, (l ++ after). split; [done|]. split; [done|].
    apply matchHere_literal_iff. exists after. split; [done|].
    destruct after; cbn [matchHere]; [done|apply orb_true_r].
Qed.

Lemma In_valuesToAdd (value : jsstring) (re : regex) :
  In (value, re) valuesToAdd ->
  (value = js "node_modules/" /\ re = lit "node_modules" ++ [Opt (ch "/")])
  \/ (value = js "/test-results/"
      /\ re = [Opt (ch "/")] ++ lit "test-results" ++ [Opt (ch "/"); Eol])
  \/ (value = js "/playwright-report/"
      /\ re = lit "/playwright-report" ++ [Opt (ch "/"); Eol])
  \/ (value = js "/blob-report/"
      /\ re = lit "/blob-report" ++ [Opt (ch "/"); Eol])
  \/ (value = js "/playwright/.cache/"
      /\ re = lit "/playwright/.cache" ++ [Opt (ch "/"); Eol]).
Proof.
  unfold valuesToAdd. cbn [In]. intros H.
  repeat (destruct H as [H|H];
          [pose proof (f_equal fst H) as H1; pose proof (f_equal snd H) as H2;
           cbn [fst snd] in H1, H2; subst value re; tauto|]).
  done.
Qed.

Lemma js_values_distinct :
  js "node_modules/" <> js "/test-results/"
  /\ js "node_modules/" <> js "/playwright-report/"
  /\ js "node_modules/" <> js "/blob-report/"
  /\ js "node_modules/" <> js "/playwright/.cache/"
  /\ js "/test-results/" <> js "/playwright-report/"
  /\ js "/test-results/" <> js "/blob-report/"
  /\ js "/test-results/" <> js "/playwright/.cache/".
Proof. repeat split; by vm_compute. Qed.

(** X3.  Which lines of a [.gitignore] make a required entry count as
    present.  [node_modules/] is recognised by any line that begins with
    [node_modules]; [/test-results/] by a line that is [test-results]
    with or without the leading and the trailing slash; each of the three
    other entries by a line that is the entry itself or the entry without
    its trailing slash, the leading slash being required. *)
Theorem recognised_lines (s : jsstring) :
  (forall re, In (js "node_modules/", re) valuesToAdd ->
     (String_match s re = true <-> startsLine (js "node_modules") s))
  /\ (forall re, In (js "/test-results/", re) valuesToAdd ->
        (String_match s re = true <->
         hasLine (js "test-results") s \/ hasLine (js "test-results/") s
         \/ hasLine (js "/test-results") s \/ hasLine (js "/test-results/") s))
  /\ (forall value re, In (value, re) valuesToAdd ->
        value <> js "node_modules/" -> value <> js "/test-results/" ->
        (String_match s re = true <->
         hasLine value s \/ hasLine (removelast value) s)).
Proof.
  destruct js_values_distinct as (D1 & D2 & D3 & D4 & D5 & D6 & D7).
  split; [|split].
  - intros re Hin.
    destruct (In_valuesToAdd _ _ Hin)
      as [[_ ->]|[[E _]|[[E _]|[[E _]|[E _]]]]]; [|done..].
    apply (String_match_prefix (js "node_modules") (ch "/")).
  - intros re Hin.
    destruct (In_valuesToAdd _ _ Hin)
      as [[E _]|[[_ ->]|[[E _]|[[E _]|[E _]]]]]; [by symmetry in E| |done..].
    apply (String_match_anchored_opt (ch "/") (js "test-results") (ch "/")).
  - intros value re Hin Hn Ht.
    destruct (In_valuesToAdd _ _ Hin)
      as [[E _]|[[E _]|[[-> ->]|[[-> ->]|[-> ->]]]]]; [done..| | |].
    + rewrite (String_match_anchored (js "/playwright-report") (ch "/")).
      split; (intros [H|H]; [right|left]; exact H).
    + rewrite (String_match_anchored (js "/blob-report") (ch "/")).
      split; (intros [H|H]; [right|left]; exact H).
    + rewrite (String_match_anchored (js "/playwright/.cache") (ch "/")).
      split; (intros [H|H]; [right|left]; exact H).
Qed.

(** ** More on the manifest patch *)

Section ManifestMembers.
Context `{Utils} `{Host} `{Numbers}.

Lemma includesNoTestSpecified_error (test : option json) (e : Error) :
  includesNoTestSpecified test = Throw e -> e = TypeError.
Proof. destruct test as [[ | | | | | ]|]; cbn; congruence. Qed.

Lemma patchScriptsValue_error (answers : PromptOptions) (scripts : json)
  (e : Error) :
  patchScriptsValue answers scripts = Throw e -> e = TypeError.
Proof.
  destruct scripts as [ |b|n|s|l|m]; cbn [patchScriptsValue];
    try (destruct (framework answers); congruence); try congruence.
  destruct (includesNoTestSpecified (lookupKey (js "test") m)) as [r|e']
    eqn:Hinc; cbn [mbind result_bind]; [done|].
  intros [= <-]. by eapply includesNoTestSpecified_error.
Qed.

Lemma patchManifest_error (answers : PromptOptions) (doc : json) (e : Error) :
  patchManifest answers doc = Throw e -> e = TypeError.
Proof.
  destruct doc as [ |b|n|s|l|m]; try (cbn; congruence).
  rewrite patchManifest_object.
  destruct (patchScriptsValue answers (scriptsOf m)) as [s'|e'] eqn:Hs;
    [done|].
  intros [= <-]. by eapply patchScriptsValue_error.
Qed.

(** X4.  What lines 314 to 319 do to a [scripts] object: [test-ct] is set
    to the component-testing invocation exactly when a framework is
    selected; a [test] script is removed exactly when its command
    contains the text [no test specified], wherever in the command; every
    other script keeps its value. *)
Theorem patched_scripts (answers : PromptOptions)
  (scripts : list (jsstring * json)) (patched : json) :
  keysOrdered (List.map fst scripts) = true ->
  patchScriptsValue answers (JObject scripts) = Ok patched ->
  exists scripts',
    patched = JObject scripts'
    /\ (forall k, k <> js "test" -> k <> js "test-ct" ->
          lookupKey k scripts' = lookupKey k scripts)
    /\ lookupKey (js "test-ct") scripts'
       = match framework answers with
         | Some _ =>
             Some (JString
                     (js "playwright test -c playwright-ct.config."
                      ++ languageToFileExtension (language answers)))
         | None => lookupKey (js "test-ct") scripts
         end
    /\ (forall cmd,
          lookupKey (js "test") scripts = Some (JString cmd) ->
          lookupKey (js "test") scripts'
          = if String_includes cmd (js "no test specified")
            then None else Some (JString cmd))
    /\ (lookupKey (js "test") scripts = None ->
        lookupKey (js "test") scripts' = None).
Proof.
  intros Hord. cbn [patchScriptsValue].
  destruct (includesNoTestSpecified (lookupKey (js "test") scripts))
    as [remove|] eqn:Hinc; [|done].
  cbn [mbind result_bind]. intros [= <-].
  set (s1 := if remove then deleteKey (js "test") scripts else scripts).
  assert (Hs1 : forall k,
    lookupKey k s1
    = if remove && bool_decide (k = js "test") then None
      else lookupKey k scripts).
  { intros k. subst s1. destruct remove; [|done].
    by rewrite lookupKey_deleteKey. }
  eexists. split; [reflexivity|].
  assert (Hs2 : forall k,
    lookupKey k
      match framework answers with
      | Some _ =>
          setKey (js "test-ct")
            (JString (testCtScript (languageToFileExtension (language answers))))
            s1
      | None => s1
      end
    = match framework answers with
      | Some _ =>
          if bool_decide (k = js "test-ct")
          then Some (JString
                       (testCtScript
                          (languageToFileExtension (language answers))))
          else lookupKey k s1
      | None => lookupKey k s1
      end).
  { intros k. destruct (framework answers); [|done]. apply lookupKey_setKey. }
  pose proof test_ne_test_ct as Hne.
  split; [|split; [|split]].
  - intros k Hk Hk'. rewrite Hs2, Hs1.
    rewrite (bool_decide_eq_false_2 (k = js "test")) by done.
    rewrite andb_false_r.
    destruct (framework answers); [|done].
    by rewrite bool_decide_eq_false_2.
  - rewrite Hs2, Hs1.
    rewrite (bool_decide_eq_false_2 (js "test-ct" = js "test")) by done.
    rewrite andb_false_r.
    destruct (framework answers); [|done].
    by rewrite bool_decide_eq_true_2.
  - intros cmd Hcmd. rewrite Hs2, Hs1.
    rewrite (bool_decide_eq_true_2 (js "test" = js "test")) by done.
    rewrite andb_true_r. rewrite Hcmd in Hinc. cbn in Hinc.
    injection Hinc as <-. rewrite Hcmd.
    change (js "no test specified") with noTestSpecified.
    destruct (framework answers);
      [rewrite bool_decide_eq_false_2 by done|];
      by destruct (String_includes cmd noTestSpecified).
  - intros Hnone. rewrite Hs2, Hs1, Hnone.
    destruct (framework answers);
      [rewrite bool_decide_eq_false_2 by done|];
      by destruct (remove && _).
Qed.

(** X5.  The manifest patch touches nothing but [scripts]: the text
    written is the printed form of an object that holds every other
    top-level member with the value it had, in the order it had; [scripts]
    keeps its place when the manifest had one and is added last when it
    had none. *)
Theorem manifest_patch_keeps_members (answers : PromptOptions)
  (content text : jsstring) (members : list (jsstring * json)) :
  JSON_parse content = Some (JObject members) ->
  patchedPackageJSON answers content = Ok text ->
  exists members',
    text = JSON_stringify (JObject members') ++ LF
    /\ (forall k, k <> js "scripts" ->
          lookupKey k members' = lookupKey k members)
    /\ List.map fst members'
       = if given (lookupKey (js "scripts") members)
         then List.map fst members
         else List.map fst members ++ [js "scripts"].
Proof.
  intros Hparse. unfold patchedPackageJSON. rewrite Hparse.
  cbn [orThrow mbind result_bind]. rewrite patchManifest_object.
  destruct (patchScriptsValue answers (scriptsOf members)) as [s'|]; [|done].
  intros [= <-]. eexists. split; [reflexivity|]. split.
  - intros k Hk. rewrite lookupKey_setKey. by rewrite bool_decide_eq_false_2.
  - apply keys_setKey_plain, scripts_not_index.
Qed.

Lemma patchedPackageJSON_throws (answers : PromptOptions)
  (content : jsstring) (e : Error) :
  patchedPackageJSON answers content = Throw e ->
  (e = SyntaxError /\ JSON_parse content = None)
  \/ (e = TypeError
      /\ exists doc, JSON_parse content = Some doc /\ isManifest doc = false).
Proof.
  unfold patchedPackageJSON.
  destruct (JSON_parse content) as [doc|] eqn:Hparse;
    cbn [orThrow mbind result_bind]; [|intros [= <-]; by left].
  destruct (patchManifest answers doc) as [doc'|e'] eqn:Hp;
    cbn [mbind result_bind]; [done|].
  intros [= <-]. right. split; [by eapply patchManifest_error|].
  exists doc. split; [done|].
  destruct (isManifest doc) eqn:Hm; [|done].
  destruct doc as [ | | | | |members]; try done.
  destruct (manifest_patched answers members Hm) as (scripts & Hok & _).
  congruence.
Qed.

Context `{!CanonicalNumbers}.

Lemma patchedPackageJSON_parses (answers : PromptOptions)
  (content text : jsstring) :
  patchedPackageJSON answers content = Ok text ->
  exists doc doc',
    JSON_parse content = Some doc /\ patchManifest answers doc = Ok doc'
    /\ text = JSON_stringify doc' ++ LF
    /\ wellFormed doc' = true
    /\ JSON_parse text = Some (norm doc').
Proof.
  unfold patchedPackageJSON.
  destruct (JSON_parse content) as [doc|] eqn:Hparse;
    cbn [orThrow mbind result_bind]; [|done].
  destruct (patchManifest answers doc) as [doc'|e'] eqn:Hp;
    cbn [mbind result_bind]; [|done].
  intros [= <-]. exists doc, doc'.
  assert (Hwf : wellFormed doc' = true).
  { eapply patchManifest_wf; [|exact Hp]. by eapply JSON_parse_wf. }
  repeat split; try done. by apply JSON_parse_stringified.
Qed.

(** X6.  [_patchPackageJSON] is all or nothing.  When it throws, the
    project and the record of events are as they were, and the error
    tells why: [ENOENT] for a missing manifest, [SyntaxError] for one that
    is not JSON, [TypeError] for JSON that is not a manifest.  When it
    returns, [package.json] is the one file written, and what was written
    is JSON again. *)
Theorem patchPackageJSON_all_or_nothing (answers : PromptOptions)
  (w : World) :
  match (_patchPackageJSON answers w).1 with
  | Throw e =>
      (_patchPackageJSON answers w).2 = w
      /\ ((e = ENOENT /\ disk w !! js "package.json" = None)
          \/ (e = SyntaxError
              /\ exists content,
                   disk w !! js "package.json" = Some content
                   /\ JSON_parse content = None)
          \/ (e = TypeError
              /\ exists content doc,
                   disk w !! js "package.json" = Some content
                   /\ JSON_parse content = Some doc
                   /\ isManifest doc = false))
  | Ok _ =>
      exists text doc,
        (_patchPackageJSON answers w).2
        = {| disk := <[js "package.json" := text]> (disk w);
             events := events w ++ [Written (js "package.json") text] |}
        /\ JSON_parse text = Some doc
  end.
Proof.
  rewrite _patchPackageJSON_eq.
  destruct (disk w !! js "package.json") as [content|] eqn:Hdisk;
    [|cbn [fst snd]; split; [done|by left]].
  destruct (patchedPackageJSON answers content) as [text|e] eqn:Hp;
    cbn [fst snd].
  - destruct (patchedPackageJSON_parses _ _ _ Hp)
      as (doc & doc' & _ & _ & _ & _ & Hback).
    by exists text, (norm doc').
  - split; [done|]. right.
    destruct (patchedPackageJSON_throws _ _ _ Hp)
      as [[-> Hnone]|[-> (doc & Hdoc & Hm)]].
    + left. split; [done|]. by exists content.
    + right. split; [done|]. by exists content, doc.
Qed.
End ManifestMembers.

(** ** The dependency check *)

Lemma truthy_optionalMember (o : option json) (pkg : jsstring) :
  truthyValue (optionalMember o pkg) = true <->
  exists deps v,
    o = Some (JObject deps) /\ lookupKey pkg deps = Some v /\ truthy v = true.
Proof.
  split.
  - destruct o as [[ | | | | |deps]|]; try done.
    cbn [optionalMember getProperty].
    destruct (lookupKey pkg deps) as [v|] eqn:Hl; [|done].
    cbn [truthyValue]. intros Hv. by exists deps, v.
  - intros (deps & v & -> & Hl & Hv). cbn [optionalMember getProperty].
    by rewrite Hl.
Qed.

Section DependencyCheck.
Context `{Numbers}.

Lemma _hasDependency_eq (files : gmap jsstring jsstring) (pkg : jsstring) :
  _hasDependency files pkg
  = match files !! js "package.json" with
    | Some content =>
        match JSON_parse content with
        | Some (JObject members) =>
            existsb (fun section =>
                       truthyValue (optionalMember (lookupKey section members)
                                      pkg))
              dependencySections
        | _ => false
        end
    | None => false
    end.
Proof.
  unfold _hasDependency.
  destruct (files !! js "package.json") as [content|]; [|done].
  cbn [orThrow mbind result_bind].
  destruct (JSON_parse content) as [[ | | | | |members]|]; try done.
  cbn [orThrow mbind result_bind member getProperty mret result_ret tryCatch
       dependencySections existsb].
  by rewrite orb_false_r, orb_assoc.
Qed.

(** X7.  The dependency check of the planner answers yes exactly when the
    manifest exists, is JSON for an object, and one of its sections
    [dependencies], [devDependencies] and [optionalDependencies] is an
    object that holds [@types/node] with a truthy value.  Everything else
    (no manifest, text that is not JSON, JSON that is [null] or not an
    object, a section that is not an object, a version that is empty or
    [null]) answers no, and nothing throws. *)
Theorem hasDependency_types_node (files : gmap jsstring jsstring) :
  _hasDependency files (js "@types/node") = true <->
  exists content doc,
    files !! js "package.json" = Some content
    /\ JSON_parse content = Some doc
    /\ declares doc (js "@types/node").
Proof.
  rewrite _hasDependency_eq. split.
  - destruct (files !! js "package.json") as [content|]; [|done].
    destruct (JSON_parse content) as [[ | | | | |members]|] eqn:Hparse;
      try done.
    intros Hex. apply existsb_exists in Hex as (section & Hin & Hs).
    apply truthy_optionalMember in Hs as (deps & v & Hl & Hv & Ht).
    exists content, (JObject members). split; [done|]. split; [done|].
    by exists members, section, deps, v.
  - intros (content & doc & -> & -> & members & section & deps & v
            & -> & Hin & Hl & Hv & Ht).
    apply existsb_exists. exists section. split; [done|].
    apply truthy_optionalMember. by exists deps, v.
Qed.
End DependencyCheck.

Lemma existsb_ext_In {A} (f g : A -> bool) (l : list A) :
  (forall x, In x l -> f x = g x) -> existsb f l = existsb g l.
Proof.
  induction l as [|x l IH]; intros Hfg; [done|].
  cbn [existsb]. rewrite (Hfg x) by by left.
  rewrite IH; [done|]. intros y Hy. apply Hfg. by right.
Qed.

Lemma sections_not_scripts (section : jsstring) :
  In section dependencySections -> section <> js "scripts".
Proof.
  intros Hin ->. vm_compute in Hin. intuition discriminate.
Qed.

Section DependencyCheckAfterPatch.
Context `{Utils} `{Host} `{Numbers} `{!CanonicalNumbers}.

(** X8.  The manifest patch does not change the answer of the dependency
    check: if the manifest holds no number too large to be represented,
    then [_hasDependency] answers for the text the patch writes what it
    answers for the text the patch read. *)
Theorem hasDependency_after_patch (answers : PromptOptions)
  (content text : jsstring) (doc : json)
  (files : gmap jsstring jsstring) :
  JSON_parse content = Some doc -> norm doc = doc ->
  patchedPackageJSON answers content = Ok text ->
  _hasDependency (<[js "package.json" := text]> files) (js "@types/node")
  = _hasDependency (<[js "package.json" := content]> files)
      (js "@types/node").
Proof.
  intros Hparse Hnorm Hp.
  destruct (patchedPackageJSON_parses _ _ _ Hp)
    as (doc0 & doc' & Hparse0 & Hpatch & _ & _ & Hback).
  rewrite Hparse in Hparse0. injection Hparse0 as <-.
  rewrite !_hasDependency_eq, !lookup_insert_eq, Hparse, Hback.
  destruct doc as [ |b|n|s|l|members]; try done.
  - by injection Hpatch as <-.
  - rewrite patchManifest_object in Hpatch.
    destruct (patchScriptsValue answers (scriptsOf members)) as [s'|];
      [|done].
    injection Hpatch as <-. cbn [norm].
    apply existsb_ext_In.
    intros section Hin. do 2 f_equal.
    change (fun kv : jsstring * json => (kv.1, norm kv.2)) with normMember.
    rewrite lookupKey_normMember, lookupKey_setKey.
    rewrite bool_decide_eq_false_2 by by apply sections_not_scripts.
    cbn [norm] in Hnorm. injection Hnorm as Hnorm.
    change (fun kv : jsstring * json => (kv.1, norm kv.2)) with normMember
      in Hnorm.
    rewrite <- Hnorm at 2. by rewrite lookupKey_normMember.
Qed.
End DependencyCheckAfterPatch.

(** ** More on the plan *)

Lemma keys_Map_set {V} (k : jsstring) (v : V) (m : list (jsstring * V)) :
  List.map fst (Map_set k v m)
  = if given (lookupKey k m) then List.map fst m else List.map fst m ++ [k].
Proof.
  unfold Map_set. destruct (lookupKey k m); cbn [given].
  - apply keys_replaceKey.
  - by rewrite map_app.
Qed.

Lemma Map_set_keeps_first {V} (first k : jsstring) (v : V)
  (m : list (jsstring * V)) :
  NoDup (List.map fst m) /\ head (List.map fst m) = Some first ->
  NoDup (List.map fst (Map_set k v m))
  /\ head (List.map fst (Map_set k v m)) = Some first.
Proof.
  intros [Hnd Hhead]. rewrite keys_Map_set.
  destruct (lookupKey k m) eqn:Hl; cbn [given]; [done|]. split.
  - apply NoDup_app. split; [done|]. split; [|apply NoDup_singleton].
    intros x Hx Hk. apply list_elem_of_In in Hx.
    apply list_elem_of_In in Hk. cbn [In] in Hk.
    destruct Hk as [<-|[]]. by apply lookupKey_None in Hl.
  - by destruct (List.map fst m).
Qed.

Lemma Map_set_first {V} (k : jsstring) (v : V) :
  NoDup (List.map fst (Map_set k v []))
  /\ head (List.map fst (Map_set k v [])) = Some k.
Proof. split; [apply NoDup_singleton|reflexivity]. Qed.

Section PlanShape.
Context `{PackageManager.t} `{Utils} `{Host} `{Numbers}.
Variable options : CliOptions.

Lemma plan_shape (project : gmap jsstring jsstring) (answers : PromptOptions) :
  (_identifyChanges options project answers).2
  = (if given (project !! js "package.json") then [] else [initProject])
    ++ (if given (ct options)
        then [installComponentTesting options (framework answers)]
        else installEndToEnd options)
    ++ (if _hasDependency project (js "@types/node")
        then [] else [installTypes])
    ++ (if installPlaywrightBrowsers answers
        then [downloadBrowsers options answers] else []).
Proof.
  unfold _identifyChanges, downloadBrowsers, initProject, installTypes,
    installComponentTesting, installEndToEnd.
  destruct (given (ct options));
    destruct (given (project !! js "package.json"));
    destruct (_hasDependency project (js "@types/node"));
    destruct (installPlaywrightBrowsers answers);
    destruct (framework answers);
    cbn [negb snd interpolate app]; reflexivity.
Qed.

(** X9.  With the [ct] option the plan installs, instead of the test
    runner, [dotenv] and the playwright-tools add-on, the one
    component-testing package of the selected framework at the selected
    tag; when the answers name no framework that package is the text
    [undefined].  The whole plan is: the project initialisation when there
    is no manifest, that installation, the type definitions unless
    declared, the browser download when asked for. *)
Theorem plan_component_testing (project : gmap jsstring jsstring)
  (answers : PromptOptions) (values : list jsstring) :
  ct options = Some values ->
  (_identifyChanges options project answers).2
  = (if given (project !! js "package.json") then [] else [initProject])
    ++ [ {| name := js "Installing Playwright Component Testing";
            command :=
              PackageManager.installDevDependency
                (match framework answers with
                 | Some f =>
                     js "@playwright/experimental-ct-" ++ frameworkName f
                 | None => js "undefined"
                 end ++ packageTag options);
            phase := pre |} ]
    ++ (if _hasDependency project (js "@types/node")
        then [] else [installTypes])
    ++ (if installPlaywrightBrowsers answers
        then [downloadBrowsers options answers] else []).
Proof. intros Hct. rewrite plan_shape, Hct. reflexivity. Qed.

(** X10.  The plan begins with the initialisation of a project exactly
    when the directory has no [package.json]; with a manifest in place no
    command of the plan bears that name. *)
Theorem plan_initialises_project (project : gmap jsstring jsstring)
  (answers : PromptOptions) :
  let commands := (_identifyChanges options project answers).2 in
  (project !! js "package.json" = None ->
   exists rest, commands = initProject :: rest)
  /\ (project !! js "package.json" <> None ->
      forall c, In c commands -> name c <> name initProject).
Proof.
  intros commands. subst commands. rewrite plan_shape. split.
  - intros ->. cbn [given app]. by eexists.
  - intros Hsome c Hin.
    destruct (project !! js "package.json"); [|done]. cbn [given app] in Hin.
    intros E. cbn [name initProject] in E.
    assert (Hdiff : forall rest,
      name c = js "Initializing " ++ rest -> False); [|by eapply Hdiff].
    clear E. intros rest E.
    repeat (apply in_app_or in Hin as [Hin|Hin]).
    + destruct (given (ct options)); cbn [In installEndToEnd] in Hin;
        repeat (destruct Hin as [<-|Hin]; [by vm_compute in E|]); done.
    + destruct (_hasDependency project (js "@types/node")); [done|].
      destruct Hin as [<-|[]]. by vm_compute in E.
    + destruct (installPlaywrightBrowsers answers); [|done].
      destruct Hin as [<-|[]]. by vm_compute in E.
Qed.
(** X11.  The plan installs the type definitions of Node exactly when
    the dependency check does not find them declared: with a negative
    answer the plan holds the pre-phase installation of [@types/node],
    which takes no tag; with a positive answer no command of the plan
    bears its name.  A project without manifest gets both the
    initialisation and this installation. *)
Theorem plan_installs_types (project : gmap jsstring jsstring)
  (answers : PromptOptions) :
  let commands := (_identifyChanges options project answers).2 in
  (_hasDependency project (js "@types/node") = false ->
   In {| name := js "Installing Types";
         command := PackageManager.installDevDependency (js "@types/node");
         phase := pre |} commands)
  /\ (_hasDependency project (js "@types/node") = true ->
      forall c, In c commands -> name c <> js "Installing Types")
  /\ (project !! js "package.json" = None ->
      exists between after,
        commands = initProject :: between ++ installTypes :: after).
Proof.
  intros commands. subst commands. rewrite plan_shape. split; [|split].
  - intros ->. apply in_or_app. right. apply in_or_app. right. by left.
  - intros -> c Hin E.
    repeat (apply in_app_or in Hin as [Hin|Hin]).
    + destruct (given (project !! js "package.json")); [done|].
      destruct Hin as [<-|[]]. by vm_compute in E.
    + destruct (given (ct options)); cbn [In installEndToEnd] in Hin;
        repeat (destruct Hin as [<-|Hin]; [by vm_compute in E|]); done.
    + done.
    + destruct (installPlaywrightBrowsers answers); [|done].
      destruct Hin as [<-|[]]. by vm_compute in E.
  - intros Hnone.
    assert (Hdep : _hasDependency project (js "@types/node") = false).
    { unfold _hasDependency. by rewrite Hnone. }
    rewrite Hnone, Hdep. cbn [given app]. by do 2 eexists.
Qed.

Lemma files_first (project : gmap jsstring jsstring)
  (answers : PromptOptions) :
  NoDup (List.map fst (_identifyChanges options project answers).1)
  /\ head (List.map fst (_identifyChanges options project answers).1)
     = Some (configFile answers).
Proof.
  unfold _identifyChanges, configFile.
  destruct (given (ct options)); destruct (framework answers);
    destruct (installGitHubActions answers);
    destruct (given (no_examples options));
    cbn [negb fst];
    repeat first [apply Map_set_first | apply Map_set_keeps_first].
Qed.

(** X12.  The files of the plan have pairwise different paths, so no
    planned file is created twice, and the first of them is the
    configuration file: [playwright-ct.config] when the answers name a
    framework and [playwright.config] otherwise, with the extension of
    the chosen language. *)
Theorem planned_files (project : gmap jsstring jsstring)
  (answers : PromptOptions) :
  let files := (_identifyChanges options project answers).1 in
  NoDup (List.map fst files)
  /\ exists content rest,
       files
       = (match framework answers with
          | Some _ => js "playwright-ct.config."
          | None => js "playwright.config."
          end ++ languageToFileExtension (language answers), content)
         :: rest.
Proof.
  intros files. destruct (files_first project answers) as [Hnd Hhead].
  split; [done|]. fold files in Hhead.
  destruct files as [|[path content] rest]; [done|].
  injection Hhead as ->. by exists content, rest.
Qed.

(** X13.  A quiet run never names a framework.  So with both the [quiet]
    and the [ct] option the plan installs a package called [undefined]
    (followed by the tag), and the configuration file it creates is the
    one of end-to-end testing. *)
Theorem quiet_component_testing (project : gmap jsstring jsstring)
  (testsExists tsconfigExists : bool) (prompted : PromptOptions)
  (values values' : list jsstring) :
  quiet options = Some values -> ct options = Some values' ->
  let answers :=
    _askQuestions options None testsExists tsconfigExists prompted in
  framework answers = None
  /\ In {| name := js "Installing Playwright Component Testing";
           command :=
             PackageManager.installDevDependency
               (js "undefined" ++ packageTag options);
           phase := pre |}
       (_identifyChanges options project answers).2
  /\ head (List.map fst (_identifyChanges options project answers).1)
     = Some (js "playwright.config."
             ++ languageToFileExtension (language answers)).
Proof.
  intros Hq Hct answers.
  assert (Hf : framework answers = None).
  { subst answers. unfold _askQuestions. by rewrite Hq. }
  split; [done|]. split.
  - rewrite plan_shape, Hct, Hf. cbn [given].
    apply in_or_app. right. by left.
  - destruct (files_first project answers) as [_ Hhead].
    rewrite Hhead. unfold configFile. by rewrite Hf.
Qed.
End PlanShape.

(** ** A run that fails at the manifest *)

Section RunFailure.
Context `{PackageManager.t} `{Utils} `{Host} `{Numbers}.

Lemma executeCommands_throws (commands : list Command) (w : World)
  (e : Error) :
  (executeCommands commands w).1 = Throw e -> e = CommandFailed.
Proof.
  revert w. induction commands as [|c rest IH]; intros w; [done|].
  rewrite executeCommands_cons.
  destruct (execSync (command c) (disk w)) as [d|]; [apply IH|].
  by intros [= <-].
Qed.

(** X14.  Nothing is rolled back.  A run that ends with an error other
    than a failed command has failed in the manifest patch (with [ENOENT],
    [SyntaxError] or [TypeError]): by then the pre-phase commands have run
    and the files are written, [.gitignore] is patched and shows every
    required entry, that write is the last thing that happened, and no
    post-phase command has run.  ([executeCommands] and [createFiles] are
    as modelled: the one throws only for a failed command, the other
    never.) *)
Theorem manifest_failure_keeps_gitignore (answers : PromptOptions)
  (files : list (jsstring * jsstring)) (allCommands : list Command)
  (w : World) (e : Error) :
  (applyChanges answers files allCommands w).1 = Throw e ->
  e <> CommandFailed ->
  exists before text,
    disk (applyChanges answers files allCommands w).2 !! js ".gitignore"
    = Some text
    /\ allMatch text valuesToAdd
    /\ events (applyChanges answers files allCommands w).2
       = events w ++ before ++ [Written (js ".gitignore") text]
    /\ Forall (fun ev => forall c, ev = Executed c -> phase c = pre) before
    /\ (e = ENOENT \/ e = SyntaxError \/ e = TypeError).
Proof.
  unfold applyChanges. rewrite splitByPhase_filter.
  set (preCommands := filter (fun c => isPre c = true) allCommands).
  set (postCommands := filter (fun c => isPost c = true) allCommands).
  unfold mbind, M_bind.
  pose proof (executeCommands_traces preCommands w) as [_ Hpre].
  pose proof (executeCommands_throws preCommands w) as Hthrow1.
  destruct (executeCommands preCommands w) as [[[]|e1] w1];
    cbn [fst snd] in *;
    [|intros [= <-] He; destruct He; by apply Hthrow1].
  specialize (Hpre I).
  destruct (createFiles_traces files false w1) as (writes & Hall & Hr & Hev).
  destruct (createFiles files false w1) as [r2 w2]. cbn [fst snd] in *.
  subst r2. rewrite _patchGitIgnore_eq.
  set (text := patchedGitIgnore (disk w2 !! js ".gitignore")).
  set (w3 := {| disk := <[js ".gitignore" := text]> (disk w2);
                events := events w2 ++ [Written (js ".gitignore") text] |}).
  assert (Hw3 : exists before,
    disk w3 !! js ".gitignore" = Some text
    /\ allMatch text valuesToAdd
    /\ events w3 = events w ++ before ++ [Written (js ".gitignore") text]
    /\ Forall (fun ev => forall c, ev = Executed c -> phase c = pre) before).
  { exists (List.map Executed preCommands ++ writes).
    subst w3. cbn [disk events]. rewrite lookup_insert_eq.
    split; [done|]. split; [apply patchedGitIgnore_spec|].
    split; [by rewrite Hev, Hpre, <- !app_assoc|].
    apply Forall_app. split.
    - apply Forall_forall. intros ev Hin c ->.
      apply list_elem_of_In, in_map_iff in Hin as (c' & [= ->] & Hin).
      apply list_elem_of_In, list_elem_of_filter in Hin as [Hc _].
      unfold isPre in Hc. by destruct (phase c).
    - eapply Forall_impl; [exact Hall|].
      by intros ev (p & c' & -> & _) c [=]. }
  destruct Hw3 as (before & Hg & Hmatch & Hevents & Hbefore).
  rewrite _patchPackageJSON_eq.
  destruct (disk w3 !! js "package.json") as [content|] eqn:Hdisk.
  - destruct (patchedPackageJSON answers content) as [t|e0] eqn:Hp.
    + pose proof (executeCommands_throws postCommands
        {| disk := <[js "package.json" := t]> (disk w3);
           events := events w3 ++ [Written (js "package.json") t] |})
        as Hthrow5.
      destruct (executeCommands postCommands _) as [[[]|e5] w5];
        cbn [fst snd] in *; [done|].
      intros [= <-] He. destruct He. by apply Hthrow5.
    + cbn [fst snd]. intros [= <-] He. exists before, text.
      repeat (split; [done|]).
      destruct (patchedPackageJSON_throws _ _ _ Hp) as [[-> _]|[-> _]]; tauto.
  - cbn [fst snd]. intros [= <-] He. exists before, text.
    repeat (split; [done|]). tauto.
Qed.
End RunFailure.

(** ** The further properties at concrete inputs *)

Lemma recognised_lines_witness :
  String_match (js "# build" ++ LF ++ js "/blob-report" ++ LF)
    (lit "/blob-report" ++ [Opt (ch "/"); Eol]) = true.
Proof.
  apply (proj2 (proj2 (recognised_lines
                         (js "# build" ++ LF ++ js "/blob-report" ++ LF)))
           (js "/blob-report/")).
  - right; right; right; left; reflexivity.
  - intros E; vm_compute in E; discriminate E.
  - intros E; vm_compute in E; discriminate E.
  - right. exists (js "# build" ++ LF), LF.
    split; [reflexivity|]. split.
    + right. exists (js "# build"), 10%N. split; reflexivity.
    + right. exists 10%N, []. split; reflexivity.
Defined.

Lemma patched_scripts_witness :
  exists scripts',
    @patchScriptsValue plainUtils (exampleAnswers (Some react))
      (JObject [(js "test", JString placeholderTest)])
    = Ok (JObject scripts')
    /\ lookupKey (js "test") scripts' = None.
Proof.
  destruct (@patched_scripts plainUtils (exampleAnswers (Some react))
              [(js "test", JString placeholderTest)]
              (JObject
                 [(js "test-ct",
                   JString (js "playwright test -c playwright-ct.config.ts"))])
              eq_refl eq_refl)
    as (scripts' & E & _ & _ & Htest & _).
  exists scripts'. split.
  - rewrite <- E. reflexivity.
  - exact (Htest placeholderTest eq_refl).
Defined.

Lemma manifest_patch_keeps_members_witness :
  exists members',
    emptyManifestPatched = JSON_stringify (JObject members') ++ LF
    /\ List.map fst members' = [js "scripts"].
Proof.
  destruct (@manifest_patch_keeps_members plainUtils verbatimNumbers
              (exampleAnswers None) (js "{}") emptyManifestPatched []
              eq_refl eq_refl)
    as (members' & E & _ & Hkeys).
  exists members'. split; [exact E|exact Hkeys].
Defined.

Lemma patchPackageJSON_all_or_nothing_witness :
  (@_patchPackageJSON plainUtils quietHost verbatimNumbers
     (exampleAnswers None) corruptProject).2 = corruptProject.
Proof.
  pose proof (@patchPackageJSON_all_or_nothing plainUtils quietHost
                verbatimNumbers verbatimNumbers_canonical
                (exampleAnswers None) corruptProject) as Hx.
  change ((@_patchPackageJSON plainUtils quietHost verbatimNumbers
             (exampleAnswers None) corruptProject).1)
    with (@Throw unit SyntaxError) in Hx.
  exact (proj1 Hx).
Defined.

Lemma hasDependency_after_patch_witness :
  @_hasDependency verbatimNumbers
    (<[js "package.json" := emptyManifestPatched]> ∅) (js "@types/node")
  = @_hasDependency verbatimNumbers
      (<[js "package.json" := js "{}"]> ∅) (js "@types/node").
Proof.
  exact (@hasDependency_after_patch plainUtils verbatimNumbers
           verbatimNumbers_canonical (exampleAnswers None) (js "{}")
           emptyManifestPatched (JObject []) ∅ eq_refl eq_refl eq_refl).
Defined.

Lemma plan_component_testing_witness :
  exists rest,
    (@_identifyChanges npm plainUtils quietHost verbatimNumbers
       componentTesting ∅ (exampleAnswers (Some react))).2
    = @initProject npm
      :: {| name := js "Installing Playwright Component Testing";
            command :=
              js "npm install --save-dev @playwright/experimental-ct-react";
            phase := pre |}
      :: rest.
Proof.
  eexists.
  rewrite (@plan_component_testing npm plainUtils quietHost verbatimNumbers
             componentTesting ∅ (exampleAnswers (Some react)) [] eq_refl).
  reflexivity.
Defined.

Lemma plan_initialises_project_witness :
  exists rest,
    (@_identifyChanges npm plainUtils quietHost verbatimNumbers noOptions ∅
       (exampleAnswers None)).2
    = @initProject npm :: rest.
Proof.
  exact (proj1 (@plan_initialises_project npm plainUtils quietHost
                  verbatimNumbers noOptions ∅ (exampleAnswers None))
           eq_refl).
Defined.

Lemma plan_installs_types_witness :
  In {| name := js "Installing Types";
        command := js "npm install --save-dev @types/node";
        phase := pre |}
    (@_identifyChanges npm plainUtils quietHost verbatimNumbers noOptions ∅
       (exampleAnswers None)).2.
Proof.
  exact (proj1 (@plan_installs_types npm plainUtils quietHost
                  verbatimNumbers noOptions ∅ (exampleAnswers None))
           eq_refl).
Defined.

Lemma quiet_component_testing_witness :
  In {| name := js "Installing Playwright Component Testing";
        command := js "npm install --save-dev undefined";
        phase := pre |}
    (@_identifyChanges npm plainUtils quietHost verbatimNumbers
       quietComponentTesting ∅
       (_askQuestions quietComponentTesting None false false
          (exampleAnswers (Some react)))).2.
Proof.
  exact (proj1 (proj2 (@quiet_component_testing npm plainUtils quietHost
                         verbatimNumbers quietComponentTesting ∅ false false
                         (exampleAnswers (Some react)) [] [] eq_refl
                         eq_refl))).
Defined.

Lemma manifest_failure_keeps_gitignore_witness :
  exists text,
    disk (@applyChanges plainUtils quietHost verbatimNumbers
            (exampleAnswers None) [] [] corruptProject).2 !! js ".gitignore"
    = Some text
    /\ allMatch text valuesToAdd.
Proof.
  destruct (@manifest_failure_keeps_gitignore plainUtils quietHost
              verbatimNumbers (exampleAnswers None) [] [] corruptProject
              SyntaxError)
    as (before & text & Hdisk & Hmatch & _).
  - vm_compute. reflexivity.
  - discriminate.
  - exists text. split; [exact Hdisk|exact Hmatch].
Defined.
